(** * Playground-NG control plane: runtime files, liveness probing, process
      signalling and the progress barrier

    A shallow embedding of
      - components/playground-ng/daemon_files.go  (PID/Port records, stale
        cleanup, claim, waitPlaygroundStopped),
      - components/playground-ng/kill_unix.go and its Windows twin,
      - pkg/tuiv2/progress/ui.go, eventlog.go and the uiWriter
        (UI.Sync, the plain engine and the event log),
      - pkg/tuiv2/progress/state.go and the Group and Task handles
        (the engine state that the events are folded into),
    together with the properties of these functions.

    Conventions.
      - Go strings are byte strings: [string] with [ascii] as byte.
      - Go [int], [time.Duration] and [time.Time] are [Z]; durations are in
        nanoseconds, a [time.Time] is the number of nanoseconds since the
        zero Time.
      - A Go function returning [(T, error)] returns a pair [T * option error].
      - The file system is a finite map from paths to files; its operations
        follow POSIX on that map and have no I/O faults of their own.
      - The clock moves in [time.Sleep] only, and it is there that the other
        processes act on the files.
      - Everything outside the process (other processes, the HTTP peer, the
        clock) is read from a [World]. *)

From stdpp Require Import gmap strings list fin_maps.
From Stdlib Require Import ZArith Lia DecimalString DecimalZ DecimalPos.
From Corelib Require Import PrimFloat.
From Stdlib Require Uint63.

#[local] Open Scope string_scope.
#[local] Open Scope list_scope.
#[local] Open Scope Z_scope.

(* ===================================================================== *)
(** * Go library: strings, strconv *)
(* ===================================================================== *)

Module GoStrings.

(** The byte with the given code. *)
Definition byte (n : nat) : Ascii.ascii := Ascii.ascii_of_nat n.

Definition code (c : Ascii.ascii) : nat := Ascii.nat_of_ascii c.

Definition isB (c : Ascii.ascii) (n : nat) : bool := Nat.eqb (code c) n.

(** [strings.asciiSpace]: '\t', '\n', '\v', '\f', '\r', ' '. *)
Definition asciiSpace (c : Ascii.ascii) : bool :=
  isB c 9 || isB c 10 || isB c 11 || isB c 12 || isB c 13 || isB c 32.

(** [unicode.IsSpace] on a two-byte UTF-8 sequence: U+0085, U+00A0. *)
Definition space2 (c1 c2 : Ascii.ascii) : bool :=
  isB c1 194 && (isB c2 133 || isB c2 160).

(** [unicode.IsSpace] on a three-byte UTF-8 sequence: U+1680, U+2000..U+200A,
    U+2028, U+2029, U+202F, U+205F, U+3000. *)
Definition space3 (c1 c2 c3 : Ascii.ascii) : bool :=
  (isB c1 225 && isB c2 154 && isB c3 128)
  || (isB c1 226 && isB c2 128
      && ((Nat.leb 128 (code c3) && Nat.leb (code c3) 138)
          || isB c3 168 || isB c3 169 || isB c3 175))
  || (isB c1 226 && isB c2 129 && isB c3 159)
  || (isB c1 227 && isB c2 128 && isB c3 128).

(** [strings.TrimLeftFunc(s, unicode.IsSpace)]. *)
Fixpoint TrimLeftSpace (s : string) : string :=
  match s with
  | EmptyString => EmptyString
  | String c1 r1 =>
      if asciiSpace c1 then TrimLeftSpace r1
      else match r1 with
           | String c2 r2 =>
               if space2 c1 c2 then TrimLeftSpace r2
               else match r2 with
                    | String c3 r3 =>
                        if space3 c1 c2 c3 then TrimLeftSpace r3 else s
                    | EmptyString => s
                    end
           | EmptyString => s
           end
  end.

(** The same on the reversed string: the bytes of a rune come last first. *)
Fixpoint TrimLeftSpaceRev (s : string) : string :=
  match s with
  | EmptyString => EmptyString
  | String c1 r1 =>
      if asciiSpace c1 then TrimLeftSpaceRev r1
      else match r1 with
           | String c2 r2 =>
               if space2 c2 c1 then TrimLeftSpaceRev r2
               else match r2 with
                    | String c3 r3 =>
                        if space3 c3 c2 c1 then TrimLeftSpaceRev r3 else s
                    | EmptyString => s
                    end
           | EmptyString => s
           end
  end.

(** [strings.TrimRightFunc(s, unicode.IsSpace)]. *)
Definition TrimRightSpace (s : string) : string :=
  String.rev (TrimLeftSpaceRev (String.rev s)).

(** [strings.TrimSpace]. *)
Definition TrimSpace (s : string) : string :=
  TrimRightSpace (TrimLeftSpace s).

(** [strings.HasPrefix(s, prefix)]. *)
Definition HasPrefix (s pre : string) : bool := String.prefix pre s.

(** [strings.TrimPrefix(s, prefix)]. *)
Definition TrimPrefix (s pre : string) : string :=
  if HasPrefix s pre
  then String.substring (String.length pre) ((String.length s - String.length pre)%nat) s
  else s.

(** [strings.Split(s, "\n")]. *)
Fixpoint SplitLines (s : string) : list string :=
  match s with
  | EmptyString => [EmptyString]
  | String c r =>
      if isB c 10 then EmptyString :: SplitLines r
      else match SplitLines r with
           | h :: t => String c h :: t
           | [] => [String c EmptyString]
           end
  end.

(** [strings.Contains(s, substr)]. *)
Fixpoint Contains (s sub : string) : bool :=
  String.prefix sub s
  || match s with
     | EmptyString => false
     | String _ r => Contains r sub
     end.

(** The range of Go's [int] on the 64-bit platforms the program runs on. *)
Definition minInt : Z := - 2 ^ 63.
Definition maxInt : Z := 2 ^ 63 - 1.

Inductive NumError := ErrSyntax | ErrRange.

(** [strconv.Atoi]: an optional sign, then at least one decimal digit and
    nothing else; the value must fit an [int]. *)
Definition Atoi (s : string) : Z + NumError :=
  let '(neg, digits) :=
    match s with
    | String c r =>
        if isB c 45 then (true, r)
        else if isB c 43 then (false, r)
        else (false, s)
    | EmptyString => (false, s)
    end in
  match digits with
  | EmptyString => inr ErrSyntax
  | _ =>
      match NilEmpty.uint_of_string digits with
      | None => inr ErrSyntax
      | Some u =>
          let v := if neg then - Z.of_uint u else Z.of_uint u in
          if (minInt <=? v) && (v <=? maxInt) then inl v else inr ErrRange
      end
  end.

(** [strconv.Itoa], the [%d] verb of [fmt]. *)
Definition Itoa (z : Z) : string := NilEmpty.string_of_int (Z.to_int z).

Definition hexDigit (n : nat) : Ascii.ascii :=
  if Nat.ltb n 10 then byte (48 + n)%nat else byte (87 + n)%nat.

(** One byte under [strconv.Quote]. Bytes from 0x80 on are copied: the
    text is taken to be printable UTF-8. *)
Definition quoteByte (c : Ascii.ascii) : string :=
  let bs := String (byte 92) EmptyString in
  if isB c 34 then bs +:+ String (byte 34) EmptyString
  else if isB c 92 then bs +:+ bs
  else if isB c 7 then bs +:+ "a"
  else if isB c 8 then bs +:+ "b"
  else if isB c 12 then bs +:+ "f"
  else if isB c 10 then bs +:+ "n"
  else if isB c 13 then bs +:+ "r"
  else if isB c 9 then bs +:+ "t"
  else if isB c 11 then bs +:+ "v"
  else if Nat.ltb (code c) 32 || isB c 127
  then bs +:+ "x" +:+ String (hexDigit (code c / 16)%nat) (String (hexDigit (code c mod 16)%nat) EmptyString)
  else String c EmptyString.

Fixpoint quoteBody (s : string) : string :=
  match s with
  | EmptyString => EmptyString
  | String c r => quoteByte c +:+ quoteBody r
  end.

(** [strconv.Quote], the [%q] verb of [fmt]. *)
Definition Quote (s : string) : string :=
  String (byte 34) (quoteBody s) +:+ String (byte 34) EmptyString.

(** Printable ASCII other than the space: no byte of a separator. *)
Definition tokenByte (c : Ascii.ascii) : bool :=
  Nat.leb 33 (code c) && Nat.leb (code c) 126.

Fixpoint allToken (s : string) : bool :=
  match s with
  | EmptyString => true
  | String c r => tokenByte c && allToken r
  end.

(** A non-empty word of such bytes. *)
Definition isToken (s : string) : bool := negb (String.eqb s "") && allToken s.

End GoStrings.
Export GoStrings.

(* ===================================================================== *)
(** * Go library: errors *)
(* ===================================================================== *)

Module GoErrors.

Inductive Errno :=
  EPERM | ENOENT | ESRCH | EAGAIN | EEXIST | EINVAL | ECONNREFUSED | ETIMEDOUT.

(** Go [error] values, by what the program can tell about them. *)
Inductive error :=
| SysErr (e : Errno)                     (* a syscall.Errno, bare or inside the
                                            os/net wrappers that errors.Is and
                                            os.IsNotExist see through *)
| DeadlineExceeded                       (* context.DeadlineExceeded *)
| LibErr (timeout : bool) (msg : string) (* any other library error, with what
                                            its Timeout() method answers *)
| Errorf (msg : string)                  (* fmt.Errorf without %w *)
| Wrap (msg : string) (cause : error).   (* fmt.Errorf("...: %w", cause) and
                                            errors.Annotatef(cause, "...") *)

Definition strerror (e : Errno) : string :=
  match e with
  | EPERM => "operation not permitted"
  | ENOENT => "no such file or directory"
  | ESRCH => "no such process"
  | EAGAIN => "resource temporarily unavailable"
  | EEXIST => "file exists"
  | EINVAL => "invalid argument"
  | ECONNREFUSED => "connection refused"
  | ETIMEDOUT => "connection timed out"
  end.

(** [err.Error()]. *)
Fixpoint errText (e : error) : string :=
  match e with
  | SysErr n => strerror n
  | DeadlineExceeded => "context deadline exceeded"
  | LibErr _ msg => msg
  | Errorf msg => msg
  | Wrap msg cause => msg +:+ ": " +:+ errText cause
  end.

Definition errnoEqb (a b : Errno) : bool :=
  match a, b with
  | EPERM, EPERM | ENOENT, ENOENT | ESRCH, ESRCH | EAGAIN, EAGAIN
  | EEXIST, EEXIST | EINVAL, EINVAL | ECONNREFUSED, ECONNREFUSED
  | ETIMEDOUT, ETIMEDOUT => true
  | _, _ => false
  end.

(** [errors.Is(err, syscall.Errno)]. *)
Fixpoint IsErrno (e : error) (target : Errno) : bool :=
  match e with
  | SysErr n => errnoEqb n target
  | Wrap _ cause => IsErrno cause target
  | _ => false
  end.

(** [errors.Is(err, context.DeadlineExceeded)]. *)
Fixpoint IsDeadlineExceeded (e : error) : bool :=
  match e with
  | DeadlineExceeded => true
  | Wrap _ cause => IsDeadlineExceeded cause
  | _ => false
  end.

(** [errors.As(err, &netErr) && netErr.Timeout()] for
    [netErr interface{ Timeout() bool }]: the first error of the chain
    that has a Timeout method answers. *)
Fixpoint AsTimeout (e : error) : bool :=
  match e with
  | SysErr n => errnoEqb n EAGAIN || errnoEqb n ETIMEDOUT
  | DeadlineExceeded => true
  | LibErr timeout _ => timeout
  | Errorf _ => false
  | Wrap _ cause => AsTimeout cause
  end.

(** [os.IsNotExist] and [os.IsExist]: they do not unwrap fmt's wrappers. *)
Definition IsNotExist (e : error) : bool :=
  match e with SysErr ENOENT => true | _ => false end.

Definition IsExist (e : error) : bool :=
  match e with SysErr EEXIST => true | _ => false end.

(** [errors.AddStack] (pingcap/errors) records a stack trace and keeps the
    error otherwise. *)
Definition AddStack (e : error) : error := e.

(** [errors.Annotatef(err, format, args...)] with the message formatted. *)
Definition Annotatef (e : error) (msg : string) : error := Wrap msg e.

(** The [*strconv.NumError] of a failed [strconv.Atoi]. *)
Definition atoiError (raw : string) (k : NumError) : error :=
  LibErr false ("strconv.Atoi: parsing " +:+ Quote raw +:+ ": "
                +:+ match k with
                    | ErrSyntax => "invalid syntax"
                    | ErrRange => "value out of range"
                    end).

End GoErrors.
Export GoErrors.

(* ===================================================================== *)
(** * The world outside the process *)
(* ===================================================================== *)

Definition Millisecond : Z := 1000000.
Definition Second : Z := 1000 * Millisecond.

(** [time.Duration] is an int64 and [Time.Sub] saturates. *)
Definition minDuration : Z := - 2 ^ 63.
Definition maxDuration : Z := 2 ^ 63 - 1.

Definition Sub (t u : Z) : Z :=
  let d := t - u in
  if d <? minDuration then minDuration
  else if maxDuration <? d then maxDuration
  else d.

Record File := { content : string; ModTime : Z }.

(** What another process does to the file system while this one sleeps. *)
Inductive FsOp :=
| ExtNone
| ExtRemove (path : string)
| ExtWrite (path : string) (f : File).

(** [context.Context], as far as the program builds one. *)
Inductive Context :=
| ctxNil
| ctxBackground
| ctxWithTimeout (parent : Context) (d : Z).

(** The wire reply [CommandReply] of the command server. *)
Record CommandReply := { OK : bool; Message : string; Error : string }.

(** An [*http.Response]; [Body] is what [json.NewDecoder(resp.Body).Decode]
    makes of the body. *)
Record Response := {
  StatusCode : Z;
  Status : string;
  Body : CommandReply + error
}.

(** The outcome of [client.Do(req)]; with an error comes whether [ctx.Err()]
    is non-nil afterwards. *)
Inductive DoResult :=
| DoErr (err : error) (ctxDone : bool)
| DoResp (resp : Response).

Definition StatusOK : Z := 200.
Definition StatusNotFound : Z := 404.
Definition StatusMethodNotAllowed : Z := 405.

Record World := {
  fs : gmap string File;                (* the files, by path *)
  clock : Z;                            (* time.Now() *)
  Getpid : Z;                           (* os.Getpid() *)
  Kill : Z -> Z -> option Errno;        (* syscall.Kill(pid, sig) *)
  Getpgid : Z -> Z + Errno;             (* syscall.Getpgid(pid) *)
  httpGet : Context -> Z -> string -> DoResult;
                                        (* GET http://127.0.0.1:<port><path> *)
  MkdirAll : string -> option error;    (* utils.MkdirAll(dir, 0o755) *)
  others : list FsOp                    (* other processes, one step per sleep *)
}.

Definition setFs (m : gmap string File) (w : World) : World :=
  {| fs := m; clock := clock w; Getpid := Getpid w; Kill := Kill w;
     Getpgid := Getpgid w; httpGet := httpGet w; MkdirAll := MkdirAll w; others := others w |}.

Definition applyOp (op : FsOp) (m : gmap string File) : gmap string File :=
  match op with
  | ExtNone => m
  | ExtRemove path => delete path m
  | ExtWrite path f => <[path := f]> m
  end.

(** [time.Sleep(d)]: the clock advances and the other processes take their
    next step. *)
Definition Sleep (d : Z) (w : World) : World :=
  {| fs := match others w with op :: _ => applyOp op (fs w) | [] => fs w end;
     clock := clock w + d; Getpid := Getpid w; Kill := Kill w;
     Getpgid := Getpgid w; httpGet := httpGet w; MkdirAll := MkdirAll w; others := tail (others w) |}.

(** [os.ReadFile]. *)
Definition ReadFile (path : string) (w : World) : string * option error :=
  match fs w !! path with
  | Some f => (content f, None)
  | None => ("", Some (SysErr ENOENT))
  end.

(** [os.Stat]: the FileInfo, or the error. *)
Definition Stat (path : string) (w : World) : File + error :=
  match fs w !! path with
  | Some f => inl f
  | None => inr (SysErr ENOENT)
  end.

(** [os.Remove]; every caller drops its error. *)
Definition Remove (path : string) (w : World) : World :=
  setFs (delete path (fs w)) w.

(** [os.OpenFile(path, O_WRONLY|O_CREATE|O_EXCL, 0o644)], the write of
    [data] and the close, on a new file. *)
Definition CreateExcl (path data : string) (w : World) : World * option error :=
  match fs w !! path with
  | Some _ => (w, Some (SysErr EEXIST))
  | None => (setFs (<[path := {| content := data; ModTime := clock w |}]> (fs w)) w, None)
  end.

(** [filepath.Join(dir, name)] for a clean [dir] and a file name. *)
Definition Join (dir name : string) : string := dir +:+ "/" +:+ name.

(* ===================================================================== *)
(** * components/playground-ng/daemon_files.go *)
(* ===================================================================== *)

Definition playgroundPIDFileName : string := "pid".
Definition playgroundPortFileName : string := "port".

Definition pidFileWriteGracePeriod : Z := 2 * Second.

(** [err == nil]. *)
Definition isNil (err : option error) : bool :=
  match err with None => true | Some _ => false end.

Definition isTimeoutErr (err : option error) : bool :=
  match err with
  | None => false
  | Some e => if IsDeadlineExceeded e then true else AsTimeout e
  end.

Record pidFile := { pid : Z; startedAt : Z; tag : string }.

(** The zero value [pidFile{}]. *)
Definition pidFile0 : pidFile := {| pid := 0; startedAt := 0; tag := "" |}.

Definition newline : string := String (byte 10) EmptyString.

Section DaemonFiles.

(** [time.Parse(time.RFC3339, raw)] and
    [t.UTC().Format(time.RFC3339)] of the time package. *)
Variable timeParse : string -> option Z.
Variable timeFormat : Z -> string.

(** The body of the loop of [readPIDFile] over the lines still to read, with
    the loop's variables [out] and [seenPID]. *)
Fixpoint readPIDLines (lines : list string) (out : pidFile) (seenPID : bool)
  : pidFile * option error :=
  match lines with
  | [] =>
      if negb seenPID then (pidFile0, Some (Errorf "missing pid field"))
      else (out, None)
  | line :: rest =>
      let line := TrimSpace line in
      if String.eqb line "" then readPIDLines rest out seenPID
      else if HasPrefix line "pid=" then
        let raw := TrimSpace (TrimPrefix line "pid=") in
        if String.eqb raw "" then (pidFile0, Some (Errorf "pid is empty"))
        else match Atoi raw with
             | inr k =>
                 (pidFile0, Some (Wrap ("invalid pid " +:+ Quote raw) (atoiError raw k)))
             | inl p =>
                 readPIDLines rest
                   {| pid := p; startedAt := startedAt out; tag := tag out |} true
             end
      else if HasPrefix line "started_at=" then
        let raw := TrimSpace (TrimPrefix line "started_at=") in
        if String.eqb raw "" then readPIDLines rest out seenPID
        else match timeParse raw with
             | None =>
                 (pidFile0,
                  Some (Wrap ("invalid started_at " +:+ Quote raw)
                             (LibErr false ("parsing time " +:+ Quote raw))))
             | Some t =>
                 readPIDLines rest
                   {| pid := pid out; startedAt := t; tag := tag out |} seenPID
             end
      else if HasPrefix line "tag=" then
        readPIDLines rest
          {| pid := pid out; startedAt := startedAt out;
             tag := TrimSpace (TrimPrefix line "tag=") |} seenPID
      else readPIDLines rest out seenPID
  end.

(** The parsing part of [readPIDFile], on the data read. *)
Definition parsePIDFile (data : string) : pidFile * option error :=
  readPIDLines (SplitLines data) pidFile0 false.

Definition readPIDFile (path : string) (w : World) : pidFile * option error :=
  match ReadFile path w with
  | (_, Some err) => (pidFile0, Some err)
  | (data, None) => parsePIDFile data
  end.

Definition isPIDRunning (pid : Z) (w : World) : bool * option error :=
  if pid <=? 0 then (false, Some (Errorf ("invalid pid " +:+ Itoa pid)))
  else match Kill w pid 0 with
       | None => (true, None)
       | Some EPERM => (true, None)
       | Some ESRCH => (false, None)
       | Some e => (false, Some (SysErr e))
       end.

(** The second request of [probePlaygroundCommandServer], GET /command. *)
Definition probeCommand (ctx : Context) (port : Z) (w : World) : bool * option error :=
  match httpGet w ctx port "/command" with
  | DoErr err _ => (false, Some err)
  | DoResp resp =>
      match Body resp with
      | inr err => (false, Some err)
      | inl reply =>
          if negb (StatusCode resp =? StatusMethodNotAllowed)
          then (false, Some (Errorf ("unexpected probe status: " +:+ Status resp)))
          else if negb (OK reply) && String.eqb (Error reply) "method not allowed"
          then (true, None)
          else (false, Some (Errorf "unexpected probe response"))
      end
  end.

(** [http.NewRequestWithContext] does not fail on the two URLs, and its error
    branches are left out. *)
Definition probePlaygroundCommandServer (ctx : Context) (port : Z) (w : World)
  : bool * option error :=
  if port <=? 0 then (false, Some (Errorf ("invalid port " +:+ Itoa port)))
  else
    let ctx := match ctx with ctxNil => ctxBackground | _ => ctx end in
    match httpGet w ctx port "/ping" with
    | DoErr err ctxDone =>
        if ctxDone then (false, Some err) else probeCommand ctx port w
    | DoResp pingResp =>
        if StatusCode pingResp =? StatusOK then
          match Body pingResp with
          | inr err => (false, Some err)
          | inl reply =>
              if OK reply && String.eqb (TrimSpace (Message reply)) "pong"
              then (true, None)
              else (false, Some (Errorf "unexpected ping response"))
          end
        else probeCommand ctx port w
    end.

(** Modelled from the spec: [loadPort] is not under src/. The Port record is
    the file [port] of the data directory, text, the decimal TCP port. *)
Definition loadPort (dataDir : string) (w : World) : Z * option error :=
  match ReadFile (Join dataDir playgroundPortFileName) w with
  | (_, Some err) => (0, Some err)
  | (data, None) =>
      match Atoi data with
      | inl port => (port, None)
      | inr k => (0, Some (atoiError data k))
      end
  end.

(** The context of both probes of the runtime files. *)
Definition probeCtx : Context := ctxWithTimeout ctxBackground (500 * Millisecond).

(** The last part of [cleanupStaleRuntimeFiles], from [loadPort] on: the PID
    record is out of the way. *)
Definition cleanupStalePort (dataDir : string) (w : World) : World * option error :=
  let portPath := Join dataDir playgroundPortFileName in
  match loadPort dataDir w with
  | (_, Some err) =>
      if IsNotExist err then (w, None) else (w, Some (AddStack err))
  | (port, None) =>
      if port <=? 0 then (w, None)
      else
        let '(ok, probeErr) := probePlaygroundCommandServer probeCtx port w in
        if ok && isNil probeErr
        then (w, Some (Errorf ("playground already running (port=" +:+ Itoa port +:+ ")")))
        else if isTimeoutErr probeErr
        then (w, Some (Errorf ("playground command server probe timed out (port="
                               +:+ Itoa port +:+ ")")))
        else if match probeErr with Some e => IsErrno e ECONNREFUSED | None => false end
        then (Remove portPath w, None)
        else (Remove portPath w, None)
  end.

Definition cleanupStaleRuntimeFiles (dataDir : string) (w : World) : World * option error :=
  if String.eqb (TrimSpace dataDir) "" then (w, Some (Errorf "data dir is empty"))
  else
    let pidPath := Join dataDir playgroundPIDFileName in
    let portPath := Join dataDir playgroundPortFileName in
    match readPIDFile pidPath w with
    | (rec, None) =>
        match isPIDRunning (pid rec) w with
        | (_, Some runErr) =>
            (w, Some (Annotatef runErr ("check pid " +:+ Itoa (pid rec))))
        | (running, None) =>
            if running
            then (w, Some (Errorf ("playground already running (pid="
                                   +:+ Itoa (pid rec) +:+ ")")))
            else (Remove portPath (Remove pidPath w), None)
        end
    | (_, Some err) =>
        if negb (IsNotExist err) then
          match Stat pidPath w with
          | inr statErr =>
              if negb (IsNotExist statErr) then (w, Some (AddStack statErr))
              else cleanupStalePort dataDir w
          | inl info =>
              let age := Sub (clock w) (ModTime info) in
              if (0 <=? age) && (age <? pidFileWriteGracePeriod)
              then (w, Some (Errorf "playground is starting (pid file is being written)"))
              else
                (* The pid file is present but invalid (corrupted/partial). Use
                   the port probe as a safety net before treating it as stale. *)
                let remove := (Remove portPath (Remove pidPath w), None) in
                match loadPort dataDir w with
                | (port, None) =>
                    if 0 <? port then
                      let '(ok, probeErr) :=
                        probePlaygroundCommandServer probeCtx port w in
                      if ok && isNil probeErr
                      then (w, Some (Errorf ("playground already running (port="
                                             +:+ Itoa port +:+ ")")))
                      else if isTimeoutErr probeErr
                      then (w, Some (Errorf
                                  ("playground command server probe timed out (port="
                                   +:+ Itoa port +:+ ")")))
                      else remove
                    else remove
                | (_, Some _) => remove
                end
          end
        else cleanupStalePort dataDir w
    end.

(** What [claimPlaygroundPIDFile] writes with
    [fmt.Fprintf(f, "pid=%d\nstarted_at=%s\ntag=%s\n", ...)]. *)
Definition pidFileBody (pid : Z) (now : Z) (tag : string) : string :=
  ("pid=" +:+ Itoa pid) +:+ newline
  +:+ ("started_at=" +:+ timeFormat now) +:+ newline
  +:+ ("tag=" +:+ tag) +:+ newline.

(** The [release] closure returned by [claimPlaygroundPIDFile]. *)
Definition release (pidPath : string) : World -> World := Remove pidPath.

(** The [for] loop of [claimPlaygroundPIDFile]; [None] when [fuel] rounds did
    not reach a return. *)
Fixpoint claimLoop (fuel : nat) (dataDir tag : string) (w : World)
  : option (World * (option (World -> World) * option error)) :=
  match fuel with
  | O => None
  | S fuel' =>
      let pidPath := Join dataDir playgroundPIDFileName in
      match CreateExcl pidPath (pidFileBody (Getpid w) (clock w) tag) w with
      | (w1, None) => Some (w1, (Some (release pidPath), None))
      | (_, Some err) =>
          if negb (IsExist err) then Some (w, (None, Some (AddStack err)))
          else
            match cleanupStaleRuntimeFiles dataDir w with
            | (w1, Some err) =>
                Some (w1, (None, Some (Annotatef err
                                   ("tag " +:+ Quote tag +:+ " is already in use"))))
            | (w1, None) => claimLoop fuel' dataDir tag w1
            end
      end
  end.

Definition claimPlaygroundPIDFile (fuel : nat) (dataDir tag : string) (w : World)
  : option (World * (option (World -> World) * option error)) :=
  if String.eqb (TrimSpace dataDir) "" then Some (w, (None, Some (Errorf "data dir is empty")))
  else if String.eqb (TrimSpace tag) "" then Some (w, (None, Some (Errorf "tag is empty")))
  else match MkdirAll w dataDir with
       | Some err => Some (w, (None, Some err))
       | None =>
           match cleanupStaleRuntimeFiles dataDir w with
           | (w1, Some err) =>
               Some (w1, (None, Some (Annotatef err
                                  ("tag " +:+ Quote tag +:+ " is already in use"))))
           | (w1, None) => claimLoop fuel dataDir tag w1
           end
       end.

(** One round of the loop of [waitPlaygroundStopped] up to its deadline
    check: [Some] is a return from inside the round. *)
Definition waitRound (dataDir : string) (w : World) : World * option (option error) :=
  let pidPath := Join dataDir playgroundPIDFileName in
  let portPath := Join dataDir playgroundPortFileName in
  match readPIDFile pidPath w with
  | (_, Some err) =>
      if IsNotExist err then (w, Some None)
      else
        match Stat pidPath w with
        | inr statErr =>
            if IsNotExist statErr then (w, Some None) else (w, None)
        | inl info =>
            let age := Sub (clock w) (ModTime info) in
            if pidFileWriteGracePeriod <=? age then
              let stillRunning :=
                match loadPort dataDir w with
                | (port, None) =>
                    if 0 <? port then
                      let '(ok, probeErr) :=
                        probePlaygroundCommandServer probeCtx port w in
                      (ok && isNil probeErr)
                      || isTimeoutErr probeErr
                    else false
                | (_, Some _) => false
                end in
              if negb stillRunning
              then (Remove portPath (Remove pidPath w), Some None)
              else (w, None)
            else (w, None)
        end
  | (rec, None) =>
      match isPIDRunning (pid rec) w with
      | (running, None) =>
          if negb running then (Remove pidPath w, Some None) else (w, None)
      | (_, Some _) => (w, None)
      end
  end.

(** The loop of [waitPlaygroundStopped]; [None] when [fuel] rounds did not
    reach a return. *)
Fixpoint waitLoop (fuel : nat) (dataDir : string) (deadline : Z) (w : World)
  : option (World * option error) :=
  match fuel with
  | O => None
  | S fuel' =>
      match waitRound dataDir w with
      | (w1, Some r) => Some (w1, r)
      | (w1, None) =>
          if deadline <? clock w1
          then Some (w1, Some (Errorf "timeout waiting for playground to stop"))
          else waitLoop fuel' dataDir deadline (Sleep (200 * Millisecond) w1)
      end
  end.

Definition waitPlaygroundStopped (fuel : nat) (dataDir : string) (timeout : Z) (w : World)
  : option (World * option error) :=
  if String.eqb (TrimSpace dataDir) "" then Some (w, Some (Errorf "data dir is empty"))
  else
    let timeout := if timeout <=? 0 then 60 * Second else timeout in
    let deadline := clock w + timeout in
    waitLoop fuel dataDir deadline w.

End DaemonFiles.

(* ===================================================================== *)
(** * components/playground-ng/kill_unix.go and kill_windows.go *)
(* ===================================================================== *)

(** [syscall.Kill(pid, sig)] as the program sees it: the call made and its
    error. *)
Definition sysKill (pid sig : Z) (w : World) : list (Z * Z) * option error :=
  ([(pid, sig)], SysErr <$> Kill w pid sig).

(** The Unix build; the result lists the [kill] calls made. *)
Definition killProcessOrGroup (pid sig : Z) (w : World) : list (Z * Z) * option error :=
  if (pid <=? 0) || (sig =? 0) then ([], None)
  else
    match Getpgid w pid with
    | inl pgid =>
        if pgid =? pid then sysKill (- pid) sig w else sysKill pid sig w
    | inr _ => sysKill pid sig w
    end.

(** The Windows build. *)
Definition killProcessOrGroupWindows (pid sig : Z) (w : World)
  : list (Z * Z) * option error :=
  ([], None).

(* ===================================================================== *)
(** * Go library: time, RFC 3339 in UTC *)
(* ===================================================================== *)

Module GoTime.

(** Days from 1970-01-01 to the civil date, and back. *)
Definition daysFromCivil (y m d : Z) : Z :=
  let y := if m <=? 2 then y - 1 else y in
  let era := y / 400 in
  let yoe := y - era * 400 in
  let doy := (153 * (m + (if 2 <? m then -3 else 9)) + 2) / 5 + d - 1 in
  let doe := yoe * 365 + yoe / 4 - yoe / 100 + doy in
  era * 146097 + doe - 719468.

Definition civilFromDays (z : Z) : Z * Z * Z :=
  let z := z + 719468 in
  let era := z / 146097 in
  let doe := z - era * 146097 in
  let yoe := (doe - doe / 1460 + doe / 36524 - doe / 146096) / 365 in
  let doy := doe - (365 * yoe + yoe / 4 - yoe / 100) in
  let mp := (5 * doy + 2) / 153 in
  let d := doy - (153 * mp + 2) / 5 + 1 in
  let m := if mp <? 10 then mp + 3 else mp - 9 in
  (if m <=? 2 then yoe + era * 400 + 1 else yoe + era * 400, m, d).

(** 0001-01-01, the day of the zero Time, counted from 1970-01-01. *)
Definition zeroDay : Z := daysFromCivil 1 1 1.

Definition isLeap (y : Z) : bool :=
  (y mod 4 =? 0) && (negb (y mod 100 =? 0) || (y mod 400 =? 0)).

Definition daysIn (y m : Z) : Z :=
  if m =? 2 then (if isLeap y then 29 else 28)
  else if (m =? 4) || (m =? 6) || (m =? 9) || (m =? 11) then 30 else 31.

Definition digit (n : Z) : Ascii.ascii := byte (48 + Z.to_nat (n mod 10)).

Definition pad2 (n : Z) : string :=
  String (digit (n / 10)) (String (digit n) EmptyString).

Definition pad4 (n : Z) : string := pad2 (n / 100) +:+ pad2 n.

(** [t.UTC().Format(time.RFC3339)] for the years 0 to 9999. *)
Definition rfc3339Format (t : Z) : string :=
  let secs := t / Second in
  let days := secs / 86400 in
  let sod := secs mod 86400 in
  let '(y, m, d) := civilFromDays (days + zeroDay) in
  pad4 y +:+ "-" +:+ pad2 m +:+ "-" +:+ pad2 d +:+ "T"
  +:+ pad2 (sod / 3600) +:+ ":" +:+ pad2 (sod / 60 mod 60) +:+ ":" +:+ pad2 (sod mod 60)
  +:+ "Z".

Definition digitVal (c : Ascii.ascii) : option Z :=
  if Nat.leb 48 (code c) && Nat.leb (code c) 57
  then Some (Z.of_nat (code c) - 48) else None.

(** [n] decimal digits at the head of [s]. *)
Fixpoint number (n : nat) (acc : Z) (s : string) : option (Z * string) :=
  match n with
  | O => Some (acc, s)
  | S n' =>
      match s with
      | String c r =>
          match digitVal c with
          | Some v => number n' (10 * acc + v) r
          | None => None
          end
      | EmptyString => None
      end
  end.

Definition expect (c : nat) (s : string) : option string :=
  match s with
  | String c' r => if isB c' c then Some r else None
  | EmptyString => None
  end.

(** A fraction of a second: a point and digits; the value in nanoseconds. *)
Fixpoint fraction (s : string) (scale acc : Z) : Z * string :=
  match s with
  | String c r =>
      match digitVal c with
      | Some v => fraction r (scale / 10) (acc + v * scale)
      | None => (acc, s)
      end
  | EmptyString => (acc, s)
  end.

(** [time.Parse(time.RFC3339, s)]: date "T" time, an optional fraction, and
    "Z" or a numeric offset. *)
Definition rfc3339Parse (s : string) : option Z :=
  '(y, s) ← number 4 0 s; s ← expect 45 s;
  '(m, s) ← number 2 0 s; s ← expect 45 s;
  '(d, s) ← number 2 0 s; s ← expect 84 s;
  '(hh, s) ← number 2 0 s; s ← expect 58 s;
  '(mm, s) ← number 2 0 s; s ← expect 58 s;
  '(ss, s) ← number 2 0 s;
  '(ns, s) ← match s with
             | String c (String c' r) =>
                 if isB c 46 && bool_decide (is_Some (digitVal c'))
                 then Some (fraction (String c' r) 100000000 0) else Some (0, s)
             | _ => Some (0, s)
             end;
  off ← match s with
        | String c EmptyString => if isB c 90 then Some 0 else None
        | String c r =>
            sign ← (if isB c 43 then Some 1 else if isB c 45 then Some (-1) else None);
            '(oh, r) ← number 2 0 r; r ← expect 58 r;
            '(om, r) ← number 2 0 r;
            if String.eqb r "" && (oh <? 24) && (om <? 60)
            then Some (sign * (oh * 3600 + om * 60)) else None
        | EmptyString => None
        end;
  if (1 <=? m) && (m <=? 12) && (1 <=? d) && (d <=? daysIn y m)
     && (hh <? 24) && (mm <? 60) && (ss <? 60)
  then Some (((daysFromCivil y m d - zeroDay) * 86400
              + hh * 3600 + mm * 60 + ss - off) * Second + ns)
  else None.

End GoTime.
Export GoTime.

(* ===================================================================== *)
(** * pkg/tuiv2/progress: ui.go, eventlog.go and the uiWriter *)
(* ===================================================================== *)

(** The UI is shared by goroutines: the callers of its methods, the engine
    [runPlain] and the caller of [Close]. Its state is the record [UI]; a
    channel is the list of what it holds, oldest first, or for a channel
    that is only ever closed, whether it is closed. A method is a function
    on the state, [None] where the method would block; the goroutines
    interleave these functions as the steps of [step] below. *)

Inductive Mode := ModeAuto | ModeTTY | ModePlain | ModeOff.

Inductive EventType :=
| EventPrintLines | EventSync | EventGroupAdd | EventGroupUpdate | EventGroupClose
| EventTaskAdd | EventTaskUpdate | EventTaskProgress | EventTaskState.

(** An [Event]: its type, ids, lines and sync id. The timestamp [At] and the
    payload of the group and task events are left out; nothing below looks
    at them. *)
Record Event := {
  EType : EventType;
  GroupID : Z;
  TaskID : Z;
  Lines : list string;
  SyncID : Z
}.

Definition isSync (e : Event) : bool :=
  match EType e with EventSync => true | _ => false end.

Definition printLines (lines : list string) : Event :=
  {| EType := EventPrintLines; GroupID := 0; TaskID := 0; Lines := lines; SyncID := 0 |}.

Definition syncEvent (id : Z) : Event :=
  {| EType := EventSync; GroupID := 0; TaskID := 0; Lines := []; SyncID := id |}.

Definition groupAdd (id : Z) : Event :=
  {| EType := EventGroupAdd; GroupID := id; TaskID := 0; Lines := []; SyncID := 0 |}.

Definition defaultEventBuffer : nat := 4096.

Record UI := {
  mode : Mode;
  closed : bool;                   (* ui.closed *)
  nextID : Z;                      (* ui.nextID, a uint64 *)
  syncWaiters : gset Z;            (* the keys of ui.syncWaiters *)
  released : gset Z;               (* the wait channels closed so far, by id *)
  eventsCh : list Event;           (* ui.eventsCh *)
  closeCh : bool;                  (* ui.closeCh is closed *)
  doneCh : bool;                   (* ui.doneCh is closed *)
  plainDoneCh : bool;              (* ui.plainDoneCh is closed *)
  buf : string;                    (* ui.writer.buf *)
  eventLog : option (list Event);  (* ui.eventLog and what it has encoded *)
  rendered : list Event            (* what the plain renderer was given *)
}.

Definition setClosed (b : bool) (u : UI) : UI :=
  {| mode := mode u; closed := b; nextID := nextID u; syncWaiters := syncWaiters u;
     released := released u; eventsCh := eventsCh u; closeCh := closeCh u;
     doneCh := doneCh u; plainDoneCh := plainDoneCh u; buf := buf u;
     eventLog := eventLog u; rendered := rendered u |}.

Definition setNextID (n : Z) (u : UI) : UI :=
  {| mode := mode u; closed := closed u; nextID := n; syncWaiters := syncWaiters u;
     released := released u; eventsCh := eventsCh u; closeCh := closeCh u;
     doneCh := doneCh u; plainDoneCh := plainDoneCh u; buf := buf u;
     eventLog := eventLog u; rendered := rendered u |}.

Definition setWaiters (ws rs : gset Z) (u : UI) : UI :=
  {| mode := mode u; closed := closed u; nextID := nextID u; syncWaiters := ws;
     released := rs; eventsCh := eventsCh u; closeCh := closeCh u;
     doneCh := doneCh u; plainDoneCh := plainDoneCh u; buf := buf u;
     eventLog := eventLog u; rendered := rendered u |}.

Definition setEventsCh (q : list Event) (u : UI) : UI :=
  {| mode := mode u; closed := closed u; nextID := nextID u; syncWaiters := syncWaiters u;
     released := released u; eventsCh := q; closeCh := closeCh u;
     doneCh := doneCh u; plainDoneCh := plainDoneCh u; buf := buf u;
     eventLog := eventLog u; rendered := rendered u |}.

Definition setCloseCh (u : UI) : UI :=
  {| mode := mode u; closed := closed u; nextID := nextID u; syncWaiters := syncWaiters u;
     released := released u; eventsCh := eventsCh u; closeCh := true;
     doneCh := doneCh u; plainDoneCh := plainDoneCh u; buf := buf u;
     eventLog := eventLog u; rendered := rendered u |}.

Definition setDone (u : UI) : UI :=
  {| mode := mode u; closed := closed u; nextID := nextID u; syncWaiters := syncWaiters u;
     released := released u; eventsCh := eventsCh u; closeCh := closeCh u;
     doneCh := true; plainDoneCh := true; buf := buf u;
     eventLog := eventLog u; rendered := rendered u |}.

Definition setBuf (b : string) (u : UI) : UI :=
  {| mode := mode u; closed := closed u; nextID := nextID u; syncWaiters := syncWaiters u;
     released := released u; eventsCh := eventsCh u; closeCh := closeCh u;
     doneCh := doneCh u; plainDoneCh := plainDoneCh u; buf := b;
     eventLog := eventLog u; rendered := rendered u |}.

Definition setOutput (log : option (list Event)) (out : list Event) (u : UI) : UI :=
  {| mode := mode u; closed := closed u; nextID := nextID u; syncWaiters := syncWaiters u;
     released := released u; eventsCh := eventsCh u; closeCh := closeCh u;
     doneCh := doneCh u; plainDoneCh := plainDoneCh u; buf := buf u;
     eventLog := log; rendered := out |}.

Definition isOff (m : Mode) : bool :=
  match m with ModeOff => true | _ => false end.

(** [ui.nextID.Add(1)]. *)
Definition addID (u : UI) : Z := (nextID u + 1) mod 2 ^ 64.

(** [ui.eventsCh <- e] where it does not block. *)
Definition send (e : Event) (u : UI) : option UI :=
  if Nat.ltb (length (eventsCh u)) defaultEventBuffer
  then Some (setEventsCh (eventsCh u ++ [e]) u)
  else None.

(** [ui.emit(e)]: the first [select] returns when [closeCh] is closed; the
    second sends, and blocks while the channel is full. *)
Definition emit (e : Event) (u : UI) : option UI :=
  if closed u then Some u
  else if isOff (mode u) then Some u
  else if closeCh u then Some u
  else send e u.

Definition emitForced (e : Event) (u : UI) : option UI :=
  if isOff (mode u) then Some u
  else if closeCh u then Some u
  else send e u.

(** [strings.TrimSuffix(line, "\r")]. *)
Definition TrimSuffixCR (line : string) : string :=
  match String.rev line with
  | String c r => if isB c 13 then String.rev r else line
  | EmptyString => line
  end.

(** The loop of [uiWriter.Write] over [p]: the buffer and the lines so far. *)
Fixpoint writeBytes (p : string) (b : string) (lines : list string)
  : list string * string :=
  match p with
  | EmptyString => (lines, b)
  | String c r =>
      if isB c 10 then writeBytes r "" (lines ++ [TrimSuffixCR b])
      else writeBytes r (b +:+ String c EmptyString) lines
  end.

(** [ui.writer.Write(p)]. *)
Definition Write (p : string) (u : UI) : option UI :=
  if closed u || isOff (mode u) then Some u
  else
    let '(lines, b) := writeBytes p (buf u) [] in
    let u := setBuf b u in
    match lines with
    | [] => Some u
    | _ :: _ => emit (printLines lines) u
    end.

(** [ui.writer.drainBufferedLine()]. *)
Definition drainBufferedLine (u : UI) : string * UI :=
  (TrimSuffixCR (buf u), setBuf "" u).

(** The flush of the pending partial line at the head of [Sync] and [Close]. *)
Definition flushLine (emitter : Event -> UI -> option UI) (u : UI) : option UI :=
  let '(line, u) := drainBufferedLine u in
  if String.eqb line "" then Some u else emitter (printLines [line]) u.

(** The event that the flush makes of the partial line, if there is one. *)
Definition pendingLine (u : UI) : list Event :=
  if String.eqb (TrimSuffixCR (buf u)) "" then []
  else [printLines [TrimSuffixCR (buf u)]].

(** [ui.Group(title)]. *)
Definition Group (u : UI) : option UI :=
  if closed u then Some u
  else let id := addID u in emit (groupAdd id) (setNextID id u).

Definition removeSyncWaiter (id : Z) (u : UI) : UI :=
  if id =? 0 then u
  else setWaiters (syncWaiters u ∖ {[id]}) (released u) u.

(** [ui.fulfillSync(id)]: a registered wait channel is taken off the map and
    closed. *)
Definition fulfillSync (id : Z) (u : UI) : UI :=
  if id =? 0 then u
  else if bool_decide (id ∈ syncWaiters u)
  then setWaiters (syncWaiters u ∖ {[id]}) ({[id]} ∪ released u) u
  else u.

(** [ui.Sync()] up to its first [select], on a UI made by [New] (not nil,
    with its writer): it returns at once, or it has sent its sync event and
    waits, or it blocks on the full channel. *)
Inductive SyncEntry :=
| EnterReturn (u : UI)
| EnterWait (id : Z) (u : UI)
| EnterBlocked.

Definition SyncEnter (u : UI) : SyncEntry :=
  if closed u || isOff (mode u) then EnterReturn u
  else
    match flushLine emit u with
    | None => EnterBlocked
    | Some u =>
        let id := addID u in
        let u := setWaiters ({[id]} ∪ syncWaiters u) (released u) (setNextID id u) in
        if closeCh u then EnterReturn (removeSyncWaiter id u)
        else match send (syncEvent id) u with
             | Some u => EnterWait id u
             | None => EnterBlocked
             end
    end.

(** The last [select] of [ui.Sync()] and the deferred [removeSyncWaiter]. *)
Definition SyncLeave (id : Z) (u : UI) : option UI :=
  if bool_decide (id ∈ released u) || doneCh u || closeCh u
  then Some (removeSyncWaiter id u)
  else None.

(** [eventLogSink.write]. *)
Definition eventLogWrite (e : Event) (u : UI) : UI :=
  match eventLog u with
  | Some log => setOutput (Some (log ++ [e])) (rendered u) u
  | None => u
  end.

(** [ui.processPlainEvent(e, st, r)]. *)
Definition processPlainEvent (e : Event) (u : UI) : UI :=
  let u := if negb (isSync e) then eventLogWrite e u else u in
  if isSync e then fulfillSync (SyncID e) u
  else setOutput (eventLog u) (rendered u ++ [e]) u.

(** Where the goroutine of [runPlain] is. *)
Inductive Engine := EngineRunning | EngineDraining | EngineDone | EngineNone.

(** Where the caller of [Close] that won the compare-and-swap is. *)
Inductive Closer := CloseNone | CloseFlagged | CloseFlushed | CloseSignalled.

(** Modelled from the spec: the controller's start of the command server is
    not under src/. The Port record is written only after all prior progress
    output is flushed: the controller calls the flush/sync primitive, waits
    for it to return, and then creates the Port record. The number with each
    state counts the output before that call: the events sent and the
    partial line. *)
Inductive Controller :=
| CtlStarting
| CtlSyncing (id : Z) (mark : nat)
| CtlSynced (mark : nat)
| CtlReady (mark : nat).

Record Sys := {
  ui : UI;
  engine : Engine;
  closer : Closer;
  ctl : Controller;
  portFile : bool;          (* the Port record exists *)
  handled : list Event;     (* every event the engine took, in order *)
  syncAt : gmap Z nat       (* of each Sync call that waits, where its sync
                               event is among the events sent *)
}.

(** Every event sent so far: those taken, then those on the channel. *)
Definition sentOf (s : Sys) : list Event := handled s ++ eventsCh (ui s).

Definition setUI (u : UI) (s : Sys) : Sys :=
  {| ui := u; engine := engine s; closer := closer s; ctl := ctl s;
     portFile := portFile s; handled := handled s; syncAt := syncAt s |}.

Definition setEngine (u : UI) (g : Engine) (h : list Event) (s : Sys) : Sys :=
  {| ui := u; engine := g; closer := closer s; ctl := ctl s;
     portFile := portFile s; handled := h; syncAt := syncAt s |}.

Definition setCloser (u : UI) (c : Closer) (s : Sys) : Sys :=
  {| ui := u; engine := engine s; closer := c; ctl := ctl s;
     portFile := portFile s; handled := handled s; syncAt := syncAt s |}.

Definition setCtl (u : UI) (c : Controller) (port : bool) (at' : gmap Z nat) (s : Sys) : Sys :=
  {| ui := u; engine := engine s; closer := closer s; ctl := c;
     portFile := port; handled := handled s; syncAt := at' |}.

(** Where the sync event that [SyncEnter] just sent is: last on the channel. *)
Definition lastSent (h : list Event) (u : UI) : nat :=
  (length h + length (eventsCh u) - 1)%nat.

Inductive Action :=
| AEmit (e : Event)      (* a Group or Task handle, PrintLines: ui.emit(e) *)
| AGroup                 (* ui.Group(title) *)
| AWrite (p : string)    (* ui.Writer().Write(p) *)
| ASync                  (* a caller enters ui.Sync() *)
| ASyncReturn (id : Z)   (* the caller that waits with [id] returns from it *)
| ACloseFlag             (* ui.Close(): the compare-and-swap *)
| ACloseFlush            (*   the flush of the partial line *)
| ACloseSignal           (*   close(ui.closeCh) *)
| AEngineRecv            (* runPlain receives an event and processes it *)
| AEngineClose           (* runPlain receives from closeCh *)
| AEngineExit            (* runPlain finds the channel drained, and returns *)
| ACtlSync               (* the controller enters ui.Sync() *)
| ACtlSyncReturn         (* the controller returns from it *)
| ACtlDumpPort.          (* the controller creates the Port record *)

(** One step of one goroutine; [None] where it cannot move. The handles and
    the writer make no sync event, and a replayed event log holds none, so
    [AEmit] carries none. *)
Definition step (a : Action) (s : Sys) : option Sys :=
  let u := ui s in
  match a with
  | AEmit e => if isSync e then None else u ← emit e u; Some (setUI u s)
  | AGroup => u ← Group u; Some (setUI u s)
  | AWrite p => u ← Write p u; Some (setUI u s)
  | ASync =>
      match SyncEnter u with
      | EnterReturn u => Some (setUI u s)
      | EnterWait id u =>
          Some (setCtl u (ctl s) (portFile s)
                  (<[id := lastSent (handled s) u]> (syncAt s)) s)
      | EnterBlocked => None
      end
  | ASyncReturn id => u ← SyncLeave id u; Some (setUI u s)
  | ACloseFlag =>
      if closed u then Some s
      else Some (setCloser (setClosed true u) CloseFlagged s)
  | ACloseFlush =>
      match closer s with
      | CloseFlagged => u ← flushLine emitForced u; Some (setCloser u CloseFlushed s)
      | _ => None
      end
  | ACloseSignal =>
      match closer s with
      | CloseFlushed => Some (setCloser (setCloseCh u) CloseSignalled s)
      | _ => None
      end
  | AEngineRecv =>
      match engine s, eventsCh u with
      | (EngineRunning | EngineDraining), e :: q =>
          Some (setEngine (processPlainEvent e (setEventsCh q u)) (engine s)
                  (handled s ++ [e]) s)
      | _, _ => None
      end
  | AEngineClose =>
      match engine s with
      | EngineRunning =>
          if closeCh u then Some (setEngine u EngineDraining (handled s) s) else None
      | _ => None
      end
  | AEngineExit =>
      match engine s, eventsCh u with
      | EngineDraining, [] => Some (setEngine (setDone u) EngineDone (handled s) s)
      | _, _ => None
      end
  | ACtlSync =>
      match ctl s with
      | CtlStarting =>
          let mark := (length (sentOf s) + length (pendingLine u))%nat in
          match SyncEnter u with
          | EnterReturn u => Some (setCtl u (CtlSynced mark) (portFile s) (syncAt s) s)
          | EnterWait id u =>
              Some (setCtl u (CtlSyncing id mark) (portFile s)
                      (<[id := lastSent (handled s) u]> (syncAt s)) s)
          | EnterBlocked => None
          end
      | _ => None
      end
  | ACtlSyncReturn =>
      match ctl s with
      | CtlSyncing id mark =>
          u ← SyncLeave id u; Some (setCtl u (CtlSynced mark) (portFile s) (syncAt s) s)
      | _ => None
      end
  | ACtlDumpPort =>
      match ctl s with
      | CtlSynced mark => Some (setCtl u (CtlReady mark) true (syncAt s) s)
      | _ => None
      end
  end.

Fixpoint run (tr : list Action) (s : Sys) : option Sys :=
  match tr with
  | [] => Some s
  | a :: tr => s ← step a s; run tr s
  end.

Record Options := {
  optMode : Mode;          (* Options.Mode *)
  outIsFile : bool;        (* Options.Out is an *os.File *)
  termControl : bool;      (* tuiterm.Resolve(out).Control *)
  withEventLog : bool      (* Options.EventLog is not nil *)
}.

Definition resolveMode (requested : Mode) (control : bool) : Mode :=
  match requested with
  | ModeOff => ModeOff
  | ModePlain => ModePlain
  | ModeTTY => if control then ModeTTY else ModePlain
  | ModeAuto => if control then ModeTTY else ModePlain
  end.

(** The mode that [New] settles on. *)
Definition actualMode (opts : Options) : Mode :=
  match resolveMode (optMode opts) (termControl opts) with
  | ModeTTY => if outIsFile opts then ModeTTY else ModePlain
  | m => m
  end.

(** [New(opts)], with the goroutine it starts. The engine of ModeTTY is a
    bubbletea program, which is not under src/: it makes no step here. *)
Definition New (opts : Options) : Sys :=
  let actual := actualMode opts in
  {| ui := {| mode := actual; closed := false; nextID := 0; syncWaiters := ∅;
              released := ∅; eventsCh := []; closeCh := false;
              doneCh := isOff actual; plainDoneCh := false; buf := "";
              eventLog := if withEventLog opts then Some [] else None;
              rendered := [] |};
     engine := match actual with
               | ModePlain | ModeAuto => EngineRunning
               | ModeTTY | ModeOff => EngineNone
               end;
     closer := CloseNone; ctl := CtlStarting; portFile := false;
     handled := []; syncAt := ∅ |}.

(** The daemon's UI: plain, with an event log. *)
Definition daemonOptions : Options :=
  {| optMode := ModePlain; outIsFile := true; termControl := false; withEventLog := true |}.

(** The state after a run that goes through. *)
Definition after (tr : list Action) (s : Sys) : Sys := default s (run tr s).

(** A start-up banner: a full line and the beginning of the next. *)
Definition banner : list Action := [AWrite ("hello" +:+ newline +:+ "par")].

(** The engine takes three events. *)
Definition drained : list Action := [AEngineRecv; AEngineRecv; AEngineRecv].

(* ===================================================================== *)
(** * The invariant of the progress UI *)
(* ===================================================================== *)

Definition notSync (e : Event) : bool := negb (isSync e).

(** [u'] is [u] with the events [l] sent, and perhaps another id, buffer
    and other waiters; what is closed and what went to the outputs is the
    same. *)
Definition extends (u u' : UI) (l : list Event) : Prop :=
  mode u' = mode u /\ closed u' = closed u /\ closeCh u' = closeCh u
  /\ doneCh u' = doneCh u /\ released u' = released u /\ eventLog u' = eventLog u
  /\ rendered u' = rendered u
  /\ eventsCh u' = eventsCh u ++ l.

Definition allNotSync (l : list Event) : Prop := Forall (fun e => isSync e = false) l.

(** The number of events the controller saw sent before its Sync call. *)
Definition ctlMark (c : Controller) : option nat :=
  match c with
  | CtlStarting => None
  | CtlSyncing _ m | CtlSynced m | CtlReady m => Some m
  end.

(** From [s] to [s']: the events sent are kept and more may follow, the
    place of every sync event is kept, and so is the controller's mark. *)
Definition grows (s s' : Sys) : Prop :=
  (exists l, sentOf s' = sentOf s ++ l)
  /\ (forall id k, syncAt s !! id = Some k -> syncAt s' !! id = Some k)
  /\ (forall m, ctlMark (ctl s) = Some m -> ctlMark (ctl s') = Some m)
  /\ (closed (ui s) = true -> closed (ui s') = true).

(** The output [before] is flushed in [s]: the engine has taken every event
    of it, and has rendered and, with an event log, logged every one that
    is no sync event. *)
Definition flushedOut (before : list Event) (s : Sys) : Prop :=
  forall e, e ∈ before ->
    e ∈ handled s
    /\ (isSync e = false ->
        e ∈ rendered (ui s)
        /\ forall log, eventLog (ui s) = Some log -> e ∈ log).

(** What holds of every state of a plain UI after [n] steps. *)
Record Inv (n : nat) (s : Sys) : Prop := {
  inv_mode : mode (ui s) = ModePlain;
  inv_id : 0 <= nextID (ui s) <= Z.of_nat n;
  inv_at_id : forall id k, syncAt s !! id = Some k -> 0 < id <= nextID (ui s);
  inv_sync_at : forall k e,
      sentOf s !! k = Some e -> isSync e = true -> syncAt s !! SyncID e = Some k;
  inv_released : forall id,
      id ∈ released (ui s) ->
      exists k, syncAt s !! id = Some k /\ (k < length (handled s))%nat;
  inv_log : forall log,
      eventLog (ui s) = Some log -> log = List.filter notSync (handled s);
  inv_rendered : rendered (ui s) = List.filter notSync (handled s);
  inv_closeCh : closeCh (ui s) = true -> closed (ui s) = true;
  inv_doneCh : doneCh (ui s) = true -> closeCh (ui s) = true;
  inv_engine : engine s = EngineDraining \/ engine s = EngineDone -> closeCh (ui s) = true;
  inv_closer : closer s <> CloseNone -> closed (ui s) = true;
  inv_ctl_wait : forall id m,
      ctl s = CtlSyncing id m -> exists k, syncAt s !! id = Some k /\ (m <= k)%nat;
  inv_ctl_done : forall m,
      ctl s = CtlSynced m \/ ctl s = CtlReady m ->
      closed (ui s) = true \/ (m <= length (handled s))%nat;
  inv_port : portFile s = true -> exists m, ctl s = CtlReady m
}.

(* ===================================================================== *)
(** * Waiting, in the words of its description *)
(* ===================================================================== *)

(** The fixed polling interval of [waitPlaygroundStopped]. *)
Definition pollInterval : Z := 200 * Millisecond.

(** The world after [n] polls that each ended in the sleep. *)
Definition afterSleeps (n : nat) (w : World) : World :=
  Nat.iter n (Sleep pollInterval) w.

(** The PID record parses and names a process that runs. *)
Definition live (timeParse : string -> option Z) (dataDir : string) (w : World) : Prop :=
  exists rec,
    readPIDFile timeParse (Join dataDir playgroundPIDFileName) w = (rec, None)
    /\ isPIDRunning (pid rec) w = (true, None).

(** During the first [n] sleeps no other process touches the files. *)
Definition quiet (n : nat) (w : World) : Prop :=
  forall (i : nat) (op : FsOp), (i < n)%nat -> others w !! i = Some op -> op = ExtNone.

(* ===================================================================== *)
(** * The PID record in the words of its description *)
(* ===================================================================== *)

Section PIDRecordSpec.

Variable timeParse : string -> option Z.

(** The values of the field [key] ("pid=", "started_at=", "tag=") among the
    lines, in file order: of every line that starts with the key once
    trimmed, what follows the key, trimmed. *)
Definition fieldValuesOf (key : string) (lines : list string) : list string :=
  List.map (fun l => TrimSpace (TrimPrefix l key))
    (List.filter (fun l => HasPrefix l key) (List.map TrimSpace lines)).

Definition fieldValues (key : string) (data : string) : list string :=
  fieldValuesOf key (SplitLines data).

(** A pid value that is empty or not an integer. *)
Definition badPid (v : string) : bool :=
  String.eqb v "" || match Atoi v with inl _ => false | inr _ => true end.

(** A started_at value that is not RFC 3339. *)
Definition notRFC3339 (v : string) : bool :=
  match timeParse v with Some _ => false | None => true end.

Definition isEmpty (l : list string) : bool :=
  match l with [] => true | _ :: _ => false end.

(** The failure condition as described: pid missing, or some pid value
    unparsable, or some started_at value not RFC 3339. *)
Definition readFailsSpec (data : string) : bool :=
  isEmpty (fieldValues "pid=" data)
  || List.existsb badPid (fieldValues "pid=" data)
  || List.existsb notRFC3339 (fieldValues "started_at=" data).

(** The failure condition of the code: an empty started_at value is passed
    over. *)
Definition readFails (data : string) : bool :=
  isEmpty (fieldValues "pid=" data)
  || List.existsb badPid (fieldValues "pid=" data)
  || List.existsb (fun v => negb (String.eqb v "") && notRFC3339 v)
       (fieldValues "started_at=" data).

Definition atoiValue (v : string) : Z :=
  match Atoi v with inl p => p | inr _ => 0 end.

Definition timeValue (v : string) : Z :=
  match timeParse v with Some t => t | None => 0 end.

(** The record read: of each field the last value counts; started_at is the
    last value that is not empty; a field without value keeps its zero. *)
Definition parsedRecord (data : string) : pidFile :=
  {| pid := List.last (List.map atoiValue (fieldValues "pid=" data)) 0;
     startedAt :=
       List.last (List.map timeValue
                    (List.filter (fun v => negb (String.eqb v ""))
                       (fieldValues "started_at=" data))) 0;
     tag := List.last (fieldValues "tag=" data) "" |}.

End PIDRecordSpec.

(* ===================================================================== *)
(** * The liveness probe in the words of its description *)
(* ===================================================================== *)

(** The reply [{ok:true, message:"pong"}] with status 200. *)
Definition isPong (r : DoResult) : bool :=
  match r with
  | DoResp resp =>
      (StatusCode resp =? StatusOK)
      && match Body resp with
         | inl reply => OK reply && String.eqb (TrimSpace (Message reply)) "pong"
         | inr _ => false
         end
  | DoErr _ _ => false
  end.

(** HTTP 405 with [{ok:false, error:"method not allowed"}]. *)
Definition isMethodNotAllowed (r : DoResult) : bool :=
  match r with
  | DoResp resp =>
      (StatusCode resp =? StatusMethodNotAllowed)
      && match Body resp with
         | inl reply => negb (OK reply) && String.eqb (Error reply) "method not allowed"
         | inr _ => false
         end
  | DoErr _ _ => false
  end.

(** An answer with status 200, whatever its body. *)
Definition answered200 (r : DoResult) : bool :=
  match r with
  | DoResp resp => StatusCode resp =? StatusOK
  | DoErr _ _ => false
  end.

(** A failed request whose context is done. *)
Definition gaveUp (r : DoResult) : bool :=
  match r with
  | DoErr _ ctxDone => ctxDone
  | DoResp _ => false
  end.

(** The probe as described: alive on the pong; the fallback to [/command]
    only when [/ping] is absent (404); nothing else is alive. *)
Definition probeLivenessSpec (ctx : Context) (port : Z) (w : World) : bool :=
  let ping := httpGet w ctx port "/ping" in
  if isPong ping then true
  else match ping with
       | DoResp resp =>
           if StatusCode resp =? StatusNotFound
           then isMethodNotAllowed (httpGet w ctx port "/command")
           else false
       | DoErr _ _ => false
       end.

(* ===================================================================== *)
(** * Sample worlds *)
(* ===================================================================== *)

(** 2026-01-13T20:00:00Z. *)
Definition sampleNow : Z := 63903931200 * Second.

(** A machine on which process 4242 is this process and its own group
    leader, process 1 belongs to another user, process 7 sits in the group
    of process 5, and nothing else runs; port 8080 answers [/ping], port
    8081 only knows [/command], port 8082 answers [/ping] with something
    else, port 8083 hangs, port 8084 fails on [/ping] with a 500 and
    every other port refuses the connection. *)
Definition sampleWorld (files : gmap string File) (now : Z) : World := {|
  fs := files;
  clock := now;
  Getpid := 4242;
  Kill := fun pid sig =>
    if (pid =? 4242) || (pid =? -4242) || (pid =? 7) then None
    else if pid =? 1 then Some EPERM else Some ESRCH;
  Getpgid := fun pid =>
    if pid =? 4242 then inl 4242
    else if pid =? 7 then inl 5
    else if pid =? 1 then inl 1 else inr ESRCH;
  httpGet := fun ctx port path =>
    if port =? 8080 then
      if String.eqb path "/ping"
      then DoResp {| StatusCode := 200; Status := "200 OK";
                     Body := inl {| OK := true; Message := "pong"; Error := "" |} |}
      else DoResp {| StatusCode := 405; Status := "405 Method Not Allowed";
                     Body := inl {| OK := false; Message := "";
                                    Error := "method not allowed" |} |}
    else if port =? 8081 then
      if String.eqb path "/command"
      then DoResp {| StatusCode := 405; Status := "405 Method Not Allowed";
                     Body := inl {| OK := false; Message := "";
                                    Error := "method not allowed" |} |}
      else DoResp {| StatusCode := 404; Status := "404 Not Found";
                     Body := inr (LibErr false "EOF") |}
    else if port =? 8082 then
      DoResp {| StatusCode := 200; Status := "200 OK";
                Body := inl {| OK := true; Message := "hello"; Error := "" |} |}
    else if port =? 8083 then DoErr DeadlineExceeded true
    else if port =? 8084 then
      if String.eqb path "/command"
      then DoResp {| StatusCode := 405; Status := "405 Method Not Allowed";
                     Body := inl {| OK := false; Message := "";
                                    Error := "method not allowed" |} |}
      else DoResp {| StatusCode := 500; Status := "500 Internal Server Error";
                     Body := inr (LibErr false "EOF") |}
    else DoErr (SysErr ECONNREFUSED) false;
  MkdirAll := fun _ => None;
  others := []
|}.

Definition sampleDir : string := "/home/u/.tiup/data/demo".

Definition file (data : string) (mtime : Z) : File :=
  {| content := data; ModTime := mtime |}.

(** No record at all. *)
Definition emptyWorld : World := sampleWorld ∅ sampleNow.

(** Only a Port record, whose port answers /ping with the pong. *)
Definition portAliveWorld : World :=
  sampleWorld {[ Join sampleDir "port" := file "8080" 0 ]} sampleNow.

(** The PID record of a process that is gone, next to a Port record. *)
Definition stalePidWorld : World :=
  sampleWorld {[ Join sampleDir "pid" := file "pid=99" 0;
                 Join sampleDir "port" := file "8080" 0 ]} sampleNow.

(** The PID record of this process, which runs. *)
Definition runningWorld : World :=
  sampleWorld {[ Join sampleDir "pid" := file "pid=4242" 0 ]} sampleNow.

(** Only a Port record, whose port answers /ping with an unexpected body. *)
Definition portOnlyWorld : World :=
  sampleWorld {[ Join sampleDir "port" := file "8082" 0 ]} sampleNow.

(** An empty PID record stamped one second after the clock's reading. *)
Definition futureStampWorld : World :=
  sampleWorld {[ Join sampleDir "pid" := file "" (sampleNow + Second) ]} sampleNow.

(** An empty PID record written half a second ago, next to a Port record. *)
Definition startingWorld : World :=
  sampleWorld {[ Join sampleDir "pid" := file "" (sampleNow - 500 * Millisecond);
                 Join sampleDir "port" := file "8080" 0 ]} sampleNow.

(* ===================================================================== *)
(** * pkg/tuiv2/progress: PrintLines, and the lines of the writer *)
(* ===================================================================== *)

(** [ui.PrintLines(lines)], on a UI made by [New] (not nil, with its
    writer). *)
Definition PrintLines (lines : list string) (u : UI) : option UI :=
  if closed u then Some u
  else
    let '(line, u) := drainBufferedLine u in
    let outLines := ((if String.eqb line "" then [] else [line]) ++ lines)%list in
    match outLines with
    | [] => Some u
    | _ :: _ => emit (printLines outLines) u
    end.

(** No byte of [p] is a newline. *)
Fixpoint noNewline (p : string) : bool :=
  match p with
  | EmptyString => true
  | String c r => negb (isB c 10) && noNewline r
  end.

(** The text of the lines, each followed by a newline. *)
Fixpoint joinLines (ls : list string) : string :=
  match ls with
  | [] => ""
  | l :: ls => l +:+ newline +:+ joinLines ls
  end.

(* ===================================================================== *)
(** * The closing of the progress UI *)
(* ===================================================================== *)

(** What holds of every state of a plain UI about its closing; [log] says
    whether the UI was made with an event log. *)
Record Closing (log : bool) (s : Sys) : Prop := {
  cl_log : eventLog (ui s) = None <-> log = false;
  cl_closed : closed (ui s) = true <-> closer s <> CloseNone;
  cl_signal : closeCh (ui s) = true <-> closer s = CloseSignalled;
  cl_buf : closer s = CloseFlushed \/ closer s = CloseSignalled -> buf (ui s) = "";
  cl_engine : engine s = EngineRunning
              \/ (closeCh (ui s) = true
                  /\ (engine s = EngineDraining \/ engine s = EngineDone));
  cl_done : doneCh (ui s) = true <-> engine s = EngineDone;
  cl_drained : engine s = EngineDone -> eventsCh (ui s) = []
}.

(** What a method called through a handle does to what the closing looks
    at: it closes nothing, and on a closed UI it sends and buffers
    nothing. *)
Definition handleStep (u u' : UI) : Prop :=
  closed u' = closed u /\ closeCh u' = closeCh u /\ doneCh u' = doneCh u
  /\ eventLog u' = eventLog u
  /\ (closed u = true -> eventsCh u' = eventsCh u /\ buf u' = buf u).

(* ===================================================================== *)
(** * pkg/tuiv2/progress/state.go: the engine state *)
(* ===================================================================== *)

(** The state that [processPlainEvent] folds the events into with
    [st.applyEvent(now, e)]. A [*groupState] and a [*taskState] are the id
    under which [groupByID] and [taskByID] hold the object: an object is
    made once, stored under its id and never moved, so the slices of
    pointers are lists of ids and a nil pointer is an id that is not in the
    map. A [float64] is a binary64 [float]; its products and sums are
    rounded one by one, as the amd64 build does. What [time.Now()] reads
    in [applyEvent] is the argument [wall]. *)

(** The payload of an [Event]: the timestamp and the fields of the group
    and task events, which [Event] above leaves out. A nil pointer is
    [None]; a [TaskStatus] and a [TaskKind] are strings. *)
Record Payload := {
  EAt : Z;
  ETitle : option string;
  EShowMeta : option bool;
  EHideDetailsOnSuccess : option bool;
  ESortTasksByTitle : option bool;
  EFinished : option bool;
  EPending : bool;
  EKind : option string;
  EMeta : option string;
  EMessage : option string;
  EHideIfFast : option bool;
  ERevealAfterMs : option Z;
  ECurrent : option Z;
  ETotal : option Z;
  EStatus : option string
}.

Definition TaskStatusPending : string := "pending".
Definition TaskStatusRunning : string := "running".
Definition TaskStatusRetrying : string := "retrying".
Definition TaskStatusDone : string := "done".
Definition TaskStatusError : string := "error".
Definition TaskStatusSkipped : string := "skipped".
Definition TaskStatusCanceled : string := "canceled".

Definition TaskKindGeneric : string := "generic".
Definition TaskKindDownload : string := "download".

Inductive taskStatus :=
| taskStatusPending | taskStatusRunning | taskStatusRetrying | taskStatusDone
| taskStatusError | taskStatusSkipped | taskStatusCanceled.

Inductive taskKind := taskKindGeneric | taskKindDownload.

Record groupState := {
  gID : Z;
  gTitle : string;
  gStartedAt : Z;
  gClosedAt : Z;
  gClosed : bool;
  gSealed : bool;
  gTasks : list Z;                 (* g.tasks, by task id *)
  gShowMeta : bool;
  gHideDetailsOnSuccess : bool;
  gSortTasksByTitle : bool
}.

Record taskState := {
  tID : Z;
  tG : Z;                          (* t.g, by group id *)
  tTitle : string;
  tKind : taskKind;
  tStatus : taskStatus;
  tHideIfFast : bool;
  tRevealAfter : Z;
  tMeta : string;
  tMessage : string;
  tCurrent : Z;
  tTotal : Z;
  tStartAt : Z;
  tEndAt : Z;
  tSpeedBps : float;
  tLastSpeedAt : Z;
  tLastSpeedBytes : Z;
  tPlainStartPrinted : bool;
  tDownloadStartPrinted : bool
}.

Record engineState := {
  groups : list Z;                 (* s.groups, by group id *)
  groupByID : gmap Z groupState;
  taskByID : gmap Z taskState
}.

Definition newEngineState : engineState :=
  {| groups := []; groupByID := ∅; taskByID := ∅ |}.

(** Assignments to the fields of a group. *)
Definition setGroupOptions (title : string) (showMeta hide sort : bool) (g : groupState)
  : groupState :=
  {| gID := gID g; gTitle := title; gStartedAt := gStartedAt g; gClosedAt := gClosedAt g;
     gClosed := gClosed g; gSealed := gSealed g; gTasks := gTasks g;
     gShowMeta := showMeta; gHideDetailsOnSuccess := hide; gSortTasksByTitle := sort |}.

Definition setGroupSealed (g : groupState) : groupState :=
  {| gID := gID g; gTitle := gTitle g; gStartedAt := gStartedAt g; gClosedAt := gClosedAt g;
     gClosed := gClosed g; gSealed := true; gTasks := gTasks g;
     gShowMeta := gShowMeta g; gHideDetailsOnSuccess := gHideDetailsOnSuccess g;
     gSortTasksByTitle := gSortTasksByTitle g |}.

Definition setGroupClosed (now : Z) (g : groupState) : groupState :=
  {| gID := gID g; gTitle := gTitle g; gStartedAt := gStartedAt g; gClosedAt := now;
     gClosed := true; gSealed := gSealed g; gTasks := gTasks g;
     gShowMeta := gShowMeta g; gHideDetailsOnSuccess := gHideDetailsOnSuccess g;
     gSortTasksByTitle := gSortTasksByTitle g |}.

Definition setGroupStarted (startedAt : Z) (tasks : list Z) (g : groupState) : groupState :=
  {| gID := gID g; gTitle := gTitle g; gStartedAt := startedAt; gClosedAt := gClosedAt g;
     gClosed := gClosed g; gSealed := gSealed g; gTasks := tasks;
     gShowMeta := gShowMeta g; gHideDetailsOnSuccess := gHideDetailsOnSuccess g;
     gSortTasksByTitle := gSortTasksByTitle g |}.

(** Assignments to the fields of a task. *)
Definition setTaskUpdate (kind : taskKind) (meta message : string) (hide : bool)
    (reveal : Z) (t : taskState) : taskState :=
  {| tID := tID t; tG := tG t; tTitle := tTitle t; tKind := kind; tStatus := tStatus t;
     tHideIfFast := hide; tRevealAfter := reveal; tMeta := meta; tMessage := message;
     tCurrent := tCurrent t; tTotal := tTotal t; tStartAt := tStartAt t;
     tEndAt := tEndAt t; tSpeedBps := tSpeedBps t; tLastSpeedAt := tLastSpeedAt t;
     tLastSpeedBytes := tLastSpeedBytes t; tPlainStartPrinted := tPlainStartPrinted t;
     tDownloadStartPrinted := tDownloadStartPrinted t |}.

Definition setTaskProgress (current total : Z) (t : taskState) : taskState :=
  {| tID := tID t; tG := tG t; tTitle := tTitle t; tKind := tKind t; tStatus := tStatus t;
     tHideIfFast := tHideIfFast t; tRevealAfter := tRevealAfter t; tMeta := tMeta t;
     tMessage := tMessage t; tCurrent := current; tTotal := total;
     tStartAt := tStartAt t; tEndAt := tEndAt t; tSpeedBps := tSpeedBps t;
     tLastSpeedAt := tLastSpeedAt t; tLastSpeedBytes := tLastSpeedBytes t;
     tPlainStartPrinted := tPlainStartPrinted t;
     tDownloadStartPrinted := tDownloadStartPrinted t |}.

Definition setTaskSpeed (bps : float) (lastAt lastBytes : Z) (t : taskState) : taskState :=
  {| tID := tID t; tG := tG t; tTitle := tTitle t; tKind := tKind t; tStatus := tStatus t;
     tHideIfFast := tHideIfFast t; tRevealAfter := tRevealAfter t; tMeta := tMeta t;
     tMessage := tMessage t; tCurrent := tCurrent t; tTotal := tTotal t;
     tStartAt := tStartAt t; tEndAt := tEndAt t; tSpeedBps := bps;
     tLastSpeedAt := lastAt; tLastSpeedBytes := lastBytes;
     tPlainStartPrinted := tPlainStartPrinted t;
     tDownloadStartPrinted := tDownloadStartPrinted t |}.

Definition setTaskState (status : taskStatus) (message : string) (startAt endAt : Z)
    (t : taskState) : taskState :=
  {| tID := tID t; tG := tG t; tTitle := tTitle t; tKind := tKind t; tStatus := status;
     tHideIfFast := tHideIfFast t; tRevealAfter := tRevealAfter t; tMeta := tMeta t;
     tMessage := message; tCurrent := tCurrent t; tTotal := tTotal t;
     tStartAt := startAt; tEndAt := endAt; tSpeedBps := tSpeedBps t;
     tLastSpeedAt := tLastSpeedAt t; tLastSpeedBytes := tLastSpeedBytes t;
     tPlainStartPrinted := tPlainStartPrinted t;
     tDownloadStartPrinted := tDownloadStartPrinted t |}.

Definition setGroups (gs : list Z) (m : gmap Z groupState) (s : engineState) : engineState :=
  {| groups := gs; groupByID := m; taskByID := taskByID s |}.

Definition setTasks (gm : gmap Z groupState) (tm : gmap Z taskState) (s : engineState)
  : engineState :=
  {| groups := groups s; groupByID := gm; taskByID := tm |}.

(** [t.status == taskStatusRunning || t.status == taskStatusRetrying]. *)
Definition isActive (st : taskStatus) : bool :=
  match st with taskStatusRunning | taskStatusRetrying => true | _ => false end.

(** [t.status] is done, error, skipped or canceled. *)
Definition isFinished (st : taskStatus) : bool :=
  match st with
  | taskStatusDone | taskStatusError | taskStatusSkipped | taskStatusCanceled => true
  | _ => false
  end.

(** The tasks behind [g.tasks]; a nil entry is passed over. *)
Definition tasksOf (s : engineState) (g : groupState) : list taskState :=
  omap (fun id => taskByID s !! id) (gTasks g).

Definition canAutoSeal (s : engineState) (g : groupState) : bool :=
  if gSealed g || negb (gClosed g) || Nat.eqb (length (gTasks g)) 0 then false
  else forallb (fun t => negb (isActive (tStatus t))) (tasksOf s g).

(** The latest [endAt] of the tasks, as the loop of [elapsed] finds it. *)
Definition lastEndOf (ts : list taskState) : Z :=
  fold_left (fun lastEnd t =>
               if negb (tEndAt t =? 0) && (lastEnd <? tEndAt t) then tEndAt t else lastEnd)
            ts 0.

Definition elapsed (wall : Z) (s : engineState) (g : groupState) (now : Z) : Z :=
  if gStartedAt g =? 0 then 0
  else
    let now := if now =? 0 then wall else now in
    let hasRunning := existsb (fun t => isActive (tStatus t)) (tasksOf s g) in
    let lastEnd := lastEndOf (tasksOf s g) in
    if hasRunning then Sub now (gStartedAt g)
    else
      let end' := if gClosed g && negb (gClosedAt g =? 0) && (lastEnd <? gClosedAt g)
                  then gClosedAt g else lastEnd in
      if negb (end' =? 0) then Sub end' (gStartedAt g) else Sub now (gStartedAt g).

Definition hasRunning (s : engineState) : bool :=
  existsb (fun id =>
             match groupByID s !! id with
             | Some g =>
                 if gSealed g then false
                 else existsb (fun t => isActive (tStatus t)) (tasksOf s g)
             | None => false
             end) (groups s).

Definition applyGroupAdd (now : Z) (e : Event) (p : Payload) (s : engineState)
  : engineState :=
  let id := GroupID e in
  if id =? 0 then s
  else match groupByID s !! id with
       | Some _ => s               (* Idempotent best-effort. *)
       | None =>
           let g := {| gID := id; gTitle := default "" (ETitle p); gStartedAt := now;
                       gClosedAt := 0; gClosed := false; gSealed := false; gTasks := [];
                       gShowMeta := true; gHideDetailsOnSuccess := false;
                       gSortTasksByTitle := false |} in
           setGroups (groups s ++ [id]) (<[id := g]> (groupByID s)) s
       end.

Definition applyGroupUpdate (e : Event) (p : Payload) (s : engineState) : engineState :=
  match groupByID s !! GroupID e with
  | None => s
  | Some g =>
      if gSealed g then s
      else
        let g := setGroupOptions (default (gTitle g) (ETitle p))
                   (default (gShowMeta g) (EShowMeta p))
                   (default (gHideDetailsOnSuccess g) (EHideDetailsOnSuccess p))
                   (default (gSortTasksByTitle g) (ESortTasksByTitle p)) g in
        setGroups (groups s) (<[GroupID e := g]> (groupByID s)) s
  end.

Definition applyGroupClose (now : Z) (e : Event) (p : Payload) (s : engineState)
  : engineState :=
  match groupByID s !! GroupID e with
  | None => s
  | Some g =>
      if gSealed g then s
      else
        let finished := default true (EFinished p) in
        if negb finished
        then setGroups (groups s) (<[GroupID e := setGroupSealed g]> (groupByID s)) s
        else if gClosed g then s
        else setGroups (groups s) (<[GroupID e := setGroupClosed now g]> (groupByID s)) s
  end.

Definition applyTaskAdd (now : Z) (e : Event) (p : Payload) (s : engineState)
  : engineState :=
  match groupByID s !! GroupID e with
  | None => s
  | Some g =>
      if gSealed g then s
      else
        let id := TaskID e in
        if id =? 0 then s
        else match taskByID s !! id with
             | Some _ => s
             | None =>
                 let t := {| tID := id; tG := GroupID e; tTitle := default "" (ETitle p);
                             tKind := taskKindGeneric;
                             tStatus := if EPending p then taskStatusPending
                                        else taskStatusRunning;
                             tHideIfFast := false; tRevealAfter := 0; tMeta := "";
                             tMessage := ""; tCurrent := 0; tTotal := 0;
                             tStartAt := if EPending p then 0 else now; tEndAt := 0;
                             tSpeedBps := 0%float; tLastSpeedAt := 0;
                             tLastSpeedBytes := 0; tPlainStartPrinted := false;
                             tDownloadStartPrinted := false |} in
                 let g := setGroupStarted
                            (if gStartedAt g =? 0 then now else gStartedAt g)
                            (gTasks g ++ [id]) g in
                 setTasks (<[GroupID e := g]> (groupByID s)) (<[id := t]> (taskByID s)) s
             end
  end.

(** The task of a task event and its group, unless the task or the group is
    nil or the group is sealed. *)
Definition liveTask (id : Z) (s : engineState) : option (taskState * groupState) :=
  match taskByID s !! id with
  | None => None
  | Some t =>
      match groupByID s !! tG t with
      | None => None
      | Some g => if gSealed g then None else Some (t, g)
      end
  end.

(** A signed 64-bit integer, wrapped around. *)
Definition wrap64 (z : Z) : Z := (z + 2 ^ 63) mod 2 ^ 64 - 2 ^ 63.

Definition applyTaskUpdate (e : Event) (p : Payload) (s : engineState) : engineState :=
  match liveTask (TaskID e) s with
  | None => s
  | Some (t, _) =>
      let kind := match EKind p with
                  | Some k => if String.eqb k TaskKindDownload then taskKindDownload
                              else taskKindGeneric
                  | None => tKind t
                  end in
      let reveal := match ERevealAfterMs p with
                    | Some ms =>
                        let d := wrap64 (ms * Millisecond) in
                        if d <? 0 then 0 else d
                    | None => tRevealAfter t
                    end in
      let t := setTaskUpdate kind (default (tMeta t) (EMeta p))
                 (default (tMessage t) (EMessage p))
                 (default (tHideIfFast t) (EHideIfFast p)) reveal t in
      setTasks (groupByID s) (<[TaskID e := t]> (taskByID s)) s
  end.

(** [float64(n)] for an int64 [n]. *)
Definition float64 (n : Z) : float :=
  if n <? 0
  then (if n =? - 2 ^ 63 then PrimFloat.opp 0x1p63%float
        else PrimFloat.opp (PrimFloat.of_uint63 (Uint63.of_Z (- n))))
  else PrimFloat.of_uint63 (Uint63.of_Z n).

(** [d.Seconds()]. *)
Definition Seconds (d : Z) : float :=
  PrimFloat.add (float64 (Z.quot d Second))
    (PrimFloat.div (float64 (Z.rem d Second)) 1e9%float).

(** The constants [alpha] and [1-alpha] of [applyTaskProgress], 0.2 and 0.8
    as binary64. *)
Definition alpha : float := 0x1.999999999999ap-3%float.
Definition oneMinusAlpha : float := 0x1.999999999999ap-1%float.

Definition minWindow : Z := Second.

Definition applyTaskProgress (now : Z) (e : Event) (p : Payload) (s : engineState)
  : engineState :=
  match liveTask (TaskID e) s with
  | None => s
  | Some (t, _) =>
      let open := match tStatus t with
                  | taskStatusPending | taskStatusRunning | taskStatusRetrying => true
                  | _ => false
                  end in
      let total := match ETotal p with
                   | Some total => if open then (if total <? 0 then 0 else total)
                                   else tTotal t
                   | None => tTotal t
                   end in
      let current := match ECurrent p with
                     | Some cur => if open then (if cur <? 0 then 0 else cur)
                                   else tCurrent t
                     | None => tCurrent t
                     end in
      let t := setTaskProgress current total t in
      let t :=
        match tStatus t, tKind t with
        | taskStatusRunning, taskKindDownload =>
            if (tLastSpeedAt t =? 0) || negb (tLastSpeedAt t <? now)
            then setTaskSpeed (tSpeedBps t) now (tCurrent t) t
            else
              let dt := Sub now (tLastSpeedAt t) in
              let delta := wrap64 (tCurrent t - tLastSpeedBytes t) in
              if delta <? 0 then setTaskSpeed (tSpeedBps t) now (tCurrent t) t
              else if (minWindow <=? dt) && (0 <? delta) then
                let inst := PrimFloat.div (float64 delta) (Seconds dt) in
                let bps := if PrimFloat.eqb (tSpeedBps t) 0%float then inst
                           else PrimFloat.add (PrimFloat.mul alpha inst)
                                  (PrimFloat.mul oneMinusAlpha (tSpeedBps t)) in
                setTaskSpeed bps now (tCurrent t) t
              else t
        | _, _ => t
        end in
      setTasks (groupByID s) (<[TaskID e := t]> (taskByID s)) s
  end.

(** The status that [applyTaskState] moves to from [cur] on the event status
    [status], and whether it sets [endAt] and calls [ensureStarted]; [None]
    where it returns without a change. *)
Definition taskTransition (cur : taskStatus) (status : string)
  : option (taskStatus * bool * bool) :=
  let finished := isFinished cur in
  if match cur with taskStatusError => String.eqb status TaskStatusError | _ => false end
  then None
  else if String.eqb status TaskStatusPending then Some (taskStatusPending, false, false)
  else if String.eqb status TaskStatusRunning then
    if finished then None else Some (taskStatusRunning, false, true)
  else if String.eqb status TaskStatusRetrying then
    if finished then None else Some (taskStatusRetrying, false, true)
  else if String.eqb status TaskStatusDone then
    if isActive cur then Some (taskStatusDone, true, false) else None
  else if String.eqb status TaskStatusError then
    match cur with
    | taskStatusDone | taskStatusSkipped | taskStatusCanceled => None
    | _ => Some (taskStatusError, true, true)
    end
  else if String.eqb status TaskStatusSkipped then
    if finished then None else Some (taskStatusSkipped, true, true)
  else if String.eqb status TaskStatusCanceled then
    if finished then None else Some (taskStatusCanceled, true, true)
  else None.

Definition applyTaskState (now : Z) (e : Event) (p : Payload) (s : engineState)
  : engineState :=
  match liveTask (TaskID e) s with
  | None => s
  | Some (t, g) =>
      match EStatus p with
      | None => s
      | Some status =>
          match taskTransition (tStatus t) status with
          | None => s
          | Some (st, ends, starts) =>
              (* t.ensureStarted(now) *)
              let startAt := if starts && (tStartAt t =? 0) then now else tStartAt t in
              let g := if starts && (gStartedAt g =? 0)
                       then setGroupStarted now (gTasks g) g else g in
              let t := setTaskState st (default (tMessage t) (EMessage p)) startAt
                         (if ends then now else tEndAt t) t in
              let t :=
                if negb (isFinished (tStatus t)) then t
                else if match tKind t with taskKindDownload => false | _ => true end
                        || PrimFloat.ltb 0%float (tSpeedBps t)
                        || (tStartAt t =? 0) || negb (tStartAt t <? now)
                then t
                else
                  let elapsed := Seconds (Sub now (tStartAt t)) in
                  if PrimFloat.leb elapsed 0%float then t
                  else
                    let size := if tTotal t <=? 0 then tCurrent t else tTotal t in
                    if size <=? 0 then t
                    else setTaskSpeed (PrimFloat.div (float64 size) elapsed)
                           (tLastSpeedAt t) (tLastSpeedBytes t) t in
              setTasks (<[tG t := g]> (groupByID s)) (<[TaskID e := t]> (taskByID s)) s
          end
      end
  end.

Definition applyEvent (wall : Z) (now : Z) (e : Event) (p : Payload) (s : engineState)
  : engineState :=
  let now := if now =? 0 then wall else now in
  match EType e with
  | EventGroupAdd => applyGroupAdd now e p s
  | EventGroupUpdate => applyGroupUpdate e p s
  | EventGroupClose => applyGroupClose now e p s
  | EventTaskAdd => applyTaskAdd now e p s
  | EventTaskUpdate => applyTaskUpdate e p s
  | EventTaskProgress => applyTaskProgress now e p s
  | EventTaskState => applyTaskState now e p s
  | _ => s
  end.

(** What the clocks read while the engine handles one event: [ui.now()],
    which [processPlainEvent] asks when the event carries no time, and
    [time.Now()], which [applyEvent] asks when the time it is given is
    zero. *)
Record Clocks := { uiNow : Z; timeNow : Z }.

(** The time [processPlainEvent] gives an event: its own [At], or the
    reading of [ui.now()] when that is zero. *)
Definition eventTime (c : Clocks) (p : Payload) : Z :=
  if EAt p =? 0 then uiNow c else EAt p.

(** The state after the events that the engine took off the channel, each
    with what the clocks read then. *)
Definition applyEvents (es : list (Clocks * (Event * Payload))) (s : engineState)
  : engineState :=
  fold_left (fun s k => applyEvent (timeNow k.1) (eventTime k.1 k.2.2) k.2.1 k.2.2 s)
            es s.

(* ===================================================================== *)
(** * pkg/tuiv2/progress: the Group and Task handles *)
(* ===================================================================== *)

(** A method of a handle returns at once when the handle has no UI or the
    UI is closed; otherwise it emits one event, stamped with [ui.now()].
    Here is that event, for a handle of the group [gid] or the task [tid]
    at the time [now]. *)

Definition event (ty : EventType) (gid tid : Z) : Event :=
  {| EType := ty; GroupID := gid; TaskID := tid; Lines := []; SyncID := 0 |}.

(** The payload with nothing set but the time. *)
Definition payload (now : Z) : Payload :=
  {| EAt := now; ETitle := None; EShowMeta := None; EHideDetailsOnSuccess := None;
     ESortTasksByTitle := None; EFinished := None; EPending := false; EKind := None;
     EMeta := None; EMessage := None; EHideIfFast := None; ERevealAfterMs := None;
     ECurrent := None; ETotal := None; EStatus := None |}.

Definition groupPayload (now : Z) (title : option string)
    (showMeta hide sort finished : option bool) : Payload :=
  {| EAt := now; ETitle := title; EShowMeta := showMeta; EHideDetailsOnSuccess := hide;
     ESortTasksByTitle := sort; EFinished := finished; EPending := false; EKind := None;
     EMeta := None; EMessage := None; EHideIfFast := None; ERevealAfterMs := None;
     ECurrent := None; ETotal := None; EStatus := None |}.

Definition taskAddPayload (now : Z) (title : string) (pending : bool) : Payload :=
  {| EAt := now; ETitle := Some title; EShowMeta := None; EHideDetailsOnSuccess := None;
     ESortTasksByTitle := None; EFinished := None; EPending := pending; EKind := None;
     EMeta := None; EMessage := None; EHideIfFast := None; ERevealAfterMs := None;
     ECurrent := None; ETotal := None; EStatus := None |}.

Definition taskPayload (now : Z) (kind meta message : option string)
    (hideIfFast : option bool) (revealAfterMs current total : option Z)
    (status : option string) : Payload :=
  {| EAt := now; ETitle := None; EShowMeta := None; EHideDetailsOnSuccess := None;
     ESortTasksByTitle := None; EFinished := None; EPending := false; EKind := kind;
     EMeta := meta; EMessage := message; EHideIfFast := hideIfFast;
     ERevealAfterMs := revealAfterMs; ECurrent := current; ETotal := total;
     EStatus := status |}.

Module GroupHandle.

(** The methods of [*Group]; [Task] and [TaskPending] come with the id that
    [newTask] took from [ui.nextID]. *)
Inductive Method :=
| SetTitle (title : string)
| SetShowMeta (show : bool)
| SetHideDetailsOnSuccess (hide : bool)
| SetSortTasksByTitle (sort : bool)
| Task (tid : Z) (title : string)
| TaskPending (tid : Z) (title : string)
| Close
| Seal.

Definition emits (gid now : Z) (m : Method) : Event * Payload :=
  match m with
  | SetTitle title =>
      (event EventGroupUpdate gid 0, groupPayload now (Some title) None None None None)
  | SetShowMeta show =>
      (event EventGroupUpdate gid 0, groupPayload now None (Some show) None None None)
  | SetHideDetailsOnSuccess hide =>
      (event EventGroupUpdate gid 0, groupPayload now None None (Some hide) None None)
  | SetSortTasksByTitle sort =>
      (event EventGroupUpdate gid 0, groupPayload now None None None (Some sort) None)
  | Task tid title => (event EventTaskAdd gid tid, taskAddPayload now title false)
  | TaskPending tid title => (event EventTaskAdd gid tid, taskAddPayload now title true)
  | Close => (event EventGroupClose gid 0, groupPayload now None None None None None)
  | Seal =>
      (event EventGroupClose gid 0, groupPayload now None None None None (Some false))
  end.

End GroupHandle.

Module TaskHandle.

(** The methods of [*Task]. *)
Inductive Method :=
| SetHideIfFast (revealAfter : Z)
| SetKindDownload
| Start
| SetMessage (msg : string)
| Retrying (msg : string)
| SetMeta (meta : string)
| SetTotal (total : Z)
| SetCurrent (current : Z)
| Done
| Error (msg : string)
| Skip (reason : string)
| Cancel (reason : string).

Definition emits (tid now : Z) (m : Method) : Event * Payload :=
  match m with
  | SetHideIfFast revealAfter =>
      let revealAfter := if revealAfter <? 0 then 0 else revealAfter in
      let ms := Z.quot revealAfter Millisecond in
      (event EventTaskUpdate 0 tid,
       taskPayload now None None None (Some true) (Some ms) None None None)
  | SetKindDownload =>
      (event EventTaskUpdate 0 tid,
       taskPayload now (Some TaskKindDownload) None None None None None None None)
  | Start =>
      (event EventTaskState 0 tid,
       taskPayload now None None None None None None None (Some TaskStatusRunning))
  | SetMessage msg =>
      (event EventTaskUpdate 0 tid,
       taskPayload now None None (Some msg) None None None None None)
  | Retrying msg =>
      (event EventTaskState 0 tid,
       taskPayload now None None (Some msg) None None None None (Some TaskStatusRetrying))
  | SetMeta meta =>
      (event EventTaskUpdate 0 tid,
       taskPayload now None (Some meta) None None None None None None)
  | SetTotal total =>
      (event EventTaskProgress 0 tid,
       taskPayload now None None None None None None (Some total) None)
  | SetCurrent current =>
      (event EventTaskProgress 0 tid,
       taskPayload now None None None None None (Some current) None None)
  | Done =>
      (event EventTaskState 0 tid,
       taskPayload now None None None None None None None (Some TaskStatusDone))
  | Error msg =>
      (event EventTaskState 0 tid,
       taskPayload now None None (Some msg) None None None None (Some TaskStatusError))
  | Skip reason =>
      (event EventTaskState 0 tid,
       taskPayload now None None (Some reason) None None None None
         (Some TaskStatusSkipped))
  | Cancel reason =>
      (event EventTaskState 0 tid,
       taskPayload now None None (Some reason) None None None None
         (Some TaskStatusCanceled))
  end.

End TaskHandle.

(** What a program does through its handles: a new group through the UI,
    or a method of a group or a task handle. *)
Inductive Call :=
| CallGroup (gid : Z) (title : string)         (* ui.Group(title) *)
| CallOnGroup (gid : Z) (m : GroupHandle.Method)
| CallOnTask (tid : Z) (m : TaskHandle.Method).

Definition callEmits (now : Z) (c : Call) : Event * Payload :=
  match c with
  | CallGroup gid title =>
      (event EventGroupAdd gid 0, groupPayload now (Some title) None None None None)
  | CallOnGroup gid m => GroupHandle.emits gid now m
  | CallOnTask tid m => TaskHandle.emits tid now m
  end.

(** The events the engine takes for the calls of a program: each call comes
    with the time [ui.now()] read when it was made and with what the clocks
    read when the engine takes its event. *)
Definition eventsOf (calls : list (Clocks * (Z * Call)))
  : list (Clocks * (Event * Payload)) :=
  List.map (fun c => (c.1, callEmits c.2.1 c.2.2)) calls.

(* ===================================================================== *)
(** * The invariants of the engine state *)
(* ===================================================================== *)

(** What an event does to the two maps: it leaves them, or it adds a group
    under a new id, or it replaces a group that is not sealed, or it adds a
    task under a new id to such a group, or it replaces a task of such a
    group and perhaps the group. *)
Inductive Change (s s' : engineState) : Prop :=
| ChangeNone : s' = s -> Change s s'
| ChangeGroupAdd (id : Z) (g : groupState) :
    groupByID s !! id = None ->
    id <> 0 -> gID g = id -> gTasks g = [] ->
    s' = setGroups (groups s ++ [id]) (<[id := g]> (groupByID s)) s ->
    Change s s'
| ChangeGroup (id : Z) (g g' : groupState) :
    groupByID s !! id = Some g -> gSealed g = false ->
    gID g' = gID g -> gTasks g' = gTasks g ->
    s' = setGroups (groups s) (<[id := g']> (groupByID s)) s ->
    Change s s'
| ChangeTaskAdd (gid id : Z) (g g' : groupState) (t : taskState) :
    groupByID s !! gid = Some g -> gSealed g = false -> taskByID s !! id = None ->
    id <> 0 -> tID t = id -> tG t = gid ->
    gID g' = gID g -> gTasks g' = gTasks g ++ [id] ->
    s' = setTasks (<[gid := g']> (groupByID s)) (<[id := t]> (taskByID s)) s ->
    Change s s'
| ChangeTask (id : Z) (t t' : taskState) (g g' : groupState) :
    taskByID s !! id = Some t -> groupByID s !! tG t = Some g -> gSealed g = false ->
    tID t' = tID t -> tG t' = tG t -> gID g' = gID g -> gTasks g' = gTasks g ->
    s' = setTasks (<[tG t := g']> (groupByID s)) (<[id := t']> (taskByID s)) s ->
    Change s s'.

(** The fields of a task that only its progress and its state set. *)
Definition sameRun (t t' : taskState) : Prop :=
  tID t' = tID t /\ tG t' = tG t /\ tStatus t' = tStatus t
  /\ tStartAt t' = tStartAt t /\ tEndAt t' = tEndAt t
  /\ tCurrent t' = tCurrent t /\ tTotal t' = tTotal t /\ tSpeedBps t' = tSpeedBps t.

(** The store is well formed: [groups] lists the groups of [groupByID], each
    once; every object sits under its own id, which is not 0; every task
    is listed by its group, once, and by no other; and every task that a
    group lists exists. *)
Record wfState (s : engineState) : Prop := {
  wf_groups_nodup : NoDup (groups s);
  wf_groups : forall id, id ∈ groups s <-> is_Some (groupByID s !! id);
  wf_group_id : forall id g, groupByID s !! id = Some g -> gID g = id /\ id <> 0;
  wf_group_nodup : forall id g, groupByID s !! id = Some g -> NoDup (gTasks g);
  wf_task_id : forall id t, taskByID s !! id = Some t -> tID t = id /\ id <> 0;
  wf_task_group : forall id t,
      taskByID s !! id = Some t ->
      exists g, groupByID s !! tG t = Some g /\ id ∈ gTasks g;
  wf_group_task : forall gid g id,
      groupByID s !! gid = Some g -> id ∈ gTasks g ->
      exists t, taskByID s !! id = Some t /\ tG t = gid
}.

(** The numbers of every task are in range: progress and total are not
    negative, and the reveal delay is a duration that is not negative. *)
Definition ranges (s : engineState) : Prop :=
  forall id t, taskByID s !! id = Some t ->
    0 <= tCurrent t /\ 0 <= tTotal t /\ 0 <= tRevealAfter t <= maxDuration.

(** The times of every object are set when they are due: a group has its
    start time, and its closing time once it is closed; a task that has
    left "pending" has its start time, and a finished task its end time. *)
Definition timed (s : engineState) : Prop :=
  (forall id g, groupByID s !! id = Some g ->
     gStartedAt g <> 0 /\ (gClosed g = true -> gClosedAt g <> 0))
  /\ (forall id t, taskByID s !! id = Some t ->
        (tStatus t <> taskStatusPending -> tStartAt t <> 0)
        /\ (isFinished (tStatus t) = true -> tEndAt t <> 0)).

(* ===================================================================== *)
(** * More sample worlds and states *)
(* ===================================================================== *)

(** An empty PID record written a minute ago, next to the Port record of a
    port that answers. *)
Definition staleInvalidWorld : World :=
  sampleWorld {[ Join sampleDir "pid" := file "" (sampleNow - 60 * Second);
                 Join sampleDir "port" := file "8080" 0 ]} sampleNow.

(** The world once this process has claimed the sample directory under the
    tag "demo". *)
Definition claimedWorld : World :=
  sampleWorld {[ Join sampleDir "pid"
                 := file (pidFileBody rfc3339Format 4242 sampleNow "demo") sampleNow ]}
    sampleNow.


(** A call made at the time [now], whose event the engine takes a
    nanosecond later. *)
Definition called (now : Z) (c : Call) : Clocks * (Z * Call) :=
  ({| uiNow := now + 1; timeNow := now + 1 |}, (now, c)).

(** What a program did through its handles: a group with two tasks, of
    which the first is done and the second, added as pending, has failed. *)
Definition sampleCalls : list (Clocks * (Z * Call)) :=
  [called 10 (CallGroup 1 "Start instances");
   called 20 (CallOnGroup 1 (GroupHandle.Task 2 "pd"));
   called 30 (CallOnGroup 1 (GroupHandle.TaskPending 3 "tidb"));
   called 40 (CallOnTask 2 TaskHandle.Done);
   called 50 (CallOnTask 3 (TaskHandle.Error "exit status 1"))].

Definition sampleState : engineState :=
  applyEvents (eventsOf sampleCalls) newEngineState.

(** The same with the group sealed. *)
Definition sealedState : engineState :=
  applyEvents (eventsOf [called 60 (CallOnGroup 1 GroupHandle.Seal)]) sampleState.

(** What the program tries after that. *)
Definition lateCalls : list (Clocks * (Z * Call)) :=
  [called 70 (CallOnTask 2 TaskHandle.Start);
   called 80 (CallOnTask 3 TaskHandle.Done);
   called 90 (CallOnGroup 1 (GroupHandle.SetTitle "again"));
   called 95 (CallOnTask 2 (TaskHandle.SetCurrent 7))].

(* ===================================================================== *)
(** * Properties *)
(* ===================================================================== *)

Example ex_TrimSpace : TrimSpace "  pid=12 	" = "pid=12".
Proof. reflexivity. Qed.
Example ex_Split : SplitLines "a
b
" = ["a"; "b"; ""].
Proof. reflexivity. Qed.
Example ex_Atoi : Atoi "-0042" = inl (-42) /\ Atoi "+7" = inl 7 /\ Atoi "-" = inr ErrSyntax
  /\ Atoi "1x" = inr ErrSyntax /\ Atoi "9223372036854775808" = inr ErrRange
  /\ Atoi "-9223372036854775808" = inl minInt.
Proof. vm_compute. repeat split. Qed.
Example ex_Itoa : Itoa (-120) = "-120" /\ Itoa 0 = "0".
Proof. vm_compute. split; reflexivity. Qed.
Example ex_Quote : String.length (Quote "demo") = 6%nat /\ Contains (Quote "de\mo") "\\" = true.
Proof. vm_compute. split; reflexivity. Qed.
Example ex_TrimPrefix : TrimPrefix "pid= 12" "pid=" = " 12" /\ TrimPrefix "tag" "pid=" = "tag".
Proof. vm_compute. split; reflexivity. Qed.

Example ex_rfc3339 :
  rfc3339Parse "2026-01-13T20:00:00Z" = Some 63903931200000000000
  /\ rfc3339Format 63903931200000000000 = "2026-01-13T20:00:00Z"
  /\ rfc3339Parse "0001-01-01T00:00:00Z" = Some 0
  /\ rfc3339Parse "2026-01-13T21:00:00.5+01:00" = Some 63903931200500000000
  /\ rfc3339Parse "" = None /\ rfc3339Parse "2026-02-30T00:00:00Z" = None.
Proof. vm_compute. repeat split. Qed.

(* --------------------------------------------------------------------- *)
(** ** Signalling: kill_unix.go *)
(* --------------------------------------------------------------------- *)

(** C8. For a positive pid and a non-zero signal the Unix build makes one
    [kill] call: on the whole group, [-pid], exactly when [getpgid(pid)]
    succeeds and returns [pid]; on [pid] alone otherwise. The Windows build
    makes no call and returns nil. *)
Theorem killProcessOrGroup_leader (pid sig : Z) (w : World) :
  0 < pid -> sig <> 0 ->
  (killProcessOrGroup pid sig w = ([(- pid, sig)], SysErr <$> Kill w (- pid) sig)
   <-> Getpgid w pid = inl pid)
  /\ (Getpgid w pid <> inl pid ->
      killProcessOrGroup pid sig w = ([(pid, sig)], SysErr <$> Kill w pid sig))
  /\ killProcessOrGroupWindows pid sig w = ([], None).
Proof.
  intros Hpid Hsig. unfold killProcessOrGroup, sysKill.
  assert (Hg : (pid <=? 0) || (sig =? 0) = false).
  { apply orb_false_intro; [apply Z.leb_gt | apply Z.eqb_neq]; assumption. }
  rewrite Hg. repeat split.
  - destruct (Getpgid w pid) as [pgid|e] eqn:E.
    + destruct (Z.eqb_spec pgid pid) as [->|Hne]; [reflexivity|].
      intros H. injection H as H _. lia.
    + intros H. injection H as H _. lia.
  - intros ->. rewrite Z.eqb_refl. reflexivity.
  - intros Hne. destruct (Getpgid w pid) as [pgid|e]; [|reflexivity].
    destruct (Z.eqb_spec pgid pid) as [->|_]; [congruence | reflexivity].
Qed.

Lemma killProcessOrGroup_leader_witness :
  (killProcessOrGroup 4242 9 (sampleWorld ∅ sampleNow) = ([(- 4242, 9)], None)
   <-> inl 4242 = (inl 4242 : Z + Errno))
  /\ (Getpgid (sampleWorld ∅ sampleNow) 4242 <> inl 4242 ->
      killProcessOrGroup 4242 9 (sampleWorld ∅ sampleNow) = ([(4242, 9)], None))
  /\ killProcessOrGroupWindows 4242 9 (sampleWorld ∅ sampleNow) = ([], None).
Proof.
  apply (killProcessOrGroup_leader 4242 9 (sampleWorld ∅ sampleNow)); lia.
Defined.

Example ex_kill_member :
  killProcessOrGroup 7 15 (sampleWorld ∅ sampleNow) = ([(7, 15)], None)
  /\ killProcessOrGroup 99 15 (sampleWorld ∅ sampleNow) = ([(99, 15)], Some (SysErr ESRCH))
  /\ killProcessOrGroup 7 0 (sampleWorld ∅ sampleNow) = ([], None)
  /\ killProcessOrGroup 0 9 (sampleWorld ∅ sampleNow) = ([], None).
Proof. repeat split. Qed.

(* --------------------------------------------------------------------- *)
(** ** Paths and files *)
(* --------------------------------------------------------------------- *)

Lemma Join_pid_port_ne (dir : string) :
  Join dir playgroundPIDFileName <> Join dir playgroundPortFileName.
Proof.
  unfold Join. induction dir as [|c dir IH]; simpl.
  - discriminate.
  - intros H. injection H as H. exact (IH H).
Qed.

Lemma nonblank_eqb (s : string) : TrimSpace s <> "" -> String.eqb (TrimSpace s) "" = false.
Proof. intros H. apply String.eqb_neq. exact H. Qed.

Lemma fs_Remove (path : string) (w : World) : fs (Remove path w) = delete path (fs w).
Proof. reflexivity. Qed.

Lemma Remove_both_lookup (a b p : string) (w : World) :
  fs (Remove b (Remove a w)) !! p
  = if bool_decide (p = a \/ p = b) then None else fs w !! p.
Proof.
  rewrite !fs_Remove. case_bool_decide as H.
  - destruct H as [-> | ->].
    + destruct (decide (a = b)) as [->|Hne]; [apply lookup_delete_eq|].
      rewrite lookup_delete_ne by congruence. apply lookup_delete_eq.
    + apply lookup_delete_eq.
  - rewrite !lookup_delete_ne; [reflexivity | |]; intros ->; apply H; auto.
Qed.

Section DaemonFilesProofs.

Variable timeParse : string -> option Z.
Variable timeFormat : Z -> string.

#[local] Abbreviation readPIDFile := (readPIDFile timeParse).
#[local] Abbreviation parsePIDFile := (parsePIDFile timeParse).
#[local] Abbreviation readPIDLines := (readPIDLines timeParse).
#[local] Abbreviation cleanupStaleRuntimeFiles := (cleanupStaleRuntimeFiles timeParse).
#[local] Abbreviation waitRound := (waitRound timeParse).
#[local] Abbreviation waitLoop := (waitLoop timeParse).
#[local] Abbreviation waitPlaygroundStopped := (waitPlaygroundStopped timeParse).
#[local] Abbreviation claimLoop := (claimLoop timeParse timeFormat).
#[local] Abbreviation claimPlaygroundPIDFile := (claimPlaygroundPIDFile timeParse timeFormat).
#[local] Abbreviation pidFileBody := (pidFileBody timeFormat).

(** A failure of the parser is one of its own messages, never ENOENT. *)
Lemma readPIDLines_error (ls : list string) (out : pidFile) (seen : bool) r e :
  readPIDLines ls out seen = (r, Some e) -> IsNotExist e = false.
Proof.
  revert out seen. induction ls as [|l ls IH]; intros out seen; simpl.
  - destruct seen; simpl; intros [= _ <-]; reflexivity.
  - repeat match goal with
           | |- context [if ?b then _ else _] => destruct b
           | |- context [match ?x with inl _ => _ | inr _ => _ end] => destruct x
           | |- context [match ?x with Some _ => _ | None => _ end] => destruct x
           end;
      try apply IH; intros [= _ <-]; reflexivity.
Qed.

Lemma readPIDFile_present (path : string) (w : World) (f : File) :
  fs w !! path = Some f -> readPIDFile path w = parsePIDFile (content f).
Proof. intros H. unfold readPIDFile, ReadFile. rewrite H. reflexivity. Qed.

Lemma readPIDFile_absent (path : string) (w : World) :
  fs w !! path = None -> readPIDFile path w = (pidFile0, Some (SysErr ENOENT)).
Proof. intros H. unfold readPIDFile, ReadFile. rewrite H. reflexivity. Qed.

Lemma readPIDFile_ok_present (path : string) (w : World) (rec : pidFile) :
  readPIDFile path w = (rec, None) ->
  exists f, fs w !! path = Some f /\ parsePIDFile (content f) = (rec, None).
Proof.
  unfold readPIDFile, ReadFile. destruct (fs w !! path) as [f|]; [|discriminate].
  intros H. exists f. split; [reflexivity | exact H].
Qed.

(* --------------------------------------------------------------------- *)
(** ** Liveness of a pid *)
(* --------------------------------------------------------------------- *)

(** C9. For a positive pid, [isPIDRunning] reports running when the null
    signal succeeds and also when it fails with EPERM; so stale cleanup fails
    with the already-running error, and leaves the world alone, for a PID
    record that names such a process. *)
Theorem isPIDRunning_EPERM (p : Z) (w : World) :
  0 < p -> Kill w p 0 = None \/ Kill w p 0 = Some EPERM ->
  isPIDRunning p w = (true, None)
  /\ forall (dataDir : string) (rec : pidFile),
       TrimSpace dataDir <> "" ->
       readPIDFile (Join dataDir playgroundPIDFileName) w = (rec, None) ->
       pid rec = p ->
       cleanupStaleRuntimeFiles dataDir w
       = (w, Some (Errorf ("playground already running (pid=" +:+ Itoa p +:+ ")"))).
Proof.
  intros Hp Hk.
  assert (Hrun : isPIDRunning p w = (true, None)).
  { unfold isPIDRunning. destruct (Z.leb_spec p 0); [lia|].
    destruct Hk as [-> | ->]; reflexivity. }
  split; [exact Hrun|].
  intros dataDir rec Hd Hread <-. unfold cleanupStaleRuntimeFiles.
  rewrite (nonblank_eqb _ Hd), Hread, Hrun. reflexivity.
Qed.

(* --------------------------------------------------------------------- *)
(** ** Stale cleanup with a parseable PID record *)
(* --------------------------------------------------------------------- *)

(** C4. With a parseable PID record, stale cleanup asks [isPIDRunning] about
    the recorded pid. If the process runs, it fails with the already-running
    error for that pid and changes nothing. If it does not run, it succeeds,
    and afterwards neither the PID record nor the Port record exists,
    whatever the Port record was and whatever its port answers; every other
    file is as before. (Where the check itself fails, as it does for a pid
    that is not positive, the cleanup fails with that error and changes
    nothing.) *)
Theorem cleanupStale_parseable (dataDir : string) (w : World) (rec : pidFile) :
  TrimSpace dataDir <> "" ->
  readPIDFile (Join dataDir playgroundPIDFileName) w = (rec, None) ->
  (isPIDRunning (pid rec) w = (true, None) ->
   cleanupStaleRuntimeFiles dataDir w
   = (w, Some (Errorf ("playground already running (pid=" +:+ Itoa (pid rec) +:+ ")"))))
  /\ (isPIDRunning (pid rec) w = (false, None) ->
      exists w',
        cleanupStaleRuntimeFiles dataDir w = (w', None)
        /\ fs w' !! Join dataDir playgroundPIDFileName = None
        /\ fs w' !! Join dataDir playgroundPortFileName = None
        /\ forall p, p <> Join dataDir playgroundPIDFileName ->
                     p <> Join dataDir playgroundPortFileName ->
                     fs w' !! p = fs w !! p)
  /\ (forall running runErr,
        isPIDRunning (pid rec) w = (running, Some runErr) ->
        cleanupStaleRuntimeFiles dataDir w
        = (w, Some (Wrap ("check pid " +:+ Itoa (pid rec)) runErr))).
Proof.
  intros Hd Hread. unfold cleanupStaleRuntimeFiles.
  rewrite (nonblank_eqb _ Hd), Hread. split; [|split]; [intros ->; reflexivity | |].
  - intros ->. eexists. split; [reflexivity|].
    repeat split; intros; rewrite Remove_both_lookup; case_bool_decide; tauto.
  - intros running runErr ->. reflexivity.
Qed.

End DaemonFilesProofs.

Lemma isPIDRunning_EPERM_witness :
  isPIDRunning 1 (sampleWorld {[ Join sampleDir "pid" := file "pid=1" 0 ]} sampleNow)
  = (true, None)
  /\ forall (dataDir : string) (rec : pidFile),
       TrimSpace dataDir <> "" ->
       readPIDFile rfc3339Parse (Join dataDir playgroundPIDFileName)
         (sampleWorld {[ Join sampleDir "pid" := file "pid=1" 0 ]} sampleNow) = (rec, None) ->
       pid rec = 1 ->
       cleanupStaleRuntimeFiles rfc3339Parse dataDir
         (sampleWorld {[ Join sampleDir "pid" := file "pid=1" 0 ]} sampleNow)
       = (sampleWorld {[ Join sampleDir "pid" := file "pid=1" 0 ]} sampleNow,
          Some (Errorf "playground already running (pid=1)")).
Proof.
  apply (isPIDRunning_EPERM rfc3339Parse 1
           (sampleWorld {[ Join sampleDir "pid" := file "pid=1" 0 ]} sampleNow)).
  - lia.
  - right. reflexivity.
Defined.

Example ex_cleanup_EPERM :
  snd (cleanupStaleRuntimeFiles rfc3339Parse sampleDir
         (sampleWorld {[ Join sampleDir "pid" := file "pid=1" 0 ]} sampleNow))
  = Some (Errorf "playground already running (pid=1)").
Proof. vm_compute. reflexivity. Qed.

(* --------------------------------------------------------------------- *)
(** ** The liveness probe *)
(* --------------------------------------------------------------------- *)

Lemma probeCommand_alive (ctx : Context) (port : Z) (w : World) :
  probeCommand ctx port w = (true, None)
  \/ (exists e, probeCommand ctx port w = (false, Some e)).
Proof.
  unfold probeCommand. destruct (httpGet w ctx port "/command") as [e d|resp]; [eauto|].
  destruct (Body resp) as [reply|e]; [|eauto].
  destruct (negb (StatusCode resp =? StatusMethodNotAllowed)); [eauto|].
  destruct (negb (OK reply) && String.eqb (Error reply) "method not allowed"); eauto.
Qed.

Lemma probeCommand_iff (ctx : Context) (port : Z) (w : World) :
  fst (probeCommand ctx port w) = isMethodNotAllowed (httpGet w ctx port "/command").
Proof.
  unfold probeCommand, isMethodNotAllowed.
  destruct (httpGet w ctx port "/command") as [e d|resp]; [reflexivity|].
  destruct (Body resp) as [reply|e]; [|rewrite andb_false_r; reflexivity].
  destruct (StatusCode resp =? StatusMethodNotAllowed); simpl; [|reflexivity].
  destruct (negb (OK reply) && String.eqb (Error reply) "method not allowed"); reflexivity.
Qed.

(** The probe answers [(true, nil)] or [(false, err)] with an error. *)
Lemma probe_shape (ctx : Context) (port : Z) (w : World) :
  probePlaygroundCommandServer ctx port w = (true, None)
  \/ (exists e, probePlaygroundCommandServer ctx port w = (false, Some e)).
Proof.
  unfold probePlaygroundCommandServer. destruct (port <=? 0); [eauto|].
  set (c := match ctx with ctxNil => ctxBackground | _ => ctx end).
  destruct (httpGet w c port "/ping") as [e d|resp].
  - destruct d; [eauto | apply probeCommand_alive].
  - destruct (StatusCode resp =? StatusOK); [|apply probeCommand_alive].
    destruct (Body resp) as [reply|e]; [|eauto].
    destruct (OK reply && String.eqb (TrimSpace (Message reply)) "pong"); eauto.
Qed.

(** C6, as the code has it. For a positive port the probe first issues GET
    /ping and reports alive when it answers 200 with ok and the message
    pong. Whenever /ping does not answer 200 (a 404, any other status, or a
    failed request whose context is still live) the probe falls back to GET
    /command and reports alive exactly when that answers 405 with
    [{ok:false, error:"method not allowed"}]. Alive comes with a nil error,
    and every other outcome comes with an error. *)
Theorem probe_alive_iff (ctx : Context) (port : Z) (w : World) :
  0 < port ->
  let c := match ctx with ctxNil => ctxBackground | _ => ctx end in
  let ping := httpGet w c port "/ping" in
  let command := httpGet w c port "/command" in
  (fst (probePlaygroundCommandServer ctx port w) = true
   <-> isPong ping = true
       \/ (answered200 ping = false /\ gaveUp ping = false
           /\ isMethodNotAllowed command = true))
  /\ (fst (probePlaygroundCommandServer ctx port w) = true ->
      snd (probePlaygroundCommandServer ctx port w) = None)
  /\ (fst (probePlaygroundCommandServer ctx port w) = false ->
      exists e, snd (probePlaygroundCommandServer ctx port w) = Some e).
Proof.
  intros Hport c ping command. split.
  - unfold probePlaygroundCommandServer. destruct (Z.leb_spec port 0) as [?|_]; [lia|].
    fold c. fold ping. unfold isPong, answered200, gaveUp.
    destruct ping as [e d|resp].
    + destruct d; simpl.
      * split; [discriminate | intros [?|(_ & ? & _)]; discriminate].
      * rewrite probeCommand_iff. fold command. split; [auto | intros [?|(_ & _ & ?)]; [discriminate | assumption]].
    + destruct (StatusCode resp =? StatusOK); simpl.
      * destruct (Body resp) as [reply|e]; simpl.
        -- destruct (OK reply && String.eqb (TrimSpace (Message reply)) "pong"); simpl;
             split; auto; intros [?|(? & _)]; discriminate.
        -- split; [discriminate | intros [?|(? & _)]; discriminate].
      * rewrite probeCommand_iff. fold command.
        split; [auto | intros [?|(_ & _ & ?)]; [discriminate | assumption]].
  - destruct (probe_shape ctx port w) as [-> | [e ->]]; simpl; split;
      intros; try discriminate; eauto.
Qed.

Lemma probe_alive_iff_witness :
  (fst (probePlaygroundCommandServer ctxNil 8081 (sampleWorld ∅ sampleNow)) = true
   <-> isPong (httpGet (sampleWorld ∅ sampleNow) ctxBackground 8081 "/ping") = true
       \/ (answered200 (httpGet (sampleWorld ∅ sampleNow) ctxBackground 8081 "/ping") = false
           /\ gaveUp (httpGet (sampleWorld ∅ sampleNow) ctxBackground 8081 "/ping") = false
           /\ isMethodNotAllowed
                (httpGet (sampleWorld ∅ sampleNow) ctxBackground 8081 "/command") = true))
  /\ (fst (probePlaygroundCommandServer ctxNil 8081 (sampleWorld ∅ sampleNow)) = true ->
      snd (probePlaygroundCommandServer ctxNil 8081 (sampleWorld ∅ sampleNow)) = None)
  /\ (fst (probePlaygroundCommandServer ctxNil 8081 (sampleWorld ∅ sampleNow)) = false ->
      exists e, snd (probePlaygroundCommandServer ctxNil 8081 (sampleWorld ∅ sampleNow)) = Some e).
Proof.
  apply (probe_alive_iff ctxNil 8081 (sampleWorld ∅ sampleNow)). lia.
Defined.

(** C6, as stated, fails: /ping answers 500, not 404, and the probe still
    falls back to /command and reports alive. *)
Lemma probe_fallback_not_only_404 :
  (exists resp, httpGet (sampleWorld ∅ sampleNow) probeCtx 8084 "/ping" = DoResp resp
                /\ StatusCode resp = 500)
  /\ probePlaygroundCommandServer probeCtx 8084 (sampleWorld ∅ sampleNow) = (true, None)
  /\ probeLivenessSpec probeCtx 8084 (sampleWorld ∅ sampleNow) = false.
Proof.
  split; [eexists; split; reflexivity|]. split; reflexivity.
Qed.

Example ex_probe :
  probePlaygroundCommandServer probeCtx 8080 (sampleWorld ∅ sampleNow) = (true, None)
  /\ probePlaygroundCommandServer probeCtx 8081 (sampleWorld ∅ sampleNow) = (true, None)
  /\ probePlaygroundCommandServer probeCtx 8082 (sampleWorld ∅ sampleNow)
     = (false, Some (Errorf "unexpected ping response"))
  /\ probePlaygroundCommandServer probeCtx 8083 (sampleWorld ∅ sampleNow)
     = (false, Some DeadlineExceeded)
  /\ probePlaygroundCommandServer probeCtx 9 (sampleWorld ∅ sampleNow)
     = (false, Some (SysErr ECONNREFUSED))
  /\ probePlaygroundCommandServer probeCtx 0 (sampleWorld ∅ sampleNow)
     = (false, Some (Errorf "invalid port 0")).
Proof. repeat split. Qed.

(* --------------------------------------------------------------------- *)
(** ** Stale cleanup without a usable PID record *)
(* --------------------------------------------------------------------- *)

Lemma connRefused_not_timeout (e : error) :
  IsErrno e ECONNREFUSED = true -> isTimeoutErr (Some e) = false.
Proof.
  unfold isTimeoutErr. induction e as [n| |t m|m|m c IH]; simpl; try discriminate.
  - destruct n; simpl; try discriminate. reflexivity.
  - exact IH.
Qed.

Lemma Sub_small (t u : Z) :
  minDuration <= t - u <= maxDuration -> Sub t u = t - u.
Proof.
  unfold Sub. intros [H1 H2].
  destruct (Z.ltb_spec (t - u) minDuration); [lia|].
  destruct (Z.ltb_spec maxDuration (t - u)); [lia|]. reflexivity.
Qed.

Section CleanupProofs.

Variable timeParse : string -> option Z.
Variable timeFormat : Z -> string.

#[local] Abbreviation readPIDFile := (readPIDFile timeParse).
#[local] Abbreviation parsePIDFile := (parsePIDFile timeParse).
#[local] Abbreviation cleanupStaleRuntimeFiles := (cleanupStaleRuntimeFiles timeParse).
#[local] Abbreviation claimPlaygroundPIDFile := (claimPlaygroundPIDFile timeParse timeFormat).

(** Without a PID record the cleanup is its Port part. *)
Lemma cleanupStale_no_pid (dataDir : string) (w : World) :
  TrimSpace dataDir <> "" ->
  fs w !! Join dataDir playgroundPIDFileName = None ->
  cleanupStaleRuntimeFiles dataDir w = cleanupStalePort dataDir w.
Proof.
  intros Hd Hpid. unfold cleanupStaleRuntimeFiles.
  rewrite (nonblank_eqb _ Hd), (readPIDFile_absent _ _ _ Hpid). reflexivity.
Qed.

(** C1, as the code has it. Without a PID record and with a Port record of
    a positive port, stale cleanup probes the port under a 500 ms deadline.
    A successful probe makes it fail with the already-running error for the
    port, and a probe that timed out makes it fail with the timed-out
    error; both leave every file as it was. A refused connection makes it
    remove the Port record and succeed, and so does every other failed
    probe that is not a timeout, an unexpected response included. *)
Theorem cleanupStale_port_only (dataDir : string) (w : World) (port : Z) :
  TrimSpace dataDir <> "" ->
  fs w !! Join dataDir playgroundPIDFileName = None ->
  loadPort dataDir w = (port, None) -> 0 < port ->
  let probe :=
    probePlaygroundCommandServer (ctxWithTimeout ctxBackground (500 * Millisecond)) port w in
  let portPath := Join dataDir playgroundPortFileName in
  (probe = (true, None) ->
   cleanupStaleRuntimeFiles dataDir w
   = (w, Some (Errorf ("playground already running (port=" +:+ Itoa port +:+ ")"))))
  /\ (forall e, probe = (false, Some e) -> isTimeoutErr (Some e) = true ->
      cleanupStaleRuntimeFiles dataDir w
      = (w, Some (Errorf ("playground command server probe timed out (port="
                          +:+ Itoa port +:+ ")"))))
  /\ (forall e, probe = (false, Some e) -> IsErrno e ECONNREFUSED = true ->
      cleanupStaleRuntimeFiles dataDir w = (Remove portPath w, None))
  /\ (forall e, probe = (false, Some e) -> isTimeoutErr (Some e) = false ->
      cleanupStaleRuntimeFiles dataDir w = (Remove portPath w, None))
  /\ fs (Remove portPath w) !! portPath = None.
Proof.
  intros Hd Hpid Hport Hpos probe portPath.
  assert (Hother : forall e, probe = (false, Some e) -> isTimeoutErr (Some e) = false ->
                   cleanupStaleRuntimeFiles dataDir w = (Remove portPath w, None)).
  { intros e He Ht. rewrite (cleanupStale_no_pid _ _ Hd Hpid). unfold cleanupStalePort.
    rewrite Hport. destruct (Z.leb_spec port 0); [lia|].
    fold portPath. unfold probeCtx. fold probe. rewrite He, Ht. simpl.
    destruct (IsErrno e ECONNREFUSED); reflexivity. }
  repeat split.
  - intros He. rewrite (cleanupStale_no_pid _ _ Hd Hpid). unfold cleanupStalePort.
    rewrite Hport. destruct (Z.leb_spec port 0); [lia|].
    unfold probeCtx. fold probe. rewrite He. reflexivity.
  - intros e He Ht. rewrite (cleanupStale_no_pid _ _ Hd Hpid). unfold cleanupStalePort.
    rewrite Hport. destruct (Z.leb_spec port 0); [lia|].
    unfold probeCtx. fold probe. rewrite He, Ht. reflexivity.
  - intros e He Hr. apply (Hother e He). apply connRefused_not_timeout. exact Hr.
  - exact Hother.
  - rewrite fs_Remove. apply lookup_delete_eq.
Qed.

(** C3, as the code has it. With a PID record that does not parse and whose
    modification age is at least zero and less than the 2 s grace window,
    stale cleanup fails with the is-starting error and changes nothing, and
    so does a claim: neither the PID record nor a Port record is touched. *)
Theorem cleanupStale_grace (dataDir : string) (w : World) (f : File)
    (r : pidFile) (e : error) :
  TrimSpace dataDir <> "" ->
  fs w !! Join dataDir playgroundPIDFileName = Some f ->
  parsePIDFile (content f) = (r, Some e) ->
  0 <= clock w - ModTime f < 2 * Second ->
  cleanupStaleRuntimeFiles dataDir w
  = (w, Some (Errorf "playground is starting (pid file is being written)"))
  /\ forall (fuel : nat) (tag : string),
       TrimSpace tag <> "" -> MkdirAll w dataDir = None ->
       claimPlaygroundPIDFile fuel dataDir tag w
       = Some (w, (None,
                   Some (Wrap ("tag " +:+ Quote tag +:+ " is already in use")
                           (Errorf "playground is starting (pid file is being written)")))).
Proof.
  intros Hd Hf Hparse Hage.
  assert (Hc : cleanupStaleRuntimeFiles dataDir w
               = (w, Some (Errorf "playground is starting (pid file is being written)"))).
  { unfold cleanupStaleRuntimeFiles.
    rewrite (nonblank_eqb _ Hd), (readPIDFile_present _ _ _ _ Hf), Hparse.
    rewrite (readPIDLines_error _ _ _ _ _ _ Hparse). simpl negb. cbv iota.
    unfold Stat. rewrite Hf.
    assert (Hs : Sub (clock w) (ModTime f) = clock w - ModTime f).
    { apply Sub_small. unfold minDuration, maxDuration, Second, Millisecond in *. lia. }
    rewrite Hs. unfold pidFileWriteGracePeriod.
    destruct (Z.leb_spec 0 (clock w - ModTime f)); [|lia].
    destruct (Z.ltb_spec (clock w - ModTime f) (2 * Second)); [|lia].
    reflexivity. }
  split; [exact Hc|].
  intros fuel tag Ht Hmk. unfold claimPlaygroundPIDFile.
  rewrite (nonblank_eqb _ Hd), (nonblank_eqb _ Ht), Hmk, Hc. reflexivity.
Qed.

End CleanupProofs.

(** C1, as stated, fails: the port answers /ping with 200 and an unexpected
    body; the probe reports "unexpected ping response", which is neither a
    success, nor a refused connection, nor a timeout, and the cleanup
    removes the Port record and succeeds. *)
Lemma cleanupStale_unexpected_response_removes_port :
  fs portOnlyWorld !! Join sampleDir playgroundPIDFileName = None
  /\ loadPort sampleDir portOnlyWorld = (8082, None)
  /\ probePlaygroundCommandServer probeCtx 8082 portOnlyWorld
     = (false, Some (Errorf "unexpected ping response"))
  /\ ~ (snd (cleanupStaleRuntimeFiles rfc3339Parse sampleDir portOnlyWorld) <> None
        /\ fs (fst (cleanupStaleRuntimeFiles rfc3339Parse sampleDir portOnlyWorld))
             !! Join sampleDir playgroundPortFileName
           = fs portOnlyWorld !! Join sampleDir playgroundPortFileName).
Proof.
  split; [vm_compute; reflexivity|]. split; [vm_compute; reflexivity|].
  split; [vm_compute; reflexivity|].
  intros [H _]. apply H. vm_compute. reflexivity.
Qed.

(** C3, as stated, fails: the PID record does not parse and its age is one
    second below zero, less than the grace window, and yet the cleanup
    removes it and succeeds. *)
Lemma cleanupStale_negative_age_removes :
  (exists f, fs futureStampWorld !! Join sampleDir playgroundPIDFileName = Some f
             /\ snd (parsePIDFile rfc3339Parse (content f)) = Some (Errorf "missing pid field")
             /\ Sub (clock futureStampWorld) (ModTime f) = - Second
             /\ Sub (clock futureStampWorld) (ModTime f) < pidFileWriteGracePeriod)
  /\ snd (cleanupStaleRuntimeFiles rfc3339Parse sampleDir futureStampWorld) = None
  /\ fs (fst (cleanupStaleRuntimeFiles rfc3339Parse sampleDir futureStampWorld))
       !! Join sampleDir playgroundPIDFileName = None.
Proof.
  split.
  - exists (file "" (sampleNow + Second)).
    split; [vm_compute; reflexivity|]. split; [vm_compute; reflexivity|].
    split; vm_compute; reflexivity.
  - split; vm_compute; reflexivity.
Qed.

(* --------------------------------------------------------------------- *)
(** ** Reading the PID record *)
(* --------------------------------------------------------------------- *)

Lemma last_cons {A : Type} (x d : A) (l : list A) : List.last (x :: l) d = List.last l x.
Proof.
  revert x d. induction l as [|y l IH]; intros x d; [reflexivity|].
  change (List.last (x :: y :: l) d) with (List.last (y :: l) d).
  rewrite !IH. reflexivity.
Qed.

Lemma prefix_cons (a b : Ascii.ascii) (s1 s2 : string) :
  String.prefix (String a s1) (String b s2)
  = if Ascii.ascii_dec a b then String.prefix s1 s2 else false.
Proof. reflexivity. Qed.

Lemma HasPrefix_keys (t : string) :
  (HasPrefix t "pid=" = true ->
   HasPrefix t "started_at=" = false /\ HasPrefix t "tag=" = false)
  /\ (HasPrefix t "started_at=" = true -> HasPrefix t "tag=" = false)
  /\ (t = "" ->
      HasPrefix t "pid=" = false /\ HasPrefix t "started_at=" = false
      /\ HasPrefix t "tag=" = false).
Proof.
  unfold HasPrefix. destruct t as [|c t].
  - repeat split; discriminate.
  - rewrite !prefix_cons. split; [|split; [|discriminate]].
    + destruct (Ascii.ascii_dec _ c) as [<-|_]; [|discriminate]. intros _.
      split; reflexivity.
    + destruct (Ascii.ascii_dec _ c) as [<-|_]; [|discriminate]. intros _. reflexivity.
Qed.

Lemma fieldValuesOf_cons (key l : string) (ls : list string) :
  fieldValuesOf key (l :: ls)
  = if HasPrefix (TrimSpace l) key
    then TrimSpace (TrimPrefix (TrimSpace l) key) :: fieldValuesOf key ls
    else fieldValuesOf key ls.
Proof.
  unfold fieldValuesOf. simpl. destruct (HasPrefix (TrimSpace l) key); reflexivity.
Qed.

#[local] Arguments List.last : simpl never.

Section ReadPIDProofs.

Variable timeParse : string -> option Z.


(** The loop of [readPIDFile] from any of its states. *)
Lemma readPIDLines_spec (ls : list string) :
  forall (out : pidFile) (seen : bool),
    let fails :=
      (negb seen && isEmpty (fieldValuesOf "pid=" ls))
      || List.existsb badPid (fieldValuesOf "pid=" ls)
      || List.existsb (fun v => negb (String.eqb v "") && notRFC3339 timeParse v)
           (fieldValuesOf "started_at=" ls) in
    (fails = true -> exists e, snd (readPIDLines timeParse ls out seen) = Some e)
    /\ (fails = false ->
        readPIDLines timeParse ls out seen
        = ({| pid := List.last (List.map atoiValue (fieldValuesOf "pid=" ls)) (pid out);
              startedAt :=
                List.last (List.map (timeValue timeParse)
                             (List.filter (fun v => negb (String.eqb v ""))
                                (fieldValuesOf "started_at=" ls))) (startedAt out);
              tag := List.last (fieldValuesOf "tag=" ls) (tag out) |}, None)).
Proof.
  induction ls as [|l ls IH]; intros out seen.
  - simpl. destruct seen; simpl; split; intros H; try discriminate; eauto.
    destruct out; reflexivity.
  - cbv zeta. rewrite !fieldValuesOf_cons. simpl readPIDLines.
    destruct (HasPrefix_keys (TrimSpace l)) as (Hp & Hs & He).
    destruct (String.eqb_spec (TrimSpace l) "") as [Hblank|_].
    { destruct (He Hblank) as (-> & -> & ->). apply IH. }
    destruct (HasPrefix (TrimSpace l) "pid=") eqn:Epid.
    { destruct (Hp eq_refl) as (-> & ->).
      set (v := TrimSpace (TrimPrefix (TrimSpace l) "pid=")).
      simpl isEmpty. rewrite andb_false_r. simpl List.existsb. unfold badPid at 1 3.
      destruct (String.eqb_spec v "") as [Hv|_]; simpl.
      { split; [eauto | discriminate]. }
      unfold atoiValue at 1. destruct (Atoi v) as [p|k] eqn:Eatoi; simpl.
      - rewrite last_cons. specialize (IH {| pid := p; startedAt := startedAt out; tag := tag out |} true).
        simpl in IH. exact IH.
      - split; [eauto | discriminate]. }
    destruct (HasPrefix (TrimSpace l) "started_at=") eqn:Est.
    { rewrite (Hs eq_refl).
      set (v := TrimSpace (TrimPrefix (TrimSpace l) "started_at=")).
      simpl List.existsb. simpl List.filter.
      destruct (String.eqb_spec v "") as [Hv|_]; simpl.
      { apply IH. }
      destruct (timeParse v) as [t|] eqn:Et.
      - assert (Hn : notRFC3339 timeParse v = false)
          by (unfold notRFC3339; rewrite Et; reflexivity).
        assert (Ht : timeValue timeParse v = t)
          by (unfold timeValue; rewrite Et; reflexivity).
        rewrite Hn, Ht, last_cons. simpl.
        specialize (IH {| pid := pid out; startedAt := t; tag := tag out |} seen).
        simpl in IH. exact IH.
      - assert (Hn : notRFC3339 timeParse v = true)
          by (unfold notRFC3339; rewrite Et; reflexivity).
        rewrite Hn. simpl. rewrite !orb_true_r. split; [eauto | discriminate]. }
    destruct (HasPrefix (TrimSpace l) "tag=") eqn:Etag.
    { rewrite last_cons.
      specialize (IH {| pid := pid out; startedAt := startedAt out;
                         tag := TrimSpace (TrimPrefix (TrimSpace l) "tag=") |} seen).
      simpl in IH. exact IH. }
    apply IH.
Qed.

(** C7, as the code has it. Reading a PID record fails exactly when the pid
    field is missing, or some pid value is empty or not an integer, or some
    started_at value is not empty and not RFC 3339; an empty started_at
    value is passed over. Otherwise the read returns the pid, the started_at
    and the tag of the record, blank and unknown lines being ignored. *)
Theorem readPIDFile_fails_iff (data : string) :
  (snd (parsePIDFile timeParse data) <> None <-> readFails timeParse data = true)
  /\ (readFails timeParse data = false ->
      parsePIDFile timeParse data = (parsedRecord timeParse data, None))
  /\ forall (path : string) (w : World) (f : File),
       fs w !! path = Some f -> content f = data ->
       readPIDFile timeParse path w = parsePIDFile timeParse data.
Proof.
  pose proof (readPIDLines_spec (SplitLines data) pidFile0 false) as H.
  cbv zeta in H. simpl negb in H. rewrite andb_true_l in H. destruct H as [Hf Hs].
  unfold readFails, parsedRecord, fieldValues, parsePIDFile.
  split; [|split].
  - split.
    + intros Hne.
      match goal with |- ?b = true => destruct b eqn:E end; [reflexivity|].
      rewrite (Hs eq_refl) in Hne. simpl in Hne. congruence.
    + intros Ht. destruct (Hf Ht) as [e ->]. discriminate.
  - exact Hs.
  - intros path w f Hp <-. unfold readPIDFile, ReadFile. rewrite Hp. reflexivity.
Qed.

End ReadPIDProofs.

(** C7, as stated, fails: the started_at field is present with an empty
    value, which is not RFC 3339, and the read succeeds. *)
Lemma readPIDFile_empty_started_at :
  fieldValues "started_at=" ("pid=1" +:+ newline +:+ "started_at=" +:+ newline) = [""]
  /\ rfc3339Parse "" = None
  /\ readFailsSpec rfc3339Parse ("pid=1" +:+ newline +:+ "started_at=" +:+ newline) = true
  /\ parsePIDFile rfc3339Parse ("pid=1" +:+ newline +:+ "started_at=" +:+ newline)
     = ({| pid := 1; startedAt := 0; tag := "" |}, None).
Proof. repeat split. Qed.

Example ex_readPIDFile :
  parsePIDFile rfc3339Parse
    ("pid=123" +:+ newline +:+ "started_at=2026-01-13T20:00:00Z" +:+ newline
     +:+ "tag=my-cluster" +:+ newline)
  = ({| pid := 123; startedAt := sampleNow; tag := "my-cluster" |}, None)
  /\ snd (parsePIDFile rfc3339Parse "") = Some (Errorf "missing pid field")
  /\ snd (parsePIDFile rfc3339Parse "pid=") = Some (Errorf "pid is empty")
  /\ parsePIDFile rfc3339Parse ("  pid = 7" +:+ newline +:+ "pid= 8 " +:+ newline +:+ "color=red")
     = ({| pid := 8; startedAt := 0; tag := "" |}, None)
  /\ (exists e, snd (parsePIDFile rfc3339Parse ("pid=1" +:+ newline +:+ "pid=x")) = Some e)
  /\ (exists e, snd (parsePIDFile rfc3339Parse
                       ("pid=1" +:+ newline +:+ "started_at=yesterday")) = Some e).
Proof. vm_compute. repeat split; eexists; reflexivity. Qed.

(* --------------------------------------------------------------------- *)
(** ** Words, lines and numbers *)
(* --------------------------------------------------------------------- *)

Lemma tokenByte_isB (c : Ascii.ascii) (n : nat) :
  tokenByte c = true -> (n < 33 \/ 126 < n)%nat -> isB c n = false.
Proof.
  unfold tokenByte, isB. intros H Hn. apply andb_prop in H as [H1 H2].
  apply Nat.leb_le in H1, H2. apply Nat.eqb_neq. lia.
Qed.

Lemma tokenByte_not_high (c : Ascii.ascii) :
  tokenByte c = true -> Nat.leb 128 (code c) = false.
Proof.
  unfold tokenByte. intros H. apply andb_prop in H as [H1 H2].
  apply Nat.leb_le in H2. apply Nat.leb_gt. lia.
Qed.

Ltac token_bytes H :=
  repeat first
    [ rewrite (tokenByte_isB _ _ H) by lia
    | rewrite (tokenByte_not_high _ H) ];
  rewrite ?andb_false_r, ?andb_false_l, ?orb_false_r, ?orb_false_l.

Lemma TrimLeftSpace_token (c : Ascii.ascii) (r : string) :
  tokenByte c = true -> TrimLeftSpace (String c r) = String c r.
Proof.
  intros H. simpl. unfold asciiSpace, space2, space3. token_bytes H. simpl.
  destruct r as [|c2 [|c3 r]]; reflexivity.
Qed.

Lemma TrimLeftSpaceRev_token (c : Ascii.ascii) (r : string) :
  tokenByte c = true -> TrimLeftSpaceRev (String c r) = String c r.
Proof.
  intros H. simpl. unfold asciiSpace, space2, space3. token_bytes H. simpl.
  destruct r as [|c2 [|c3 r]]; try reflexivity; token_bytes H; reflexivity.
Qed.

Lemma append_empty_r (s : string) : s +:+ "" = s.
Proof.
  induction s as [|c s IH]; [reflexivity|].
  change (String c (s +:+ "") = String c s). rewrite IH. reflexivity.
Qed.

Lemma rev_app_rev_app (s1 s2 s3 : string) :
  String.rev_app (String.rev_app s1 s2) s3 = String.rev_app s2 (s1 +:+ s3).
Proof.
  revert s2. induction s1 as [|a s1 IH]; intros s2; simpl; [reflexivity|].
  rewrite IH. reflexivity.
Qed.

Lemma rev_rev (s : string) : String.rev (String.rev s) = s.
Proof. unfold String.rev. rewrite rev_app_rev_app. simpl. apply append_empty_r. Qed.

Lemma allToken_rev_app (s acc : string) :
  allToken (String.rev_app s acc) = allToken s && allToken acc.
Proof.
  revert acc. induction s as [|c s IH]; intros acc; simpl; [reflexivity|].
  rewrite IH. simpl. destruct (tokenByte c), (allToken s); reflexivity.
Qed.

Lemma allToken_app (a b : string) : allToken (a +:+ b) = allToken a && allToken b.
Proof.
  induction a as [|c a IH]; simpl; [reflexivity|]. rewrite IH. apply andb_assoc.
Qed.

(** Trimming leaves a word of printable bytes alone. *)
Lemma TrimSpace_token (s : string) : allToken s = true -> TrimSpace s = s.
Proof.
  intros H. unfold TrimSpace, TrimRightSpace.
  assert (Hl : TrimLeftSpace s = s).
  { destruct s as [|c r]; [reflexivity|]. simpl in H. apply andb_prop in H as [H _].
    apply TrimLeftSpace_token. exact H. }
  rewrite Hl.
  assert (Hr : allToken (String.rev s) = true).
  { unfold String.rev. rewrite allToken_rev_app, H. reflexivity. }
  destruct (String.rev s) as [|c r] eqn:E.
  - simpl. rewrite <- (rev_rev s), E. reflexivity.
  - simpl in Hr. apply andb_prop in Hr as [Hr _].
    rewrite (TrimLeftSpaceRev_token _ _ Hr), <- E. apply rev_rev.
Qed.

Lemma SplitLines_line (a b : string) :
  allToken a = true -> SplitLines (a +:+ newline +:+ b) = a :: SplitLines b.
Proof.
  induction a as [|c a IH]; intros H.
  - reflexivity.
  - simpl in H. apply andb_prop in H as [Hc Ha].
    change (SplitLines (String c (a +:+ newline +:+ b)) = String c a :: SplitLines b).
    simpl SplitLines at 1. rewrite (tokenByte_isB _ _ Hc) by lia.
    rewrite (IH Ha). reflexivity.
Qed.

Lemma SplitLines_last_line (a : string) :
  allToken a = true -> SplitLines (a +:+ newline) = [a; ""].
Proof. intros H. exact (SplitLines_line a "" H). Qed.

Lemma prefix_app (pre x : string) : String.prefix pre (pre +:+ x) = true.
Proof.
  induction pre as [|c pre IH]; simpl; [destruct x; reflexivity|].
  destruct (Ascii.ascii_dec c c); [exact IH | congruence].
Qed.

Lemma substring_all (x : string) : String.substring 0 (String.length x) x = x.
Proof. induction x as [|c x IH]; simpl; [reflexivity | rewrite IH; reflexivity]. Qed.

Lemma TrimPrefix_app (pre x : string) : TrimPrefix (pre +:+ x) pre = x.
Proof.
  unfold TrimPrefix, HasPrefix. rewrite prefix_app.
  induction pre as [|c pre IH]; simpl.
  - rewrite Nat.sub_0_r. apply substring_all.
  - exact IH.
Qed.

Lemma Contains_prefix (s sub : string) :
  String.prefix sub s = true -> Contains s sub = true.
Proof. intros H. destruct s; cbn [Contains]; rewrite H; reflexivity. Qed.

Lemma Contains_app (a sub b : string) : Contains (a +:+ sub +:+ b) sub = true.
Proof.
  induction a as [|c a IH].
  - apply Contains_prefix. change ("" +:+ sub +:+ b) with (sub +:+ b). apply prefix_app.
  - change (Contains (String c (a +:+ sub +:+ b)) sub = true).
    cbn [Contains]. rewrite IH. apply orb_true_r.
Qed.

Lemma allToken_uint (d : Decimal.uint) : allToken (NilEmpty.string_of_uint d) = true.
Proof. induction d; simpl; try exact IHd; reflexivity. Qed.

Lemma string_of_uint_head (d : Decimal.uint) :
  d <> Decimal.Nil ->
  exists c r, NilEmpty.string_of_uint d = String c r /\ isB c 45 = false /\ isB c 43 = false.
Proof. destruct d; intros H; try congruence; simpl; eauto. Qed.

(** What [%d] prints of a positive [int], [strconv.Atoi] reads back. *)
Lemma Atoi_Itoa (p : Z) : 0 < p <= maxInt -> Atoi (Itoa p) = inl p.
Proof.
  intros [Hp Hmax]. destruct p as [|p|p]; try lia.
  unfold Itoa, Atoi. simpl Z.to_int. simpl NilEmpty.string_of_int.
  destruct (string_of_uint_head (Pos.to_uint p) (Unsigned.to_uint_nonnil p))
    as (c & r & E & Hm & Hplus).
  rewrite E, Hm, Hplus, <- E, NilEmpty.usu.
  unfold Z.of_uint. rewrite DecimalPos.Unsigned.of_to. simpl Z.of_N.
  destruct (Z.leb_spec minInt (Z.pos p)); [|unfold minInt in *; lia].
  destruct (Z.leb_spec (Z.pos p) maxInt); [|lia]. reflexivity.
Qed.

Lemma Itoa_token (p : Z) : 0 < p -> isToken (Itoa p) = true.
Proof.
  intros Hp. destruct p as [|p|p]; try lia.
  unfold Itoa, isToken. simpl Z.to_int. simpl NilEmpty.string_of_int.
  rewrite allToken_uint.
  destruct (string_of_uint_head (Pos.to_uint p) (Unsigned.to_uint_nonnil p))
    as (c & r & -> & _). reflexivity.
Qed.

Lemma isToken_inv (s : string) :
  isToken s = true -> allToken s = true /\ String.eqb s "" = false.
Proof.
  unfold isToken. intros H. apply andb_prop in H as [H1 H2].
  split; [exact H2|]. destruct (String.eqb s ""); [discriminate | reflexivity].
Qed.

(* --------------------------------------------------------------------- *)
(** ** Claim and release *)
(* --------------------------------------------------------------------- *)

Section ClaimProofs.

Variable timeParse : string -> option Z.
Variable timeFormat : Z -> string.

#[local] Abbreviation readPIDFile := (readPIDFile timeParse).
#[local] Abbreviation cleanupStaleRuntimeFiles := (cleanupStaleRuntimeFiles timeParse).
#[local] Abbreviation claimLoop := (claimLoop timeParse timeFormat).
#[local] Abbreviation claimPlaygroundPIDFile := (claimPlaygroundPIDFile timeParse timeFormat).
#[local] Abbreviation pidFileBody := (pidFileBody timeFormat).

(** One line of the record, as the loop of [readPIDFile] takes it. *)
Lemma field_line (key value : string) :
  allToken key = true -> allToken value = true ->
  TrimSpace (key +:+ value) = key +:+ value
  /\ HasPrefix (key +:+ value) key = true
  /\ TrimSpace (TrimPrefix (key +:+ value) key) = value.
Proof.
  intros Hk Hv. split; [|split].
  - apply TrimSpace_token. rewrite allToken_app, Hk, Hv. reflexivity.
  - apply prefix_app.
  - rewrite TrimPrefix_app. apply TrimSpace_token. exact Hv.
Qed.

(** The record that a claim writes reads back as written. *)
Lemma parse_pidFileBody (p now t : Z) (tg : string) :
  0 < p <= maxInt ->
  isToken (timeFormat now) = true -> timeParse (timeFormat now) = Some t ->
  isToken tg = true ->
  parsePIDFile timeParse (pidFileBody p now tg)
  = ({| pid := p; startedAt := t; tag := tg |}, None).
Proof.
  intros Hp Hstamp Hparse Htag.
  destruct (isToken_inv _ (Itoa_token p (proj1 Hp))) as [Hi Hine].
  destruct (isToken_inv _ Hstamp) as [Hs Hsne].
  destruct (isToken_inv _ Htag) as [Ht Htne].
  destruct (field_line "pid=" (Itoa p) eq_refl Hi) as (P1 & P2 & P3).
  destruct (field_line "started_at=" (timeFormat now) eq_refl Hs) as (S1 & S2 & S3).
  destruct (field_line "tag=" tg eq_refl Ht) as (T1 & T2 & T3).
  unfold parsePIDFile, pidFileBody.
  rewrite !SplitLines_line by (rewrite allToken_app; simpl; assumption).
  rewrite SplitLines_last_line by (rewrite allToken_app; simpl; assumption).
  cbn [readPIDLines].
  rewrite P1. change (String.eqb ("pid=" +:+ Itoa p) "") with false. cbv iota.
  rewrite P2, P3, Hine, (Atoi_Itoa p Hp).
  rewrite S1. change (String.eqb ("started_at=" +:+ timeFormat now) "") with false.
  change (HasPrefix ("started_at=" +:+ timeFormat now) "pid=") with false. cbv iota.
  rewrite S2, S3, Hsne, Hparse.
  rewrite T1. change (String.eqb ("tag=" +:+ tg) "") with false.
  change (HasPrefix ("tag=" +:+ tg) "pid=") with false.
  change (HasPrefix ("tag=" +:+ tg) "started_at=") with false. cbv iota.
  rewrite T2, T3. reflexivity.
Qed.

(** With no record in the directory a claim goes through at once. *)
Lemma claim_fresh (fuel : nat) (dataDir tg : string) (w : World) :
  TrimSpace dataDir <> "" -> TrimSpace tg <> "" ->
  fs w !! Join dataDir playgroundPIDFileName = None ->
  fs w !! Join dataDir playgroundPortFileName = None ->
  MkdirAll w dataDir = None ->
  claimPlaygroundPIDFile (S fuel) dataDir tg w
  = Some (setFs (<[Join dataDir playgroundPIDFileName :=
                     {| content := pidFileBody (Getpid w) (clock w) tg;
                        ModTime := clock w |}]> (fs w)) w,
          (Some (release (Join dataDir playgroundPIDFileName)), None)).
Proof.
  intros Hd Ht Hpid Hport Hmk. unfold claimPlaygroundPIDFile.
  rewrite (nonblank_eqb _ Hd), (nonblank_eqb _ Ht), Hmk.
  rewrite (cleanupStale_no_pid timeParse _ _ Hd Hpid).
  unfold cleanupStalePort, loadPort, ReadFile. rewrite Hport. simpl.
  unfold CreateExcl. rewrite Hpid. reflexivity.
Qed.

(** C2. On a data directory without records, [claim(dataDir, "demo")]
    succeeds and writes a PID record that reads back with the pid of the
    calling process and the tag demo. A second claim before the release
    fails, with an error whose text contains "already in use", and changes
    nothing. The release returned by the first claim removes the PID record,
    and after it a claim succeeds again. No claim runs out of rounds. *)
Theorem claim_scenario (fuel : nat) (dataDir : string) (w : World) (t : Z) :
  TrimSpace dataDir <> "" ->
  fs w !! Join dataDir playgroundPIDFileName = None ->
  fs w !! Join dataDir playgroundPortFileName = None ->
  MkdirAll w dataDir = None ->
  0 < Getpid w <= maxInt ->
  Kill w (Getpid w) 0 = None ->
  isToken (timeFormat (clock w)) = true ->
  timeParse (timeFormat (clock w)) = Some t ->
  exists (w1 : World) (rel : World -> World),
    claimPlaygroundPIDFile (S fuel) dataDir "demo" w = Some (w1, (Some rel, None))
    /\ readPIDFile (Join dataDir playgroundPIDFileName) w1
       = ({| pid := Getpid w; startedAt := t; tag := "demo" |}, None)
    /\ (exists err,
          claimPlaygroundPIDFile (S fuel) dataDir "demo" w1 = Some (w1, (None, Some err))
          /\ Contains (errText err) "already in use" = true)
    /\ fs (rel w1) !! Join dataDir playgroundPIDFileName = None
    /\ exists (w3 : World) (rel3 : World -> World),
         claimPlaygroundPIDFile (S fuel) dataDir "demo" (rel w1)
         = Some (w3, (Some rel3, None)).
Proof.
  intros Hd Hpid Hport Hmk Hself Hkill Hstamp Hparse.
  assert (Htag : TrimSpace "demo" <> "") by (vm_compute; discriminate).
  set (pidPath := Join dataDir playgroundPIDFileName) in *.
  set (w1 := setFs (<[pidPath := {| content := pidFileBody (Getpid w) (clock w) "demo";
                                    ModTime := clock w |}]> (fs w)) w).
  assert (Hread : readPIDFile pidPath w1
                  = ({| pid := Getpid w; startedAt := t; tag := "demo" |}, None)).
  { unfold readPIDFile, ReadFile, w1. simpl fs.
    rewrite lookup_insert_eq. simpl content.
    apply parse_pidFileBody; auto. }
  exists w1, (release pidPath). split; [|split; [|split; [|split]]].
  - apply claim_fresh; assumption.
  - exact Hread.
  - assert (Hrun : isPIDRunning (Getpid w) w1 = (true, None)).
    { unfold isPIDRunning. destruct (Z.leb_spec (Getpid w) 0); [lia|].
      simpl Kill. rewrite Hkill. reflexivity. }
    eexists. split.
    + unfold claimPlaygroundPIDFile.
      rewrite (nonblank_eqb _ Hd), (nonblank_eqb _ Htag). simpl MkdirAll. rewrite Hmk.
      unfold cleanupStaleRuntimeFiles.
      rewrite (nonblank_eqb _ Hd). fold pidPath. fold readPIDFile. rewrite Hread.
      simpl pid. rewrite Hrun. reflexivity.
    + unfold Annotatef. cbn [errText].
      exact (Contains_app ("tag " +:+ String (byte 34) "demo" +:+ String (byte 34) " is ")
               "already in use" _).
  - unfold release. rewrite fs_Remove. apply lookup_delete_eq.
  - eexists _, _. apply claim_fresh; try assumption.
    + unfold release. rewrite fs_Remove. apply lookup_delete_eq.
    + unfold release. rewrite fs_Remove.
      rewrite lookup_delete_ne by apply Join_pid_port_ne.
      unfold w1. simpl fs. rewrite lookup_insert_ne by apply Join_pid_port_ne.
      exact Hport.
Qed.

End ClaimProofs.

(* --------------------------------------------------------------------- *)
(** ** Waiting for the playground to stop *)
(* --------------------------------------------------------------------- *)

Lemma afterSleeps_S (n : nat) (w : World) :
  afterSleeps (S n) w = afterSleeps n (Sleep pollInterval w).
Proof. unfold afterSleeps. apply Nat.iter_succ_r. Qed.

Lemma quiet_S (n : nat) (w : World) :
  quiet (S n) w ->
  fs (Sleep pollInterval w) = fs w /\ quiet n (Sleep pollInterval w).
Proof.
  intros Hq. split.
  - unfold Sleep. simpl. destruct (others w) as [|op ops] eqn:E; [reflexivity|].
    rewrite (Hq 0%nat op); [reflexivity | lia | rewrite E; reflexivity].
  - intros i op Hi Hop. apply (Hq (S i) op); [lia|].
    unfold Sleep in Hop. simpl in Hop. destruct (others w); [discriminate | exact Hop].
Qed.

Lemma afterSleeps_clock (n : nat) (w : World) :
  clock (afterSleeps n w) = clock w + Z.of_nat n * pollInterval.
Proof.
  revert w. induction n as [|n IH]; intros w.
  - simpl. lia.
  - rewrite afterSleeps_S, IH. simpl clock. lia.
Qed.

Lemma afterSleeps_quiet (n : nat) (w : World) :
  quiet n w ->
  fs (afterSleeps n w) = fs w /\ Kill (afterSleeps n w) = Kill w
  /\ others (afterSleeps n w) = drop n (others w).
Proof.
  revert w. induction n as [|n IH]; intros w Hq.
  - repeat split.
  - destruct (quiet_S _ _ Hq) as [Hfs Hq']. rewrite afterSleeps_S.
    destruct (IH _ Hq') as (H1 & H2 & H3). rewrite H1, H2, H3, Hfs.
    repeat split. simpl. destruct (others w); [destruct n|]; reflexivity.
Qed.

Section WaitProofs.

Variable timeParse : string -> option Z.

Lemma live_round (dataDir : string) (w : World) :
  live timeParse dataDir w -> waitRound timeParse dataDir w = (w, None).
Proof.
  intros (rec & Hr & Hrun). unfold waitRound. rewrite Hr, Hrun. reflexivity.
Qed.

Lemma live_same (dataDir : string) (w w' : World) :
  fs w' = fs w -> Kill w' = Kill w -> live timeParse dataDir w -> live timeParse dataDir w'.
Proof.
  intros Hfs Hk (rec & Hr & Hrun). exists rec. split.
  - unfold readPIDFile, ReadFile in *. rewrite Hfs. exact Hr.
  - unfold isPIDRunning in *. rewrite Hk. exact Hrun.
Qed.

(** While the record stays live and the deadline has not passed, every
    round ends in the sleep. *)
Lemma waitLoop_quiet (dataDir : string) (deadline : Z) (n : nat) :
  forall (fuel : nat) (w : World),
    live timeParse dataDir w -> quiet n w ->
    clock w + (Z.of_nat n - 1) * pollInterval <= deadline ->
    waitLoop timeParse (n + fuel) dataDir deadline w
    = waitLoop timeParse fuel dataDir deadline (afterSleeps n w).
Proof.
  induction n as [|n IH]; intros fuel w Hl Hq Hc; [reflexivity|].
  destruct (quiet_S _ _ Hq) as [Hfs Hq'].
  change (S n + fuel)%nat with (S (n + fuel)). cbn [waitLoop].
  rewrite (live_round _ _ Hl).
  assert (Hpos : 0 <= Z.of_nat n * pollInterval) by (unfold pollInterval, Millisecond; lia).
  destruct (Z.ltb_spec deadline (clock w)); [lia|].
  rewrite afterSleeps_S. fold pollInterval. apply IH.
  - apply (live_same dataDir w); [exact Hfs | reflexivity | exact Hl].
  - exact Hq'.
  - simpl clock. lia.
Qed.

(** C10. With a timeout of zero or less, [waitPlaygroundStopped] does as
    with a timeout of 60 seconds. It does not fail at once: with no PID
    record it returns nil in the first round; while the PID record names a
    running process it sleeps 200 ms after each round, and it fails with the
    timeout only in the round after the 301st sleep, when the clock has
    passed the deadline of 60 s; and when another process removes the PID
    record during sleep [k + 1], no later than the 301st, it returns nil in
    the round after that sleep. *)
Theorem waitStopped_default_deadline (fuel : nat) (dataDir : string) (timeout : Z)
    (w : World) :
  timeout <= 0 ->
  waitPlaygroundStopped timeParse fuel dataDir timeout w
  = waitPlaygroundStopped timeParse fuel dataDir (60 * Second) w
  /\ (TrimSpace dataDir <> "" ->
      fs w !! Join dataDir playgroundPIDFileName = None ->
      waitPlaygroundStopped timeParse (S fuel) dataDir timeout w = Some (w, None))
  /\ (TrimSpace dataDir <> "" -> live timeParse dataDir w -> quiet 301 w ->
      waitPlaygroundStopped timeParse (302 + fuel) dataDir timeout w
      = Some (afterSleeps 301 w, Some (Errorf "timeout waiting for playground to stop"))
      /\ clock (afterSleeps 301 w) = clock w + 60 * Second + pollInterval)
  /\ (forall (k : nat) (rest : list FsOp),
        TrimSpace dataDir <> "" -> live timeParse dataDir w -> (k <= 300)%nat ->
        others w = (replicate k ExtNone
                    ++ ExtRemove (Join dataDir playgroundPIDFileName) :: rest)%list ->
        waitPlaygroundStopped timeParse (k + 2 + fuel) dataDir timeout w
        = Some (afterSleeps (S k) w, None)).
Proof.
  intros Ht.
  assert (Hdef : forall fuel',
            waitPlaygroundStopped timeParse fuel' dataDir timeout w
            = waitPlaygroundStopped timeParse fuel' dataDir (60 * Second) w).
  { intros fuel'. unfold waitPlaygroundStopped.
    destruct (Z.leb_spec timeout 0); [|lia]. reflexivity. }
  split; [apply Hdef|]. split; [|split].
  - intros Hd Hpid. rewrite Hdef. unfold waitPlaygroundStopped.
    rewrite (nonblank_eqb _ Hd). cbn [waitLoop]. unfold waitRound.
    rewrite (readPIDFile_absent _ _ _ Hpid). reflexivity.
  - intros Hd Hl Hq. split; [|rewrite afterSleeps_clock; unfold pollInterval, Second; lia].
    rewrite Hdef. unfold waitPlaygroundStopped. rewrite (nonblank_eqb _ Hd).
    change (60 * Second <=? 0) with false. cbv iota. change (302 + fuel)%nat with (301 + S fuel)%nat.
    rewrite (waitLoop_quiet dataDir _ 301 (S fuel) w Hl Hq)
      by (unfold pollInterval, Second, Millisecond; lia).
    destruct (afterSleeps_quiet _ _ Hq) as (Hfs & Hk & _).
    cbn [waitLoop].
    rewrite (live_round _ _ (live_same dataDir w _ Hfs Hk Hl)).
    rewrite afterSleeps_clock.
    destruct (Z.ltb_spec (clock w + 60 * Second)
                (clock w + Z.of_nat 301 * pollInterval)) as [_|H];
      [reflexivity | unfold pollInterval, Second, Millisecond in H; lia].
  - intros k rest Hd Hl Hk Hothers.
    assert (Hq : quiet k w).
    { intros i op Hi Hop. rewrite Hothers in Hop.
      rewrite lookup_app_l in Hop by (rewrite length_replicate; exact Hi).
      apply lookup_replicate in Hop as [-> _]. reflexivity. }
    rewrite Hdef. unfold waitPlaygroundStopped. rewrite (nonblank_eqb _ Hd).
    change (60 * Second <=? 0) with false. cbv iota. replace (k + 2 + fuel)%nat with (k + S (S fuel))%nat by lia.
    rewrite (waitLoop_quiet dataDir _ k (S (S fuel)) w Hl Hq)
      by (unfold pollInterval, Second, Millisecond; lia).
    destruct (afterSleeps_quiet _ _ Hq) as (Hfs & Hkill & Hoth).
    cbn [waitLoop].
    rewrite (live_round _ _ (live_same dataDir w _ Hfs Hkill Hl)).
    rewrite afterSleeps_clock.
    destruct (Z.ltb_spec (clock w + 60 * Second) (clock w + Z.of_nat k * pollInterval))
      as [H|_]; [unfold pollInterval, Second, Millisecond in H; lia|].
    fold pollInterval. unfold waitRound.
    assert (Hgone : fs (Sleep pollInterval (afterSleeps k w))
                      !! Join dataDir playgroundPIDFileName = None).
    { unfold Sleep. simpl fs. rewrite Hoth, Hothers.
      rewrite drop_app_length' by (symmetry; apply length_replicate).
      simpl. apply lookup_delete_eq. }
    rewrite (readPIDFile_absent _ _ _ Hgone). reflexivity.
Qed.

End WaitProofs.

(* --------------------------------------------------------------------- *)
(** ** The theorems at the sample worlds *)
(* --------------------------------------------------------------------- *)

Lemma sampleDir_nonblank : TrimSpace sampleDir <> "".
Proof. vm_compute. discriminate. Qed.

Lemma cleanupStale_port_only_witness :
  cleanupStaleRuntimeFiles rfc3339Parse sampleDir portAliveWorld
  = (portAliveWorld, Some (Errorf ("playground already running (port=" +:+ Itoa 8080 +:+ ")"))).
Proof.
  refine (proj1 (cleanupStale_port_only rfc3339Parse sampleDir portAliveWorld 8080
                   sampleDir_nonblank _ _ _) _).
  - vm_compute. reflexivity.
  - vm_compute. reflexivity.
  - lia.
  - reflexivity.
Defined.

Lemma claim_scenario_witness :
  exists (w1 : World) (rel : World -> World),
    claimPlaygroundPIDFile rfc3339Parse rfc3339Format 1 sampleDir "demo" emptyWorld
    = Some (w1, (Some rel, None))
    /\ readPIDFile rfc3339Parse (Join sampleDir playgroundPIDFileName) w1
       = ({| pid := Getpid emptyWorld; startedAt := sampleNow; tag := "demo" |}, None)
    /\ (exists err,
          claimPlaygroundPIDFile rfc3339Parse rfc3339Format 1 sampleDir "demo" w1
          = Some (w1, (None, Some err))
          /\ Contains (errText err) "already in use" = true)
    /\ fs (rel w1) !! Join sampleDir playgroundPIDFileName = None
    /\ exists (w3 : World) (rel3 : World -> World),
         claimPlaygroundPIDFile rfc3339Parse rfc3339Format 1 sampleDir "demo" (rel w1)
         = Some (w3, (Some rel3, None)).
Proof.
  refine (claim_scenario rfc3339Parse rfc3339Format 0 sampleDir emptyWorld sampleNow
            sampleDir_nonblank _ _ _ _ _ _ _).
  - vm_compute. reflexivity.
  - vm_compute. reflexivity.
  - reflexivity.
  - unfold maxInt. simpl. lia.
  - reflexivity.
  - vm_compute. reflexivity.
  - vm_compute. reflexivity.
Defined.

Lemma cleanupStale_grace_witness :
  cleanupStaleRuntimeFiles rfc3339Parse sampleDir startingWorld
  = (startingWorld, Some (Errorf "playground is starting (pid file is being written)")).
Proof.
  refine (proj1 (cleanupStale_grace rfc3339Parse rfc3339Format sampleDir startingWorld
                   (file "" (sampleNow - 500 * Millisecond)) pidFile0
                   (Errorf "missing pid field") sampleDir_nonblank _ _ _)).
  - vm_compute. reflexivity.
  - vm_compute. reflexivity.
  - split; [vm_compute; discriminate | vm_compute; reflexivity].
Defined.

Lemma cleanupStale_parseable_witness :
  exists w',
    cleanupStaleRuntimeFiles rfc3339Parse sampleDir stalePidWorld = (w', None)
    /\ fs w' !! Join sampleDir playgroundPIDFileName = None
    /\ fs w' !! Join sampleDir playgroundPortFileName = None
    /\ forall p, p <> Join sampleDir playgroundPIDFileName ->
                 p <> Join sampleDir playgroundPortFileName ->
                 fs w' !! p = fs stalePidWorld !! p.
Proof.
  refine (proj1 (proj2 (cleanupStale_parseable rfc3339Parse sampleDir stalePidWorld
                          {| pid := 99; startedAt := 0; tag := "" |} sampleDir_nonblank _)) _).
  - vm_compute. reflexivity.
  - reflexivity.
Defined.

Lemma waitStopped_default_deadline_witness :
  waitPlaygroundStopped rfc3339Parse 302 sampleDir 0 runningWorld
  = waitPlaygroundStopped rfc3339Parse 302 sampleDir (60 * Second) runningWorld.
Proof.
  refine (proj1 (waitStopped_default_deadline rfc3339Parse 302 sampleDir 0 runningWorld _)).
  lia.
Defined.

Example ex_waitStopped :
  (snd <$> waitPlaygroundStopped rfc3339Parse 302 sampleDir (-1) runningWorld)
  = Some (Some (Errorf "timeout waiting for playground to stop"))
  /\ (clock ∘ fst <$> waitPlaygroundStopped rfc3339Parse 302 sampleDir (-1) runningWorld)
     = Some (sampleNow + 60200 * Millisecond)
  /\ waitPlaygroundStopped rfc3339Parse 301 sampleDir 0 runningWorld = None
  /\ (snd <$> waitPlaygroundStopped rfc3339Parse 1 sampleDir 0 stalePidWorld) = Some None
  /\ (snd <$> waitPlaygroundStopped rfc3339Parse 4 sampleDir (400 * Millisecond) runningWorld)
     = Some (Some (Errorf "timeout waiting for playground to stop")).
Proof. vm_compute. repeat split. Qed.

Example ex_cleanup :
  snd (cleanupStaleRuntimeFiles rfc3339Parse sampleDir emptyWorld) = None
  /\ snd (cleanupStaleRuntimeFiles rfc3339Parse sampleDir runningWorld)
     = Some (Errorf "playground already running (pid=4242)")
  /\ snd (cleanupStaleRuntimeFiles rfc3339Parse sampleDir portAliveWorld)
     = Some (Errorf "playground already running (port=8080)")
  /\ snd (cleanupStaleRuntimeFiles rfc3339Parse sampleDir
            (sampleWorld {[ Join sampleDir "port" := file "8083" 0 ]} sampleNow))
     = Some (Errorf "playground command server probe timed out (port=8083)")
  /\ cleanupStaleRuntimeFiles rfc3339Parse "  " emptyWorld
     = (emptyWorld, Some (Errorf "data dir is empty")).
Proof. vm_compute. repeat split. Qed.

(* --------------------------------------------------------------------- *)
(** ** The progress UI: what its methods do to the state *)
(* --------------------------------------------------------------------- *)

Lemma extends_refl (u : UI) : extends u u [].
Proof. unfold extends. rewrite app_nil_r. repeat split; auto. Qed.

Lemma extends_trans (u1 u2 u3 : UI) (l1 l2 : list Event) :
  extends u1 u2 l1 -> extends u2 u3 l2 -> extends u1 u3 (l1 ++ l2).
Proof.
  unfold extends.
  intros (A1 & A2 & A3 & A4 & A5 & A6 & A7 & A8) (B1 & B2 & B3 & B4 & B5 & B6 & B7 & B8).
  rewrite B1, B2, B3, B4, B5, B6, B7, B8, A8, app_assoc. repeat split; auto.
Qed.

Lemma extends_setBuf (b : string) (u : UI) : extends u (setBuf b u) [].
Proof. unfold extends. simpl. rewrite app_nil_r. repeat split; auto. Qed.

Lemma extends_setNextID (n : Z) (u : UI) : extends u (setNextID n u) [].
Proof. unfold extends. simpl. rewrite app_nil_r. repeat split; auto. Qed.

Lemma extends_setWaiters (ws : gset Z) (u : UI) : extends u (setWaiters ws (released u) u) [].
Proof. unfold extends. simpl. rewrite app_nil_r. repeat split; auto. Qed.

Lemma extends_removeSyncWaiter (id : Z) (u : UI) : extends u (removeSyncWaiter id u) [].
Proof.
  unfold removeSyncWaiter. destruct (id =? 0);
    [apply extends_refl | apply extends_setWaiters].
Qed.

Lemma send_extends (e : Event) (u u' : UI) :
  send e u = Some u' ->
  extends u u' [e] /\ nextID u' = nextID u /\ buf u' = buf u.
Proof.
  unfold send. destruct (Nat.ltb _ _); [|discriminate]. intros [= <-].
  unfold extends. simpl. repeat split; auto.
Qed.

Ltac ui_same lem :=
  exists []; split;
  [ apply lem
  | repeat split; auto; try apply Forall_nil_2; try (intros; congruence) ].

(** An emit sends its event or drops it. *)
Lemma emit_extends (e : Event) (u u' : UI) :
  emit e u = Some u' ->
  exists l, extends u u' l /\ (l = [] \/ l = [e])
            /\ nextID u' = nextID u /\ buf u' = buf u
            /\ (closed u = false -> isOff (mode u) = false -> closeCh u = false -> l = [e]).
Proof.
  unfold emit. intros H.
  destruct (closed u); [injection H as <-; ui_same extends_refl|].
  destruct (isOff (mode u)); [injection H as <-; ui_same extends_refl|].
  destruct (closeCh u); [injection H as <-; ui_same extends_refl|].
  exists [e]. destruct (send_extends _ _ _ H) as (H1 & H2 & H3).
  split; [exact H1 | repeat split; auto].
Qed.

Lemma emitForced_extends (e : Event) (u u' : UI) :
  emitForced e u = Some u' ->
  exists l, extends u u' l /\ (l = [] \/ l = [e])
            /\ nextID u' = nextID u /\ buf u' = buf u.
Proof.
  unfold emitForced. intros H.
  destruct (isOff (mode u)); [injection H as <-; ui_same extends_refl|].
  destruct (closeCh u); [injection H as <-; ui_same extends_refl|].
  exists [e]. destruct (send_extends _ _ _ H) as (H1 & H2 & H3).
  split; [exact H1 | repeat split; auto].
Qed.

Lemma allNotSync_one (l : list Event) (e : Event) :
  l = [] \/ l = [e] -> isSync e = false -> allNotSync l.
Proof.
  intros [-> | ->] He; [apply Forall_nil_2 | apply Forall_cons_2; [exact He | apply Forall_nil_2]].
Qed.

(** The flush of the partial line empties the buffer and sends the line, if
    there is one, through [emit]. *)
Lemma flushLine_emit (u u' : UI) :
  flushLine emit u = Some u' ->
  exists l, extends u u' l /\ allNotSync l /\ nextID u' = nextID u /\ buf u' = ""
            /\ (closed u = false -> isOff (mode u) = false -> closeCh u = false ->
                l = if String.eqb (TrimSuffixCR (buf u)) "" then []
                    else [printLines [TrimSuffixCR (buf u)]]).
Proof.
  unfold flushLine, drainBufferedLine.
  destruct (String.eqb (TrimSuffixCR (buf u)) "").
  - intros [= <-]. ui_same extends_setBuf.
  - intros H. destruct (emit_extends _ _ _ H) as (l & Hl & Hc & Hid & Hb & Hs).
    exists l. split; [|split; [|split; [|split]]].
    + exact (extends_trans _ _ _ [] l (extends_setBuf "" u) Hl).
    + apply (allNotSync_one _ _ Hc). reflexivity.
    + exact Hid.
    + exact Hb.
    + exact Hs.
Qed.

Lemma flushLine_emitForced (u u' : UI) :
  flushLine emitForced u = Some u' ->
  exists l, extends u u' l /\ allNotSync l /\ nextID u' = nextID u.
Proof.
  unfold flushLine, drainBufferedLine.
  destruct (String.eqb (TrimSuffixCR (buf u)) "").
  - intros [= <-]. ui_same extends_setBuf.
  - intros H. destruct (emitForced_extends _ _ _ H) as (l & Hl & Hc & Hid & Hb).
    exists l. split; [|split].
    + exact (extends_trans _ _ _ [] l (extends_setBuf "" u) Hl).
    + apply (allNotSync_one _ _ Hc). reflexivity.
    + exact Hid.
Qed.

Lemma Write_extends (p : string) (u u' : UI) :
  Write p u = Some u' ->
  exists l, extends u u' l /\ allNotSync l /\ nextID u' = nextID u.
Proof.
  unfold Write.
  destruct (closed u || isOff (mode u)).
  { intros [= <-]. ui_same extends_refl. }
  destruct (writeBytes p (buf u) []) as [lines b].
  destruct lines as [|x lines].
  - intros [= <-]. ui_same extends_setBuf.
  - intros H. destruct (emit_extends _ _ _ H) as (l & Hl & Hc & Hid & _).
    exists l. split; [|split].
    + exact (extends_trans _ _ _ [] l (extends_setBuf b u) Hl).
    + apply (allNotSync_one _ _ Hc). reflexivity.
    + exact Hid.
Qed.

Lemma Group_extends (u u' : UI) :
  Group u = Some u' ->
  exists l, extends u u' l /\ allNotSync l
            /\ (nextID u' = nextID u \/ nextID u' = addID u).
Proof.
  unfold Group. destruct (closed u).
  { intros [= <-]. ui_same extends_refl. }
  intros H. destruct (emit_extends _ _ _ H) as (l & Hl & Hc & Hid & _).
  exists l. split; [|split].
  - exact (extends_trans _ _ _ [] l (extends_setNextID _ u) Hl).
  - apply (allNotSync_one _ _ Hc). reflexivity.
  - right. exact Hid.
Qed.

Lemma nextID_removeSyncWaiter (id : Z) (u : UI) :
  nextID (removeSyncWaiter id u) = nextID u.
Proof. unfold removeSyncWaiter. destruct (id =? 0); reflexivity. Qed.

Lemma SyncLeave_extends (id : Z) (u u' : UI) :
  SyncLeave id u = Some u' ->
  extends u u' [] /\ nextID u' = nextID u
  /\ (id ∈ released u \/ doneCh u = true \/ closeCh u = true).
Proof.
  unfold SyncLeave.
  destruct (bool_decide (id ∈ released u)) eqn:E1; simpl.
  - intros [= <-]. apply bool_decide_eq_true in E1.
    split; [apply extends_removeSyncWaiter|].
    split; [apply nextID_removeSyncWaiter | auto].
  - destruct (doneCh u) eqn:E2; simpl.
    + intros [= <-]. split; [apply extends_removeSyncWaiter|].
      split; [apply nextID_removeSyncWaiter | auto].
    + destruct (closeCh u) eqn:E3; [|discriminate].
      intros [= <-]. split; [apply extends_removeSyncWaiter|].
      split; [apply nextID_removeSyncWaiter | auto].
Qed.

(** A Sync that returns from its head found the UI closed or off. *)
Lemma SyncEnter_return (u u' : UI) :
  SyncEnter u = EnterReturn u' ->
  (closed u = true \/ isOff (mode u) = true \/ closeCh u = true)
  /\ exists l, extends u u' l /\ allNotSync l
               /\ (nextID u' = nextID u \/ nextID u' = addID u).
Proof.
  unfold SyncEnter.
  destruct (closed u) eqn:Ec; simpl.
  { intros [= <-]. split; [auto|]. ui_same extends_refl. }
  destruct (isOff (mode u)) eqn:Eo.
  { intros [= <-]. split; [auto|]. ui_same extends_refl. }
  destruct (flushLine emit u) as [u1|] eqn:Ef; [|discriminate].
  destruct (flushLine_emit _ _ Ef) as (l & Hl & Hn & Hid & _).
  cbn [closeCh setWaiters setNextID].
  destruct (closeCh u1) eqn:Ecl.
  - intros [= <-]. split.
    + right. right. destruct Hl as (_ & _ & <- & _). exact Ecl.
    + exists l. split; [|split; [exact Hn|]].
      * rewrite <- (app_nil_r l). apply (extends_trans _ _ _ _ _ Hl).
        rewrite <- (app_nil_r []). apply (extends_trans _ (setNextID (addID u1) u1) _ [] []).
        { apply extends_setNextID. }
        rewrite <- (app_nil_r []).
        apply (extends_trans _ (setWaiters ({[addID u1]} ∪ syncWaiters u1) (released u1)
                                  (setNextID (addID u1) u1)) _ [] []).
        { apply (extends_setWaiters _ (setNextID (addID u1) u1)). }
        apply extends_removeSyncWaiter.
      * right. rewrite nextID_removeSyncWaiter. unfold addID. rewrite Hid. reflexivity.
  - destruct (send _ _); discriminate.
Qed.

(** A Sync that waits has sent the partial line, if any, and then its sync
    event, under a new id. *)
Lemma SyncEnter_wait (id : Z) (u u' : UI) :
  SyncEnter u = EnterWait id u' ->
  closed u = false /\ id = addID u /\ nextID u' = id /\ buf u' = ""
  /\ exists l, extends u u' (l ++ [syncEvent id]) /\ allNotSync l
               /\ l = if String.eqb (TrimSuffixCR (buf u)) "" then []
                      else [printLines [TrimSuffixCR (buf u)]].
Proof.
  unfold SyncEnter.
  destruct (closed u) eqn:Ec; simpl; [discriminate|].
  destruct (isOff (mode u)) eqn:Eo; [discriminate|].
  destruct (flushLine emit u) as [u1|] eqn:Ef; [|discriminate].
  destruct (flushLine_emit _ _ Ef) as (l & Hl & Hn & Hid & Hb & Hline).
  cbn [closeCh setWaiters setNextID].
  destruct (closeCh u1) eqn:Ecl; [discriminate|].
  destruct (send _ _) as [u2|] eqn:Es; [|discriminate].
  intros [= <- <-].
  destruct (send_extends _ _ _ Es) as (H1 & H2 & H3).
  assert (Hcl : closeCh u = false) by (destruct Hl as (_ & _ & <- & _); exact Ecl).
  split; [reflexivity|]. split; [unfold addID; rewrite Hid; reflexivity|].
  split; [exact H2|]. split; [rewrite H3; exact Hb|].
  exists l. split; [|split; [exact Hn | exact (Hline Ec Eo Hcl)]].
  apply (extends_trans _ _ _ _ _ Hl).
  rewrite <- (app_nil_l [syncEvent (addID u1)]).
  apply (extends_trans _ (setWaiters ({[addID u1]} ∪ syncWaiters u1) (released u1)
                            (setNextID (addID u1) u1)) _ [] _); [|exact H1].
  rewrite <- (app_nil_r []). apply (extends_trans _ (setNextID (addID u1) u1) _ [] []).
  - apply extends_setNextID.
  - apply (extends_setWaiters _ (setNextID (addID u1) u1)).
Qed.

(* --------------------------------------------------------------------- *)
(** ** The progress UI: the invariant *)
(* --------------------------------------------------------------------- *)

Lemma addID_small (n : nat) (u : UI) :
  0 <= nextID u <= Z.of_nat n -> Z.of_nat (S n) < 2 ^ 64 -> addID u = nextID u + 1.
Proof. intros H Hn. unfold addID. apply Z.mod_small. lia. Qed.

Lemma grows_refl (s : Sys) : grows s s.
Proof. split; [exists []; rewrite app_nil_r; reflexivity | repeat split; auto]. Qed.

Lemma grows_trans (s1 s2 s3 : Sys) : grows s1 s2 -> grows s2 s3 -> grows s1 s3.
Proof.
  intros ([l1 H1] & A1 & C1 & D1) ([l2 H2] & A2 & C2 & D2). split; [|repeat split].
  - exists (l1 ++ l2). rewrite H2, H1, app_assoc. reflexivity.
  - auto.
  - auto.
  - auto.
Qed.

Lemma Inv_mono (n m : nat) (s : Sys) : Inv n s -> (n <= m)%nat -> Inv m s.
Proof. intros [] Hnm. constructor; auto. lia. Qed.

Lemma Inv_New (opts : Options) : actualMode opts = ModePlain -> Inv 0 (New opts).
Proof.
  intros Hm. unfold New. rewrite Hm.
  constructor; simpl; intros;
    repeat match goal with
           | H : _ \/ _ |- _ => destruct H
           | H : ∅ !! _ = Some _ |- _ => rewrite lookup_empty in H
           | H : _ ∈ ∅ |- _ => apply elem_of_empty in H; destruct H
           | H : (if ?b then _ else _) = Some _ |- _ => destruct b
           end;
    try (discriminate || reflexivity || lia || congruence).
Qed.

(** A step that only sends events that are no sync events, and may move
    the controller along. *)
Lemma Inv_ui_step (n : nat) (s : Sys) (u' : UI) (l : list Event)
    (c : Closer) (c' : Controller) (port' : bool) :
  Inv n s -> Z.of_nat (S n) < 2 ^ 64 ->
  extends (ui s) u' l -> allNotSync l ->
  nextID u' = nextID (ui s) \/ nextID u' = addID (ui s) ->
  (c <> CloseNone -> closed u' = true) ->
  (forall id m, c' = CtlSyncing id m ->
                exists k, syncAt s !! id = Some k /\ (m <= k)%nat) ->
  (forall m, c' = CtlSynced m \/ c' = CtlReady m ->
             closed u' = true \/ (m <= length (handled s))%nat) ->
  (port' = true -> exists m, c' = CtlReady m) ->
  (forall m, ctlMark (ctl s) = Some m -> ctlMark c' = Some m) ->
  let s' := {| ui := u'; engine := engine s; closer := c; ctl := c';
               portFile := port'; handled := handled s; syncAt := syncAt s |} in
  Inv (S n) s' /\ grows s s'.
Proof.
  intros [] Hn (E1 & E2 & E3 & E4 & E5 & E6 & E7 & E8) Hl Hid Hc Hw Hd Hp Hm s'.
  assert (Hsent : sentOf s' = sentOf s ++ l).
  { unfold sentOf, s'. simpl. rewrite E8, app_assoc. reflexivity. }
  assert (Hnext : nextID (ui s) <= nextID u' <= Z.of_nat (S n)).
  { destruct Hid as [-> | ->]; [lia|].
    rewrite (addID_small n) by (assumption || lia). lia. }
  split;
    [|split; [exists l; exact Hsent | repeat split; auto; simpl; rewrite E2; auto]].
  constructor; unfold s'; simpl; try rewrite ?E1, ?E2, ?E3, ?E4, ?E5, ?E6, ?E7; auto.
  - lia.
  - intros id k H. specialize (inv_at_id0 _ _ H). lia.
  - intros k e H He. unfold s' in Hsent. rewrite Hsent in H.
    apply lookup_app_Some in H as [H | [_ H]]; [eauto|].
    apply list_elem_of_lookup_2 in H. unfold allNotSync in Hl. rewrite Forall_forall in Hl.
    rewrite (Hl _ H) in He. discriminate.
  - intros H. rewrite <- E2. auto.
  - intros m H. rewrite <- E2. auto.
Qed.

(** A Sync that waits: its sync event goes last, under a fresh id. *)
Lemma Inv_sync_step (n : nat) (s : Sys) (id : Z) (u' : UI) (l : list Event)
    (c' : Controller) :
  Inv n s -> Z.of_nat (S n) < 2 ^ 64 ->
  id = addID (ui s) -> nextID u' = id ->
  extends (ui s) u' (l ++ [syncEvent id]) -> allNotSync l ->
  c' = ctl s
  \/ (exists m, ctl s = CtlStarting /\ c' = CtlSyncing id m
                /\ (m <= length (sentOf s) + length l)%nat) ->
  let s' := {| ui := u'; engine := engine s; closer := closer s; ctl := c';
               portFile := portFile s; handled := handled s;
               syncAt := <[id := lastSent (handled s) u']> (syncAt s) |} in
  Inv (S n) s' /\ grows s s'
  /\ syncAt s' !! id = Some (length (sentOf s) + length l)%nat.
Proof.
  intros [] Hn Hid Hnext (E1 & E2 & E3 & E4 & E5 & E6 & E7 & E8) Hl Hc s'.
  rewrite (addID_small n) in Hid by (assumption || lia).
  assert (Hlast : lastSent (handled s) u' = (length (sentOf s) + length l)%nat).
  { unfold lastSent, sentOf. rewrite E8, !length_app. simpl. lia. }
  assert (Hfresh : forall id' k, syncAt s !! id' = Some k -> id' <> id).
  { intros id' k H. specialize (inv_at_id0 _ _ H). lia. }
  assert (Hsent : sentOf s' = sentOf s ++ l ++ [syncEvent id]).
  { unfold sentOf, s'. simpl. rewrite E8, app_assoc. reflexivity. }
  assert (Hat : syncAt s' !! id = Some (length (sentOf s) + length l)%nat).
  { unfold s'. simpl. rewrite lookup_insert_eq, Hlast. reflexivity. }
  split; [|split; [split; [|split; [|split]]|exact Hat]].
  - constructor; unfold s'; simpl; try rewrite ?E1, ?E2, ?E3, ?E4, ?E5, ?E6, ?E7; auto.
    + lia.
    + intros id' k H. destruct (decide (id' = id)) as [->|Hne]; [lia|].
      rewrite lookup_insert_ne in H by congruence.
      specialize (inv_at_id0 _ _ H). lia.
    + intros k e H He. unfold s' in Hsent. rewrite Hsent in H.
      apply lookup_app_Some in H as [H | [Hk H]].
      * rewrite lookup_insert_ne by (apply not_eq_sym; apply (Hfresh _ k); eauto). eauto.
      * apply lookup_app_Some in H as [H | [Hk' H]].
        -- apply list_elem_of_lookup_2 in H. unfold allNotSync in Hl.
           rewrite Forall_forall in Hl. rewrite (Hl _ H) in He. discriminate.
        -- destruct (k - length (sentOf s) - length l)%nat eqn:Ek; [|discriminate].
           injection H as <-. simpl. rewrite lookup_insert_eq, Hlast. f_equal. lia.
    + intros id' H. destruct (inv_released0 _ H) as (k & Hk & Hlt).
      exists k. split; [|exact Hlt].
      rewrite lookup_insert_ne by (apply not_eq_sym; apply (Hfresh _ k); exact Hk).
      exact Hk.
    + intros id' m ->. destruct Hc as [Hc | (m0 & _ & Hc & Hm0)].
      * destruct (inv_ctl_wait0 _ _ (eq_sym Hc)) as (k & Hk & Hle).
        exists k. split; [|exact Hle].
        rewrite lookup_insert_ne by (apply not_eq_sym; apply (Hfresh _ k); exact Hk).
        exact Hk.
      * injection Hc as -> ->. exists (length (sentOf s) + length l)%nat.
        split; [rewrite lookup_insert_eq, Hlast; reflexivity | lia].
    + intros m Hm. destruct Hc as [-> | (m0 & _ & -> & _)]; [auto | destruct Hm; discriminate].
    + intros Hp. destruct (inv_port0 Hp) as [m Hm].
      destruct Hc as [-> | (m0 & Hc & _)]; [eauto | congruence].
  - exists (l ++ [syncEvent id]). exact Hsent.
  - intros id' k H. unfold s'. simpl.
    rewrite lookup_insert_ne by (apply not_eq_sym; apply (Hfresh _ k); exact H). exact H.
  - intros m Hm. unfold s'. simpl.
    destruct Hc as [-> | (m0 & Hc & _)]; [exact Hm | rewrite Hc in Hm; discriminate].
  - unfold s'. simpl. rewrite E2. auto.
Qed.

Lemma processPlainEvent_spec (e : Event) (u : UI) :
  mode (processPlainEvent e u) = mode u
  /\ closed (processPlainEvent e u) = closed u
  /\ closeCh (processPlainEvent e u) = closeCh u
  /\ doneCh (processPlainEvent e u) = doneCh u
  /\ nextID (processPlainEvent e u) = nextID u
  /\ eventsCh (processPlainEvent e u) = eventsCh u
  /\ eventLog (processPlainEvent e u)
     = (if isSync e then eventLog u else (fun log => log ++ [e]) <$> eventLog u)
  /\ rendered (processPlainEvent e u)
     = (if isSync e then rendered u else rendered u ++ [e])
  /\ (forall id, id ∈ released (processPlainEvent e u) ->
                 id ∈ released u \/ (isSync e = true /\ id = SyncID e)).
Proof.
  unfold processPlainEvent. destruct (isSync e); simpl.
  - unfold fulfillSync. destruct (SyncID e =? 0); [repeat split; auto|].
    destruct (bool_decide (SyncID e ∈ syncWaiters u)); simpl; repeat split; auto.
    intros id H. apply elem_of_union in H as [H | H]; [|auto].
    apply elem_of_singleton in H. auto.
  - unfold eventLogWrite. destruct (eventLog u) eqn:E; simpl; rewrite ?E; repeat split; auto.
Qed.

(** The engine takes the oldest event off the channel. *)
Lemma Inv_engine_recv (n : nat) (s : Sys) (e : Event) (q : list Event) :
  Inv n s -> eventsCh (ui s) = e :: q ->
  let s' := setEngine (processPlainEvent e (setEventsCh q (ui s))) (engine s)
              (handled s ++ [e]) s in
  Inv n s' /\ grows s s'.
Proof.
  intros [] Hq s'.
  destruct (processPlainEvent_spec e (setEventsCh q (ui s)))
    as (P1 & P2 & P3 & P4 & P5 & P6 & P7 & P8 & P9).
  simpl in P1, P2, P3, P4, P5, P6, P7, P8, P9.
  assert (Hsent : sentOf s' = sentOf s).
  { unfold sentOf, s'. simpl. rewrite P6, Hq, <- app_assoc. reflexivity. }
  assert (Hhere : sentOf s !! length (handled s) = Some e).
  { unfold sentOf. rewrite Hq, lookup_app_r by lia. rewrite Nat.sub_diag. reflexivity. }
  assert (Hfilter : List.filter notSync (handled s ++ [e])
                    = List.filter notSync (handled s) ++ (if isSync e then [] else [e])).
  { rewrite List.filter_app. simpl. unfold notSync at 2. destruct (isSync e); reflexivity. }
  split.
  - constructor; unfold s'; simpl; rewrite ?P1, ?P2, ?P3, ?P4, ?P5; auto.
    + intros k e' H He'. unfold s' in Hsent. rewrite Hsent in H. eauto.
    + intros id H. rewrite length_app. simpl.
      destruct (P9 _ H) as [Hold | [He ->]].
      * destruct (inv_released0 _ Hold) as (k & Hk & Hlt). exists k. split; [exact Hk | lia].
      * exists (length (handled s)). split; [eauto | lia].
    + intros log. rewrite P7, Hfilter. destruct (isSync e).
      * rewrite app_nil_r. auto.
      * destruct (eventLog (ui s)) as [log0|]; simpl; [|discriminate].
        intros [= <-]. rewrite (inv_log0 log0 eq_refl). reflexivity.
    + rewrite P8, Hfilter, inv_rendered0. destruct (isSync e); [rewrite app_nil_r|]; reflexivity.
    + intros m Hm. destruct (inv_ctl_done0 m Hm) as [H | H]; [auto|].
      right. rewrite length_app. lia.
  - split; [exists []; rewrite app_nil_r; exact Hsent | repeat split; auto].
    unfold s'. simpl. rewrite P2. auto.
Qed.

Lemma Inv_ui_same (n : nat) (s : Sys) (u' : UI) (l : list Event) (c : Closer) :
  Inv n s -> Z.of_nat (S n) < 2 ^ 64 ->
  extends (ui s) u' l -> allNotSync l ->
  nextID u' = nextID (ui s) \/ nextID u' = addID (ui s) ->
  c = closer s \/ closed (ui s) = true ->
  Inv (S n) (setCloser u' c s) /\ grows s (setCloser u' c s).
Proof.
  intros HI Hn He Hl Hid Hc.
  assert (E2 : closed u' = closed (ui s)) by (destruct He as (_ & E2 & _); exact E2).
  apply (Inv_ui_step n s u' l c (ctl s) (portFile s)); auto.
  - intros Hne. rewrite E2. destruct Hc as [-> | Hc]; [|exact Hc].
    apply (inv_closer _ _ HI). exact Hne.
  - intros id m H. apply (inv_ctl_wait _ _ HI). exact H.
  - intros m H. rewrite E2. apply (inv_ctl_done _ _ HI). exact H.
  - apply (inv_port _ _ HI).
Qed.

(** Every step keeps the invariant. *)
Lemma Inv_step (n : nat) (a : Action) (s s' : Sys) :
  Inv n s -> Z.of_nat (S n) < 2 ^ 64 -> step a s = Some s' ->
  Inv (S n) s' /\ grows s s'.
Proof.
  intros HI Hn Hs. unfold step in Hs. destruct a.
  - (* AEmit *)
    destruct (isSync e) eqn:He; [discriminate|].
    destruct (emit e (ui s)) as [u'|] eqn:E; simpl in Hs; [|discriminate].
    injection Hs as <-. destruct (emit_extends _ _ _ E) as (l & Hl & Hc & Hid & _).
    apply (Inv_ui_same n s u' l (closer s)); auto.
    apply (allNotSync_one _ _ Hc He).
  - (* AGroup *)
    destruct (Group (ui s)) as [u'|] eqn:E; simpl in Hs; [|discriminate].
    injection Hs as <-. destruct (Group_extends _ _ E) as (l & Hl & Hc & Hid).
    apply (Inv_ui_same n s u' l (closer s)); auto.
  - (* AWrite *)
    destruct (Write p (ui s)) as [u'|] eqn:E; simpl in Hs; [|discriminate].
    injection Hs as <-. destruct (Write_extends _ _ _ E) as (l & Hl & Hc & Hid).
    apply (Inv_ui_same n s u' l (closer s)); auto.
  - (* ASync *)
    destruct (SyncEnter (ui s)) as [u'|id u'|] eqn:E; [| |discriminate].
    + injection Hs as <-. destruct (SyncEnter_return _ _ E) as (_ & l & Hl & Hc & Hid).
      apply (Inv_ui_same n s u' l (closer s)); auto.
    + injection Hs as <-.
      destruct (SyncEnter_wait _ _ _ E) as (_ & Hid & Hnext & _ & l & Hl & Hc & _).
      destruct (Inv_sync_step n s id u' l (ctl s) HI Hn Hid Hnext Hl Hc (or_introl eq_refl))
        as (H1 & H2 & _).
      split; assumption.
  - (* ASyncReturn *)
    destruct (SyncLeave id (ui s)) as [u'|] eqn:E; simpl in Hs; [|discriminate].
    injection Hs as <-. destruct (SyncLeave_extends _ _ _ E) as (Hl & Hid & _).
    apply (Inv_ui_same n s u' [] (closer s)); auto. apply Forall_nil_2.
  - (* ACloseFlag *)
    destruct (closed (ui s)) eqn:Ec.
    + injection Hs as <-. split; [apply (Inv_mono n); [exact HI | lia] | apply grows_refl].
    + injection Hs as <-. destruct HI. split.
      * constructor; simpl; auto. lia.
      * split; [exists []; rewrite app_nil_r; reflexivity | repeat split; auto].
  - (* ACloseFlush *)
    destruct (closer s) eqn:Ecl; try discriminate.
    destruct (flushLine emitForced (ui s)) as [u'|] eqn:E; simpl in Hs; [|discriminate].
    injection Hs as <-. destruct (flushLine_emitForced _ _ E) as (l & Hl & Hc & Hid).
    apply (Inv_ui_same n s u' l CloseFlushed); auto.
    right. apply (inv_closer _ _ HI). rewrite Ecl. discriminate.
  - (* ACloseSignal *)
    destruct (closer s) eqn:Ecl; try discriminate.
    injection Hs as <-.
    assert (Hc : closed (ui s) = true) by (apply (inv_closer _ _ HI); rewrite Ecl; discriminate).
    destruct HI. split.
    + constructor; simpl; auto. lia.
    + split; [exists []; rewrite app_nil_r; reflexivity | repeat split; auto].
  - (* AEngineRecv *)
    destruct (engine s) eqn:Eg; try discriminate;
      destruct (eventsCh (ui s)) as [|e q] eqn:Eq; try discriminate;
      injection Hs as <-; rewrite <- Eg;
      destruct (Inv_engine_recv n s e q HI Eq) as [H1 H2];
      (split; [apply (Inv_mono n); [exact H1 | lia] | exact H2]).
  - (* AEngineClose *)
    destruct (engine s) eqn:Eg; try discriminate.
    destruct (closeCh (ui s)) eqn:Ec; [|discriminate].
    injection Hs as <-. destruct HI. split.
    + constructor; simpl; auto. lia.
    + split; [exists []; rewrite app_nil_r; reflexivity | repeat split; auto].
  - (* AEngineExit *)
    destruct (engine s) eqn:Eg; try discriminate.
    destruct (eventsCh (ui s)) as [|e q] eqn:Eq; [|discriminate].
    injection Hs as <-.
    assert (Hc : closeCh (ui s) = true) by (apply (inv_engine _ _ HI); auto).
    destruct HI. split.
    + constructor; simpl; auto. lia.
    + split; [exists []; unfold sentOf; simpl; rewrite app_nil_r; reflexivity
             | repeat split; auto].
  - (* ACtlSync *)
    destruct (ctl s) eqn:Ectl; try discriminate.
    destruct (SyncEnter (ui s)) as [u'|id u'|] eqn:E; [| |discriminate].
    + injection Hs as <-.
      destruct (SyncEnter_return _ _ E) as (Hwhy & l & Hl & Hc & Hid).
      assert (Hclosed : closed (ui s) = true).
      { destruct Hwhy as [H | [H | H]]; [exact H | | apply (inv_closeCh _ _ HI); exact H].
        rewrite (inv_mode _ _ HI) in H. discriminate. }
      assert (E2 : closed u' = closed (ui s)) by (destruct Hl as (_ & E2 & _); exact E2).
      apply (Inv_ui_step n s u' l (closer s)
               (CtlSynced (length (sentOf s) + length (pendingLine (ui s)))) (portFile s));
        auto.
      * intros Hne. rewrite E2. exact Hclosed.
      * discriminate.
      * intros m _. left. rewrite E2. exact Hclosed.
      * intros Hp. destruct (inv_port _ _ HI Hp) as [m Hm]. congruence.
      * rewrite Ectl. discriminate.
    + injection Hs as <-.
      destruct (SyncEnter_wait _ _ _ E) as (_ & Hid & Hnext & _ & l & Hl & Hc & Hline).
      assert (Hmark : (length (sentOf s) + length (pendingLine (ui s))
                       <= length (sentOf s) + length l)%nat)
        by (unfold pendingLine; rewrite <- Hline; lia).
      destruct (Inv_sync_step n s id u' l
                  (CtlSyncing id (length (sentOf s) + length (pendingLine (ui s))))
                  HI Hn Hid Hnext Hl Hc
                  (or_intror (ex_intro _ _ (conj Ectl (conj eq_refl Hmark)))))
        as (H1 & H2 & _).
      split; assumption.
  - (* ACtlSyncReturn *)
    destruct (ctl s) as [|id mark| |] eqn:Ectl; try discriminate.
    destruct (SyncLeave id (ui s)) as [u'|] eqn:E; simpl in Hs; [|discriminate].
    injection Hs as <-. destruct (SyncLeave_extends _ _ _ E) as (Hl & Hid & Hwhy).
    assert (E2 : closed u' = closed (ui s)) by (destruct Hl as (_ & E2 & _); exact E2).
    apply (Inv_ui_step n s u' [] (closer s) (CtlSynced mark) (portFile s)); auto.
    + apply Forall_nil_2.
    + intros Hne. rewrite E2. apply (inv_closer _ _ HI). exact Hne.
    + discriminate.
    + intros m Hm. assert (m = mark) as -> by (destruct Hm as [Hm | Hm]; congruence).
      rewrite E2. destruct Hwhy as [H | [H | H]].
      * right. destruct (inv_released _ _ HI _ H) as (k & Hk & Hlt).
        destruct (inv_ctl_wait _ _ HI _ _ Ectl) as (k' & Hk' & Hle).
        rewrite Hk in Hk'. injection Hk' as <-. lia.
      * left. apply (inv_closeCh _ _ HI). apply (inv_doneCh _ _ HI). exact H.
      * left. apply (inv_closeCh _ _ HI). exact H.
    + intros Hp. destruct (inv_port _ _ HI Hp) as [m Hm]. congruence.
    + rewrite Ectl. simpl. auto.
  - (* ACtlDumpPort *)
    destruct (ctl s) as [| |mark|] eqn:Ectl; try discriminate.
    injection Hs as <-.
    apply (Inv_ui_step n s (ui s) [] (closer s) (CtlReady mark) true); auto.
    + apply extends_refl.
    + apply Forall_nil_2.
    + apply (inv_closer _ _ HI).
    + discriminate.
    + intros m Hm. assert (m = mark) as -> by (destruct Hm as [Hm | Hm]; congruence).
      apply (inv_ctl_done _ _ HI). left. exact Ectl.
    + intros _. eauto.
    + rewrite Ectl. simpl. auto.
Qed.

(** Every run keeps the invariant. *)
Lemma Inv_run (tr : list Action) :
  forall (n : nat) (s s' : Sys),
    Inv n s -> Z.of_nat (n + length tr) < 2 ^ 64 -> run tr s = Some s' ->
    Inv (n + length tr) s' /\ grows s s'.
Proof.
  induction tr as [|a tr IH]; intros n s s' HI Hn Hr.
  - injection Hr as <-. rewrite Nat.add_0_r. split; [exact HI | apply grows_refl].
  - simpl in Hr. destruct (step a s) as [s1|] eqn:Es; simpl in Hr; [|discriminate].
    simpl length in *.
    destruct (Inv_step n a s s1 HI ltac:(lia) Es) as [H1 G1].
    destruct (IH (S n) s1 s' H1 ltac:(lia) Hr) as [H2 G2].
    replace (n + S (length tr))%nat with (S n + length tr)%nat by lia.
    split; [exact H2 | exact (grows_trans _ _ _ G1 G2)].
Qed.

(* --------------------------------------------------------------------- *)
(** ** The progress UI: Sync as a barrier *)
(* --------------------------------------------------------------------- *)

(** Output that the engine has passed is flushed. *)
Lemma passed_flushedOut (n : nat) (s : Sys) (before rest : list Event) :
  Inv n s -> sentOf s = before ++ rest ->
  (length before <= length (handled s))%nat ->
  flushedOut before s.
Proof.
  intros HI Hsent Hlen e He.
  apply list_elem_of_lookup_1 in He as [j Hj].
  assert (Hjlt : (j < length before)%nat) by (apply lookup_lt_Some in Hj; exact Hj).
  assert (Hh : handled s !! j = Some e).
  { assert (H : sentOf s !! j = Some e) by (rewrite Hsent; apply lookup_app_l_Some; exact Hj).
    unfold sentOf in H. rewrite lookup_app_l in H by lia. exact H. }
  assert (Hin : e ∈ handled s) by (apply list_elem_of_lookup_2 in Hh; exact Hh).
  split; [exact Hin|]. intros Hs.
  assert (Hf : e ∈ List.filter notSync (handled s)).
  { apply list_elem_of_In, List.filter_In. split; [apply list_elem_of_In; exact Hin|].
    unfold notSync. rewrite Hs. reflexivity. }
  split.
  - rewrite (inv_rendered _ _ HI). exact Hf.
  - intros log Hlog. rewrite (inv_log _ _ HI _ Hlog). exact Hf.
Qed.

(** What the step of a Sync that waits leaves behind. *)
Lemma sync_step_sent (a : Action) (s0 s1 : Sys) (id : Z) (u1 : UI) :
  a = ASync \/ a = ACtlSync ->
  SyncEnter (ui s0) = EnterWait id u1 -> step a s0 = Some s1 ->
  sentOf s1 = (sentOf s0 ++ pendingLine (ui s0)) ++ [syncEvent id]
  /\ syncAt s1 !! id = Some (length (sentOf s0 ++ pendingLine (ui s0)))
  /\ (a = ACtlSync ->
      ctlMark (ctl s1) = Some (length (sentOf s0 ++ pendingLine (ui s0)))).
Proof.
  intros Ha E Hs.
  destruct (SyncEnter_wait _ _ _ E) as (_ & _ & _ & _ & l & Hl & _ & Hline).
  destruct Hl as (_ & _ & _ & _ & _ & _ & _ & E8).
  fold (pendingLine (ui s0)) in Hline. subst l.
  assert (Hsent : handled s0 ++ eventsCh u1
                  = (sentOf s0 ++ pendingLine (ui s0)) ++ [syncEvent id]).
  { unfold sentOf. rewrite E8, !app_assoc. reflexivity. }
  assert (Hlast : lastSent (handled s0) u1 = length (sentOf s0 ++ pendingLine (ui s0))).
  { unfold lastSent. rewrite <- length_app, Hsent, length_app. simpl. lia. }
  unfold step in Hs. destruct Ha as [-> | ->].
  - rewrite E in Hs. injection Hs as <-. unfold sentOf at 1. simpl.
    rewrite lookup_insert_eq, Hlast. repeat split; auto. discriminate.
  - destruct (ctl s0); try discriminate. rewrite E in Hs. injection Hs as <-.
    unfold sentOf at 1. simpl. rewrite lookup_insert_eq, Hlast, length_app.
    repeat split; auto.
Qed.

(** C5, as the code has it, for the plain engine. A caller enters Sync in
    the state [s0] of a plain UI and the run goes on to a state [s] in which
    the UI is not closed. If Sync returns to that caller in [s], or if the
    caller is the controller and the Port record exists in [s], then the
    output before the call is flushed in [s]: the engine has taken every
    event sent before the call, and the buffered partial line, and has
    rendered them and written them to the event log. And while the UI is
    not closed no Sync returns from its head, without the barrier. *)
Theorem Sync_barrier (opts : Options) (tr1 tr2 : list Action) (a : Action)
    (s0 s1 s : Sys) :
  actualMode opts = ModePlain ->
  Z.of_nat (length tr1 + 1 + length tr2) < 2 ^ 64 ->
  run tr1 (New opts) = Some s0 -> step a s0 = Some s1 -> run tr2 s1 = Some s ->
  closed (ui s) = false ->
  (a = ASync ->
   forall id u1 u', SyncEnter (ui s0) = EnterWait id u1 ->
                    SyncLeave id (ui s) = Some u' ->
                    flushedOut (sentOf s0 ++ pendingLine (ui s0)) s)
  /\ (a = ACtlSync -> portFile s = true ->
      flushedOut (sentOf s0 ++ pendingLine (ui s0)) s)
  /\ (forall u', SyncEnter (ui s) <> EnterReturn u').
Proof.
  intros Hmode Hn Hr1 Hstep Hr2 Hopen.
  destruct (Inv_run tr1 0 _ _ (Inv_New _ Hmode) ltac:(simpl; lia) Hr1) as [HI0 _].
  destruct (Inv_step _ a _ _ HI0 ltac:(simpl; lia) Hstep) as [HI1 G1].
  destruct (Inv_run tr2 _ _ _ HI1 ltac:(simpl; lia) Hr2) as [HI G2].
  destruct G2 as ([l2 Hsent2] & Hat2 & Hmark2 & Hclosed2).
  split; [|split].
  - intros -> id u1 u' E Hleave.
    destruct (sync_step_sent ASync _ _ _ _ (or_introl eq_refl) E Hstep) as (Hsent1 & Hat1 & _).
    destruct (SyncLeave_extends _ _ _ Hleave) as (_ & _ & [Hrel | [Hdone | Hcl]]).
    + destruct (inv_released _ _ HI _ Hrel) as (k & Hk & Hlt).
      rewrite (Hat2 _ _ Hat1) in Hk. injection Hk as <-.
      apply (passed_flushedOut _ s _ ([syncEvent id] ++ l2) HI); [|lia].
      rewrite Hsent2, Hsent1, <- !app_assoc. reflexivity.
    + rewrite (inv_closeCh _ _ HI (inv_doneCh _ _ HI Hdone)) in Hopen. discriminate.
    + rewrite (inv_closeCh _ _ HI Hcl) in Hopen. discriminate.
  - intros -> Hport.
    assert (Hstep' := Hstep). unfold step in Hstep'.
    destruct (ctl s0) eqn:Ectl; try discriminate.
    destruct (SyncEnter (ui s0)) as [u1|id u1|] eqn:E; [| |discriminate].
    + injection Hstep' as <-.
      destruct (SyncEnter_return _ _ E) as (Hwhy & l & Hl & _).
      assert (Hc0 : closed (ui s0) = true).
      { destruct Hwhy as [H | [H | H]]; [exact H | | apply (inv_closeCh _ _ HI0); exact H].
        rewrite (inv_mode _ _ HI0) in H. discriminate. }
      destruct Hl as (_ & E2 & _). simpl in Hclosed2.
      rewrite Hclosed2 in Hopen by (rewrite E2; exact Hc0). discriminate.
    + clear Hstep'.
      destruct (sync_step_sent ACtlSync _ _ _ _ (or_intror eq_refl) E Hstep)
        as (Hsent1 & _ & Hm1).
      destruct (inv_port _ _ HI Hport) as [m Hm].
      pose proof (Hmark2 _ (Hm1 eq_refl)) as Hms. rewrite Hm in Hms. injection Hms as ->.
      destruct (inv_ctl_done _ _ HI _ (or_intror Hm)) as [Hc | Hlen];
        [rewrite Hc in Hopen; discriminate|].
      apply (passed_flushedOut _ s _ ([syncEvent id] ++ l2) HI); [|exact Hlen].
      rewrite Hsent2, Hsent1, <- !app_assoc. reflexivity.
  - intros u' E. destruct (SyncEnter_return _ _ E) as ([H | [H | H]] & _).
    + rewrite H in Hopen. discriminate.
    + rewrite (inv_mode _ _ HI) in H. discriminate.
    + rewrite (inv_closeCh _ _ HI H) in Hopen. discriminate.
Qed.

Lemma Sync_barrier_witness :
  flushedOut [printLines ["hello"]; printLines ["par"]]
    (after drained (after [ASync] (after banner (New daemonOptions)))).
Proof.
  refine (proj1 (Sync_barrier daemonOptions banner drained ASync
                   (after banner (New daemonOptions))
                   (after [ASync] (after banner (New daemonOptions)))
                   (after drained (after [ASync] (after banner (New daemonOptions))))
                   _ _ _ _ _ _) eq_refl 1
            (ui (after [ASync] (after banner (New daemonOptions))))
            (removeSyncWaiter 1
               (ui (after drained (after [ASync] (after banner (New daemonOptions))))))
            _ _).
  - reflexivity.
  - vm_compute. reflexivity.
  - vm_compute. reflexivity.
  - vm_compute. reflexivity.
  - vm_compute. reflexivity.
  - vm_compute. reflexivity.
  - vm_compute. reflexivity.
  - vm_compute. reflexivity.
Defined.

(** C5, as stated, fails: a line is written, the caller of Close sets the
    closed flag, and a Sync entered now returns at once, while the event of
    the line is still on the channel: the engine has not taken it and the
    event log is empty. *)
Lemma Sync_returns_unflushed_when_closed :
  exists s,
    run [AWrite ("hello" +:+ newline); ACloseFlag] (New daemonOptions) = Some s
    /\ SyncEnter (ui s) = EnterReturn (ui s)
    /\ sentOf s = [printLines ["hello"]]
    /\ handled s = [] /\ eventLog (ui s) = Some []
    /\ ~ flushedOut (sentOf s) s.
Proof.
  eexists. split; [vm_compute; reflexivity|].
  split; [reflexivity|]. split; [reflexivity|]. split; [reflexivity|].
  split; [reflexivity|].
  intros H. destruct (H (printLines ["hello"])) as [Hin _].
  - apply list_elem_of_here.
  - apply elem_of_nil in Hin. exact Hin.
Qed.

Example ex_port_after_flush :
  portFile (after [ACtlSync; AEngineRecv; AEngineRecv; AEngineRecv; ACtlSyncReturn;
                   ACtlDumpPort] (after banner (New daemonOptions))) = true
  /\ run [ACtlSync; AEngineRecv; AEngineRecv; ACtlSyncReturn]
       (after banner (New daemonOptions)) = None
  /\ run [ACtlDumpPort] (after banner (New daemonOptions)) = None
  /\ eventLog (ui (after drained (after [ACtlSync] (after banner (New daemonOptions)))))
     = Some [printLines ["hello"]; printLines ["par"]].
Proof. vm_compute. repeat split. Qed.

(* --------------------------------------------------------------------- *)
(** ** Stale cleanup: what it leaves alone *)
(* --------------------------------------------------------------------- *)

Lemma Remove_lookup_Some (a p : string) (w : World) (f : File) :
  fs (Remove a w) !! p = Some f -> fs w !! p = Some f.
Proof.
  rewrite fs_Remove. destruct (decide (p = a)) as [->|Hne].
  - rewrite lookup_delete_eq. discriminate.
  - rewrite lookup_delete_ne by congruence. auto.
Qed.

Lemma Remove_lookup_ne (a p : string) (w : World) :
  p <> a -> fs (Remove a w) !! p = fs w !! p.
Proof. intros Hne. rewrite fs_Remove. apply lookup_delete_ne. congruence. Qed.

Lemma Remove_lookup_eq (a : string) (w : World) : fs (Remove a w) !! a = None.
Proof. rewrite fs_Remove. apply lookup_delete_eq. Qed.

(** The three ways the last part of the cleanup ends. *)
Lemma cleanupStalePort_outcome (dataDir : string) (w : World) :
  (exists e, cleanupStalePort dataDir w = (w, Some e))
  \/ cleanupStalePort dataDir w = (w, None)
  \/ cleanupStalePort dataDir w = (Remove (Join dataDir playgroundPortFileName) w, None).
Proof.
  unfold cleanupStalePort.
  destruct (loadPort dataDir w) as [port [err|]].
  - destruct (IsNotExist err); eauto.
  - destruct (port <=? 0); [auto|].
    destruct (probePlaygroundCommandServer probeCtx port w) as [ok probeErr].
    destruct (ok && isNil probeErr); [eauto|].
    destruct (isTimeoutErr probeErr); [eauto|].
    destruct (match probeErr with Some e => IsErrno e ECONNREFUSED | None => false end); auto.
Qed.

Section CleanupFrame.

Variable timeParse : string -> option Z.

#[local] Abbreviation readPIDFile := (readPIDFile timeParse).
#[local] Abbreviation cleanupStaleRuntimeFiles := (cleanupStaleRuntimeFiles timeParse).

(** A read of the PID record that fails with "not exist" found no file. *)
Lemma readPIDFile_notExist (path : string) (w : World) (r : pidFile) (e : error) :
  readPIDFile path w = (r, Some e) -> IsNotExist e = true -> fs w !! path = None.
Proof.
  unfold readPIDFile, ReadFile. destruct (fs w !! path) as [f|]; [|reflexivity].
  unfold parsePIDFile. intros H Hne.
  rewrite (readPIDLines_error timeParse _ _ _ _ _ H) in Hne. discriminate.
Qed.

(** The four ways the cleanup ends: an error and nothing done; nothing to
    do; the Port record removed, there being no PID record; both removed. *)
Lemma cleanupStale_outcome (dataDir : string) (w : World) :
  let pidPath := Join dataDir playgroundPIDFileName in
  let portPath := Join dataDir playgroundPortFileName in
  (exists e, cleanupStaleRuntimeFiles dataDir w = (w, Some e))
  \/ (cleanupStaleRuntimeFiles dataDir w = (w, None) /\ fs w !! pidPath = None)
  \/ (cleanupStaleRuntimeFiles dataDir w = (Remove portPath w, None)
      /\ fs w !! pidPath = None)
  \/ cleanupStaleRuntimeFiles dataDir w = (Remove portPath (Remove pidPath w), None).
Proof.
  intros pidPath portPath. unfold cleanupStaleRuntimeFiles.
  destruct (String.eqb (TrimSpace dataDir) ""); [eauto|].
  fold pidPath portPath.
  assert (Hport : fs w !! pidPath = None ->
            (exists e, cleanupStalePort dataDir w = (w, Some e))
            \/ (cleanupStalePort dataDir w = (w, None) /\ fs w !! pidPath = None)
            \/ (cleanupStalePort dataDir w = (Remove portPath w, None)
                /\ fs w !! pidPath = None)
            \/ cleanupStalePort dataDir w = (Remove portPath (Remove pidPath w), None)).
  { intros Hnone. destruct (cleanupStalePort_outcome dataDir w) as [H | [H | H]]; auto. }
  destruct (readPIDFile pidPath w) as [rec [err|]] eqn:Hread.
  - destruct (IsNotExist err) eqn:Hne; simpl negb; cbv iota.
    + apply Hport. exact (readPIDFile_notExist _ _ _ _ Hread Hne).
    + unfold Stat. destruct (fs w !! pidPath) as [info|] eqn:Hf.
      * destruct ((0 <=? Sub (clock w) (ModTime info))
                  && (Sub (clock w) (ModTime info) <? pidFileWriteGracePeriod)); [eauto|].
        destruct (loadPort dataDir w) as [port [perr|]]; [auto|].
        destruct (0 <? port); [|auto].
        destruct (probePlaygroundCommandServer probeCtx port w) as [ok probeErr].
        destruct (ok && isNil probeErr); [eauto|].
        destruct (isTimeoutErr probeErr); [eauto|auto].
      * simpl. apply Hport. reflexivity.
  - destruct (isPIDRunning (pid rec) w) as [running [runErr|]]; [eauto|].
    destruct running; [eauto|auto].
Qed.

(** What a cleanup leaves of the world: everything but the files, of which
    it may remove the two records. *)
Lemma cleanupStale_result (dataDir : string) (w w1 : World) (r : option error) :
  cleanupStaleRuntimeFiles dataDir w = (w1, r) ->
  w1 = setFs (fs w1) w
  /\ (forall p f, fs w1 !! p = Some f -> fs w !! p = Some f)
  /\ (forall p, p <> Join dataDir playgroundPIDFileName ->
                p <> Join dataDir playgroundPortFileName ->
                fs w1 !! p = fs w !! p)
  /\ (r = None -> fs w1 !! Join dataDir playgroundPIDFileName = None)
  /\ (r <> None -> w1 = w).
Proof.
  intros H.
  assert (Hw : w = setFs (fs w) w) by (destruct w; reflexivity).
  destruct (cleanupStale_outcome dataDir w) as [[e' H'] | [[H' Hn] | [[H' Hn] | H']]];
    rewrite H' in H; injection H as <- <-.
  - repeat split; auto. discriminate.
  - repeat split; auto.
  - repeat split; try congruence.
    + intros p f. apply Remove_lookup_Some.
    + intros p _ Hp. apply Remove_lookup_ne. exact Hp.
    + intros _. rewrite Remove_lookup_ne by apply Join_pid_port_ne. exact Hn.
  - repeat split; try congruence.
    + intros p f Hf. do 2 apply Remove_lookup_Some in Hf. exact Hf.
    + intros p Hp1 Hp2. rewrite !Remove_lookup_ne by assumption. reflexivity.
    + intros _. rewrite Remove_lookup_ne by apply Join_pid_port_ne. apply Remove_lookup_eq.
Qed.

(** X1. A cleanup that fails has done nothing. *)
Theorem cleanupStale_error_keeps_world (dataDir : string) (w w' : World) (e : error) :
  cleanupStaleRuntimeFiles dataDir w = (w', Some e) -> w' = w.
Proof.
  intros H. destruct (cleanupStale_result _ _ _ _ H) as (_ & _ & _ & _ & Hw).
  apply Hw. discriminate.
Qed.

(** X2. The cleanup writes and creates no file, removes none but the PID
    and the Port record of its data directory, and takes no time. *)
Theorem cleanupStale_frame (dataDir : string) (w : World) :
  let w' := fst (cleanupStaleRuntimeFiles dataDir w) in
  (forall p f, fs w' !! p = Some f -> fs w !! p = Some f)
  /\ (forall p, p <> Join dataDir playgroundPIDFileName ->
                p <> Join dataDir playgroundPortFileName ->
                fs w' !! p = fs w !! p)
  /\ clock w' = clock w /\ others w' = others w.
Proof.
  intros w'. subst w'.
  destruct (cleanupStaleRuntimeFiles dataDir w) as [w1 r] eqn:H.
  destruct (cleanupStale_result _ _ _ _ H) as (Hw & H1 & H2 & _).
  simpl fst. repeat split; auto; rewrite Hw; reflexivity.
Qed.


End CleanupFrame.

Section DaemonMore.

Variable timeParse : string -> option Z.
Variable timeFormat : Z -> string.

#[local] Abbreviation readPIDFile := (readPIDFile timeParse).
#[local] Abbreviation parsePIDFile := (parsePIDFile timeParse).
#[local] Abbreviation cleanupStaleRuntimeFiles := (cleanupStaleRuntimeFiles timeParse).
#[local] Abbreviation claimPlaygroundPIDFile := (claimPlaygroundPIDFile timeParse timeFormat).
#[local] Abbreviation pidFileBody := (pidFileBody timeFormat).
#[local] Abbreviation waitRound := (waitRound timeParse).
#[local] Abbreviation waitPlaygroundStopped := (waitPlaygroundStopped timeParse).

(** X4. A PID record that does not parse and is past the grace window (or
    stamped in the future) is stale unless the port of the Port record
    answers: a successful probe and a probe that timed out make the cleanup
    fail and leave the files; in every other case, a missing or unusable
    Port record included, both records are removed. *)
Theorem cleanupStale_unparsable_stale (dataDir : string) (w : World) (f : File)
    (r : pidFile) (e : error) :
  TrimSpace dataDir <> "" ->
  fs w !! Join dataDir playgroundPIDFileName = Some f ->
  parsePIDFile (content f) = (r, Some e) ->
  Sub (clock w) (ModTime f) < 0 \/ pidFileWriteGracePeriod <= Sub (clock w) (ModTime f) ->
  let removed :=
    (Remove (Join dataDir playgroundPortFileName)
       (Remove (Join dataDir playgroundPIDFileName) w), None) in
  (forall port, loadPort dataDir w = (port, None) -> 0 < port ->
     (probePlaygroundCommandServer probeCtx port w = (true, None) ->
      cleanupStaleRuntimeFiles dataDir w
      = (w, Some (Errorf ("playground already running (port=" +:+ Itoa port +:+ ")"))))
     /\ (forall pe, probePlaygroundCommandServer probeCtx port w = (false, Some pe) ->
           isTimeoutErr (Some pe) = true ->
           cleanupStaleRuntimeFiles dataDir w
           = (w, Some (Errorf ("playground command server probe timed out (port="
                               +:+ Itoa port +:+ ")"))))
     /\ (forall pe, probePlaygroundCommandServer probeCtx port w = (false, Some pe) ->
           isTimeoutErr (Some pe) = false ->
           cleanupStaleRuntimeFiles dataDir w = removed))
  /\ (forall port, loadPort dataDir w = (port, None) -> port <= 0 ->
        cleanupStaleRuntimeFiles dataDir w = removed)
  /\ (forall port pe, loadPort dataDir w = (port, Some pe) ->
        cleanupStaleRuntimeFiles dataDir w = removed).
Proof.
  intros Hd Hf Hparse Hage removed.
  assert (Hhead : cleanupStaleRuntimeFiles dataDir w
    = match loadPort dataDir w with
      | (port, None) =>
          if 0 <? port then
            let '(ok, probeErr) := probePlaygroundCommandServer probeCtx port w in
            if ok && isNil probeErr
            then (w, Some (Errorf ("playground already running (port="
                                   +:+ Itoa port +:+ ")")))
            else if isTimeoutErr probeErr
            then (w, Some (Errorf ("playground command server probe timed out (port="
                                   +:+ Itoa port +:+ ")")))
            else removed
          else removed
      | (_, Some _) => removed
      end).
  { unfold cleanupStaleRuntimeFiles. rewrite (nonblank_eqb _ Hd).
    rewrite (readPIDFile_present timeParse _ _ _ Hf), Hparse.
    rewrite (readPIDLines_error timeParse _ _ _ _ _ Hparse). simpl negb. cbv iota.
    unfold Stat. rewrite Hf.
    replace ((0 <=? Sub (clock w) (ModTime f))
             && (Sub (clock w) (ModTime f) <? pidFileWriteGracePeriod)) with false.
    - reflexivity.
    - symmetry. apply andb_false_iff. destruct Hage as [H | H].
      + left. apply Z.leb_gt. exact H.
      + right. apply Z.ltb_ge. exact H. }
  rewrite Hhead. split; [|split].
  - intros port Hp Hpos. rewrite Hp.
    destruct (Z.ltb_spec 0 port) as [_|]; [|lia].
    split; [|split].
    + intros ->. reflexivity.
    + intros pe -> Ht. simpl andb. cbv iota. rewrite Ht. reflexivity.
    + intros pe -> Ht. simpl andb. cbv iota. rewrite Ht. reflexivity.
  - intros port Hp Hle. rewrite Hp. destruct (Z.ltb_spec 0 port); [lia | reflexivity].
  - intros port pe Hp. rewrite Hp. reflexivity.
Qed.

(** The claim ends in its first round: in an error with nothing done, or
    with the record written after a cleanup that succeeded. *)
Lemma claim_outcome (fuel : nat) (dataDir tg : string) (w : World) :
  let pidPath := Join dataDir playgroundPIDFileName in
  (exists e, claimPlaygroundPIDFile (S fuel) dataDir tg w = Some (w, (None, Some e)))
  \/ (exists w1,
        cleanupStaleRuntimeFiles dataDir w = (w1, None)
        /\ claimPlaygroundPIDFile (S fuel) dataDir tg w
           = Some (setFs (<[pidPath := {| content := pidFileBody (Getpid w) (clock w) tg;
                                          ModTime := clock w |}]> (fs w1)) w1,
                   (Some (release pidPath), None))).
Proof.
  intros pidPath. unfold claimPlaygroundPIDFile.
  destruct (String.eqb (TrimSpace dataDir) ""); [eauto|].
  destruct (String.eqb (TrimSpace tg) ""); [eauto|].
  destruct (MkdirAll w dataDir); [eauto|].
  destruct (cleanupStaleRuntimeFiles dataDir w) as [w1 [err|]] eqn:Hc;
    destruct (cleanupStale_result timeParse _ _ _ _ Hc) as (Hw & _ & _ & Hn & Hsame).
  - left. rewrite Hsame by discriminate. eauto.
  - right. exists w1. split; [reflexivity|].
    cbn [claimLoop]. subst pidPath. unfold CreateExcl. rewrite (Hn eq_refl).
    assert (Hg : Getpid w1 = Getpid w) by (rewrite Hw; reflexivity).
    assert (Hk : clock w1 = clock w) by (rewrite Hw; reflexivity).
    rewrite Hg, Hk. reflexivity.
Qed.


(** A claim that succeeds has written the record. *)
Lemma claim_ok_record (fuel : nat) (dataDir tg : string) (w w' : World)
    (rel : World -> World) :
  claimPlaygroundPIDFile fuel dataDir tg w = Some (w', (Some rel, None)) ->
  fs w' !! Join dataDir playgroundPIDFileName
  = Some {| content := pidFileBody (Getpid w) (clock w) tg; ModTime := clock w |}
  /\ Kill w' = Kill w
  /\ rel = release (Join dataDir playgroundPIDFileName).
Proof.
  intros H. destruct fuel as [|fuel].
  - unfold claimPlaygroundPIDFile in H.
    destruct (String.eqb (TrimSpace dataDir) ""); [discriminate|].
    destruct (String.eqb (TrimSpace tg) ""); [discriminate|].
    destruct (MkdirAll w dataDir); [discriminate|].
    destruct (cleanupStaleRuntimeFiles dataDir w) as [w1 [err|]]; discriminate.
  - destruct (claim_outcome fuel dataDir tg w) as [[e He] | (w1 & Hc & Hclaim)].
    + rewrite He in H. discriminate.
    + rewrite Hclaim in H. injection H as <- <-.
      destruct (cleanupStale_result timeParse _ _ _ _ Hc) as (Hw & _).
      split; [apply lookup_insert_eq|]. split; [|reflexivity].
      simpl. rewrite Hw. reflexivity.
Qed.

(** X6. Writing the record and reading it back: after a claim that
    succeeds, with a tag that is one word, [readPIDFile] gives the pid of
    the claiming process, the time of the claim as the time format carries
    it, and the tag. *)
Theorem claim_then_read (fuel : nat) (dataDir tg : string) (w w' : World)
    (rel : World -> World) (t : Z) :
  claimPlaygroundPIDFile fuel dataDir tg w = Some (w', (Some rel, None)) ->
  0 < Getpid w <= maxInt -> isToken tg = true ->
  isToken (timeFormat (clock w)) = true -> timeParse (timeFormat (clock w)) = Some t ->
  readPIDFile (Join dataDir playgroundPIDFileName) w'
  = ({| pid := Getpid w; startedAt := t; tag := tg |}, None).
Proof.
  intros H Hp Htg Htok Ht.
  destruct (claim_ok_record _ _ _ _ _ _ H) as (Hf & _).
  rewrite (readPIDFile_present timeParse _ _ _ Hf). simpl content.
  apply parse_pidFileBody; assumption.
Qed.


(** What a round of the wait leaves of the world. *)
Lemma waitRound_result (dataDir : string) (w w1 : World) (r : option (option error)) :
  waitRound dataDir w = (w1, r) ->
  w1 = setFs (fs w1) w
  /\ (forall p f, fs w1 !! p = Some f -> fs w !! p = Some f)
  /\ (forall p, p <> Join dataDir playgroundPIDFileName ->
                p <> Join dataDir playgroundPortFileName ->
                fs w1 !! p = fs w !! p)
  /\ (r = None -> w1 = w)
  /\ (r <> None -> r = Some None /\ fs w1 !! Join dataDir playgroundPIDFileName = None)
  /\ (forall rec, readPIDFile (Join dataDir playgroundPIDFileName) w = (rec, None) ->
        fs w1 !! Join dataDir playgroundPortFileName
        = fs w !! Join dataDir playgroundPortFileName).
Proof.
  set (pidPath := Join dataDir playgroundPIDFileName).
  set (portPath := Join dataDir playgroundPortFileName).
  assert (Hw : w = setFs (fs w) w) by (destruct w; reflexivity).
  assert (Hsame : forall r', (r' = None \/ fs w !! pidPath = None) ->
            (forall rec, readPIDFile pidPath w = (rec, None) -> r' = None) ->
            (w, r') = (w1, r) ->
            r' = None \/ r' = Some None ->
            w1 = setFs (fs w1) w
            /\ (forall p f, fs w1 !! p = Some f -> fs w !! p = Some f)
            /\ (forall p, p <> pidPath -> p <> portPath -> fs w1 !! p = fs w !! p)
            /\ (r = None -> w1 = w)
            /\ (r <> None -> r = Some None /\ fs w1 !! pidPath = None)
            /\ (forall rec, readPIDFile pidPath w = (rec, None) ->
                  fs w1 !! portPath = fs w !! portPath)).
  { intros r' Hr' _ [= <- <-] Hor.
    split; [exact Hw|]. split; [auto|]. split; [auto|]. split; [auto|].
    split; [|auto]. intros Hr. split.
    - destruct Hor; congruence.
    - destruct Hr' as [-> | Hn]; [congruence | exact Hn]. }
  assert (Hboth : (Remove portPath (Remove pidPath w), Some None) = (w1, r) ->
            (forall rec, readPIDFile pidPath w = (rec, None) -> False) ->
            w1 = setFs (fs w1) w
            /\ (forall p f, fs w1 !! p = Some f -> fs w !! p = Some f)
            /\ (forall p, p <> pidPath -> p <> portPath -> fs w1 !! p = fs w !! p)
            /\ (r = None -> w1 = w)
            /\ (r <> None -> r = Some None /\ fs w1 !! pidPath = None)
            /\ (forall rec, readPIDFile pidPath w = (rec, None) ->
                  fs w1 !! portPath = fs w !! portPath)).
  { intros [= <- <-] Hno.
    split; [reflexivity|]. split; [|split; [|split; [|split]]].
    - intros p f Hf. do 2 apply Remove_lookup_Some in Hf. exact Hf.
    - intros p Hp1 Hp2. rewrite !Remove_lookup_ne by assumption. reflexivity.
    - discriminate.
    - intros _. split; [reflexivity|].
      rewrite Remove_lookup_ne by apply Join_pid_port_ne. apply Remove_lookup_eq.
    - intros rec Hrec. destruct (Hno _ Hrec). }
  unfold waitRound. fold pidPath portPath.
  destruct (readPIDFile pidPath w) as [rec [err|]] eqn:Hread.
  - destruct (IsNotExist err) eqn:Hne.
    + intros H. apply (Hsame (Some None)); auto; [|discriminate].
      right. exact (readPIDFile_notExist timeParse _ _ _ _ Hread Hne).
    + unfold Stat. destruct (fs w !! pidPath) as [info|] eqn:Hf.
      * destruct (pidFileWriteGracePeriod <=? Sub (clock w) (ModTime info)).
        -- match goal with
           | |- context [negb ?b] => destruct b
           end; simpl negb; cbv iota; intros H.
           ++ apply (Hsame None); auto; discriminate.
           ++ apply Hboth; [exact H | discriminate].
        -- intros H. apply (Hsame None); auto; discriminate.
      * simpl. intros H. apply (Hsame (Some None)); auto; discriminate.
  - destruct (isPIDRunning (pid rec) w) as [running [runErr|]].
    + intros H. apply (Hsame None); auto.
    + destruct running; simpl negb; cbv iota.
      * intros H. apply (Hsame None); auto.
      * intros [= <- <-].
        split; [reflexivity|]. split; [|split; [|split; [|split]]].
        -- intros p f. apply Remove_lookup_Some.
        -- intros p Hp _. apply Remove_lookup_ne. exact Hp.
        -- discriminate.
        -- intros _. split; [reflexivity | apply Remove_lookup_eq].
        -- intros rec' _. apply Remove_lookup_ne. intros E. symmetry in E.
           exact (Join_pid_port_ne _ E).
Qed.



Lemma waitLoop_error (dataDir : string) (deadline : Z) (fuel : nat) :
  forall (w w' : World) (e : error),
    waitLoop timeParse fuel dataDir deadline w = Some (w', Some e) ->
    e = Errorf "timeout waiting for playground to stop" /\ deadline < clock w'.
Proof.
  induction fuel as [|fuel IH]; intros w w' e; [discriminate|].
  cbn [waitLoop].
  destruct (waitRound dataDir w) as [w1 [r|]] eqn:Hr.
  - destruct (waitRound_result _ _ _ _ Hr) as (_ & _ & _ & _ & Hsome & _).
    destruct (Hsome ltac:(discriminate)) as [[= ->] _]. discriminate.
  - destruct (Z.ltb_spec deadline (clock w1)).
    + intros [= <- <-]. split; [reflexivity | assumption].
    + apply IH.
Qed.



(** X9. The wait fails with the timeout only, and only once the clock has
    passed the deadline: the time of the call plus the timeout, or plus 60
    seconds for a timeout of zero or less. *)
Theorem waitStopped_error_after_deadline (fuel : nat) (dataDir : string) (timeout : Z)
    (w w' : World) (e : error) :
  TrimSpace dataDir <> "" ->
  waitPlaygroundStopped fuel dataDir timeout w = Some (w', Some e) ->
  e = Errorf "timeout waiting for playground to stop"
  /\ clock w + (if timeout <=? 0 then 60 * Second else timeout) < clock w'.
Proof.
  intros Hd. unfold waitPlaygroundStopped. rewrite (nonblank_eqb _ Hd).
  apply waitLoop_error.
Qed.



End DaemonMore.

(* --------------------------------------------------------------------- *)
(** ** Signalling: the calls made *)
(* --------------------------------------------------------------------- *)

(** X12. [killProcessOrGroup] makes at most one [kill] call, with the signal
    it was given, and returns the error of that call. The pid it was given
    is positive then and the signal is not 0; the target is the process
    itself, or its process group when the process leads it. *)
Theorem killProcessOrGroup_calls (pid sig : Z) (w : World) (t s : Z) :
  (t, s) ∈ fst (killProcessOrGroup pid sig w) ->
  0 < pid /\ sig <> 0 /\ s = sig
  /\ (t = pid \/ (t = - pid /\ Getpgid w pid = inl pid))
  /\ killProcessOrGroup pid sig w = ([(t, s)], SysErr <$> Kill w t s).
Proof.
  unfold killProcessOrGroup.
  destruct (Z.leb_spec pid 0) as [Hp|Hp]; simpl orb; cbv iota.
  - intros H. apply elem_of_nil in H. destruct H.
  - destruct (Z.eqb_spec sig 0) as [Hs|Hs].
    + intros H. apply elem_of_nil in H. destruct H.
    + assert (Hone : forall t0, (t, s) ∈ fst (sysKill t0 sig w) -> t = t0 /\ s = sig).
      { intros t0 H. unfold sysKill in H. simpl in H.
        apply list_elem_of_singleton in H. injection H as -> ->. auto. }
      destruct (Getpgid w pid) as [pgid|err] eqn:Hg.
      * destruct (Z.eqb_spec pgid pid) as [->|Hne]; intros H;
          destruct (Hone _ H) as [-> ->]; repeat split; auto.
      * intros H. destruct (Hone _ H) as [-> ->]. repeat split; auto.
Qed.

(* --------------------------------------------------------------------- *)
(** ** The liveness probe: when the second request is made *)
(* --------------------------------------------------------------------- *)

(** X13. When [/ping] answers with status 200, or fails with the context
    done, the probe is decided by that answer alone: [/command] is not
    asked, so whatever it would answer makes no difference. *)
Theorem probe_ping_decides (ctx : Context) (port : Z) (w w' : World) :
  let c := match ctx with ctxNil => ctxBackground | _ => ctx end in
  answered200 (httpGet w c port "/ping") || gaveUp (httpGet w c port "/ping") = true ->
  httpGet w' c port "/ping" = httpGet w c port "/ping" ->
  probePlaygroundCommandServer ctx port w' = probePlaygroundCommandServer ctx port w.
Proof.
  intros c Hping Hsame. unfold probePlaygroundCommandServer.
  destruct (port <=? 0); [reflexivity|]. fold c. rewrite Hsame.
  destruct (httpGet w c port "/ping") as [err done|resp]; simpl in Hping.
  - rewrite Hping. reflexivity.
  - rewrite orb_false_r in Hping. rewrite Hping. reflexivity.
Qed.

(* --------------------------------------------------------------------- *)
(** ** The progress UI: the mode *)
(* --------------------------------------------------------------------- *)

(** X14. The mode a new UI runs in is never ModeAuto. It is ModeOff exactly
    when ModeOff was asked for; it is ModeTTY exactly when ModeTTY or
    ModeAuto was asked for, the terminal allows control sequences and the
    output is a file; and it is ModePlain in every other case. A UI that is
    off is done from the start. *)
Theorem New_mode (opts : Options) :
  let m := mode (ui (New opts)) in
  m <> ModeAuto
  /\ (m = ModeOff <-> optMode opts = ModeOff)
  /\ (m = ModeTTY <->
      (optMode opts = ModeTTY \/ optMode opts = ModeAuto)
      /\ termControl opts = true /\ outIsFile opts = true)
  /\ (doneCh (ui (New opts)) = true <-> m = ModeOff)
  /\ (engine (New opts) = EngineRunning <-> m = ModePlain).
Proof.
  destruct opts as [m c f l]. unfold New, actualMode, resolveMode. simpl.
  destruct m, f, c; simpl; repeat split; try discriminate; try tauto;
    intros; repeat match goal with
                   | H : _ /\ _ |- _ => destruct H
                   | H : _ \/ _ |- _ => destruct H
                   end; try discriminate; auto.
Qed.

(* --------------------------------------------------------------------- *)
(** ** The writer: lines and chunks *)
(* --------------------------------------------------------------------- *)

(** The lines found are put after the lines so far. *)
Lemma writeBytes_lines (p : string) :
  forall (b : string) (ls : list string),
    writeBytes p b ls = (ls ++ fst (writeBytes p b []), snd (writeBytes p b [])).
Proof.
  induction p as [|c r IH]; intros b ls; simpl.
  - rewrite app_nil_r. reflexivity.
  - destruct (isB c 10).
    + rewrite (IH "" (ls ++ [TrimSuffixCR b])), (IH "" [TrimSuffixCR b]).
      simpl. rewrite <- app_assoc. reflexivity.
    + apply IH.
Qed.

Lemma writeBytes_app (p1 p2 : string) :
  forall (b : string) (ls : list string),
    writeBytes (p1 +:+ p2) b ls
    = writeBytes p2 (snd (writeBytes p1 b ls)) (fst (writeBytes p1 b ls)).
Proof.
  induction p1 as [|c r IH]; intros b ls; simpl; [reflexivity|].
  destruct (isB c 10); apply IH.
Qed.

Lemma append_assoc (a b c : string) : (a +:+ b) +:+ c = a +:+ (b +:+ c).
Proof.
  induction a as [|x a IH]; [reflexivity|].
  change (String x ((a +:+ b) +:+ c) = String x (a +:+ (b +:+ c))). rewrite IH. reflexivity.
Qed.

Lemma writeBytes_noNewline (p : string) :
  forall (b : string) (ls : list string),
    noNewline p = true -> writeBytes p b ls = (ls, b +:+ p).
Proof.
  induction p as [|c r IH]; intros b ls H; simpl.
  - rewrite append_empty_r. reflexivity.
  - simpl in H. apply andb_true_iff in H as [Hc Hr].
    apply negb_true_iff in Hc. rewrite Hc, (IH _ _ Hr), append_assoc. reflexivity.
Qed.

(** X15. Bytes without a newline are only buffered: the writer appends them
    to its buffer and sends no event. *)
Theorem Write_buffers (p : string) (u : UI) :
  noNewline p = true ->
  Write p u = Some (if closed u || isOff (mode u) then u else setBuf (buf u +:+ p) u).
Proof.
  intros H. unfold Write. destruct (closed u || isOff (mode u)); [reflexivity|].
  rewrite (writeBytes_noNewline _ _ _ H). reflexivity.
Qed.

Lemma flat_map_Lines_app (q1 q2 : list Event) :
  List.flat_map Lines (q1 ++ q2) = List.flat_map Lines q1 ++ List.flat_map Lines q2.
Proof. apply List.flat_map_app. Qed.

(** What a write does, with the lines found in the bytes. *)
Lemma Write_lines (p : string) (u u' : UI) :
  Write p u = Some u' ->
  closed u' = closed u /\ mode u' = mode u /\ closeCh u' = closeCh u
  /\ ((closed u || isOff (mode u) = true /\ u' = u)
      \/ (closed u || isOff (mode u) = false
          /\ buf u' = snd (writeBytes p (buf u) [])
          /\ List.flat_map Lines (eventsCh u')
             = List.flat_map Lines (eventsCh u)
               ++ (if closeCh u then [] else fst (writeBytes p (buf u) [])))).
Proof.
  unfold Write. destruct (closed u || isOff (mode u)) eqn:E.
  { intros [= <-]. repeat split; auto. }
  apply orb_false_iff in E as [Ec Eo].
  destruct (writeBytes p (buf u) []) as [lines b]. simpl fst. simpl snd.
  destruct lines as [|x lines].
  - intros [= <-]. repeat split; auto. right. repeat split; auto.
    simpl. destruct (closeCh u); rewrite app_nil_r; reflexivity.
  - unfold emit. simpl closed. simpl mode. simpl closeCh. rewrite Ec, Eo.
    destruct (closeCh u) eqn:Ecl.
    + intros [= <-]. repeat split; auto. right. repeat split; auto.
      simpl. rewrite app_nil_r. reflexivity.
    + unfold send. destruct (Nat.ltb _ _); [|discriminate]. intros [= <-].
      simpl. repeat split; auto. right. repeat split; auto.
      rewrite flat_map_Lines_app. simpl. rewrite app_nil_r. reflexivity.
Qed.

(** X16. How the bytes are cut into writes makes no difference to the
    lines: two writes, of [p1] and then of [p2], leave the same buffer and
    have sent the same lines as one write of [p1] followed by [p2]. *)
Theorem Write_chunks (p1 p2 : string) (u u1 u2 u12 : UI) :
  Write p1 u = Some u1 -> Write p2 u1 = Some u2 -> Write (p1 +:+ p2) u = Some u12 ->
  buf u2 = buf u12
  /\ List.flat_map Lines (eventsCh u2) = List.flat_map Lines (eventsCh u12).
Proof.
  intros H1 H2 H12.
  destruct (Write_lines _ _ _ H1) as (Ec1 & Em1 & Ecl1 & W1).
  destruct (Write_lines _ _ _ H2) as (_ & _ & _ & W2).
  destruct (Write_lines _ _ _ H12) as (_ & _ & _ & W12).
  rewrite Ec1, Em1, Ecl1 in W2.
  destruct W1 as [[E ->] | (E & Hb1 & Hl1)].
  - destruct W2 as [[_ ->] | [E' _]]; [|congruence].
    destruct W12 as [[_ ->] | [E' _]]; [|congruence]. auto.
  - destruct W2 as [[E' _] | (_ & Hb2 & Hl2)]; [congruence|].
    destruct W12 as [[E' _] | (_ & Hb12 & Hl12)]; [congruence|].
    rewrite writeBytes_app in Hb12, Hl12. rewrite <- Hb1 in Hb12, Hl12.
    rewrite writeBytes_lines in Hb12, Hl12. simpl in Hb12, Hl12.
    split; [congruence|]. rewrite Hl2, Hl1, Hl12, <- app_assoc.
    destruct (closeCh u); reflexivity.
Qed.

(* --------------------------------------------------------------------- *)
(** ** The progress UI: closing *)
(* --------------------------------------------------------------------- *)

Lemma handleStep_extends (u u' : UI) (l : list Event) :
  extends u u' l -> (closed u = true -> u' = u) -> handleStep u u'.
Proof.
  intros (_ & E2 & E3 & E4 & _ & E6 & _) Hc.
  split; [exact E2|]. split; [exact E3|]. split; [exact E4|]. split; [exact E6|].
  intros H. rewrite (Hc H). auto.
Qed.

Lemma emit_handleStep (e : Event) (u u' : UI) : emit e u = Some u' -> handleStep u u'.
Proof.
  intros H. destruct (emit_extends _ _ _ H) as (l & Hl & _).
  apply (handleStep_extends _ _ _ Hl). intros Hc. unfold emit in H. rewrite Hc in H.
  congruence.
Qed.

Lemma Write_handleStep (p : string) (u u' : UI) : Write p u = Some u' -> handleStep u u'.
Proof.
  intros H. destruct (Write_extends _ _ _ H) as (l & Hl & _).
  apply (handleStep_extends _ _ _ Hl). intros Hc. unfold Write in H. rewrite Hc in H.
  simpl in H. congruence.
Qed.

Lemma Group_handleStep (u u' : UI) : Group u = Some u' -> handleStep u u'.
Proof.
  intros H. destruct (Group_extends _ _ H) as (l & Hl & _).
  apply (handleStep_extends _ _ _ Hl). intros Hc. unfold Group in H. rewrite Hc in H.
  congruence.
Qed.

Lemma SyncEnter_return_handleStep (u u' : UI) :
  SyncEnter u = EnterReturn u' -> handleStep u u'.
Proof.
  intros H. destruct (SyncEnter_return _ _ H) as (_ & l & Hl & _).
  apply (handleStep_extends _ _ _ Hl). intros Hc. unfold SyncEnter in H. rewrite Hc in H.
  simpl in H. congruence.
Qed.

Lemma SyncEnter_wait_handleStep (id : Z) (u u' : UI) :
  SyncEnter u = EnterWait id u' -> handleStep u u'.
Proof.
  intros H. destruct (SyncEnter_wait _ _ _ H) as (Hc & _ & _ & _ & l & Hl & _).
  apply (handleStep_extends _ _ _ Hl). intros Hc'. congruence.
Qed.

Lemma SyncLeave_handleStep (id : Z) (u u' : UI) :
  SyncLeave id u = Some u' -> handleStep u u'.
Proof.
  unfold SyncLeave. destruct (_ || _); [|discriminate]. intros [= <-].
  unfold removeSyncWaiter. destruct (id =? 0); repeat split; auto.
Qed.

Lemma handleStep_refl (u : UI) : handleStep u u.
Proof. repeat split; auto. Qed.

(** A step of a handle keeps the closing as it is. *)
Lemma Closing_handle (log : bool) (s s' : Sys) :
  Closing log s -> engine s' = engine s -> closer s' = closer s ->
  handleStep (ui s) (ui s') -> Closing log s'.
Proof.
  intros [C1 [C2' C2] C3 C4 C5 C6 C7] Eg Ec (H1 & H2 & H3 & H4 & H5).
  assert (Hcl : closeCh (ui s) = true -> closed (ui s) = true).
  { intros H. apply C2. apply C3 in H. rewrite H. discriminate. }
  constructor; rewrite ?Eg, ?Ec, ?H1, ?H2, ?H3, ?H4; auto.
  - split; assumption.
  - intros H. destruct (H5 (C2 ltac:(destruct H as [H | H]; rewrite H; discriminate)))
      as [_ ->]. auto.
  - intros H. destruct C5 as [C5 | [C5 _]]; [congruence|].
    destruct (H5 (Hcl C5)) as [-> _]. auto.
Qed.

Lemma flushLine_emitForced_closing (u u' : UI) :
  flushLine emitForced u = Some u' ->
  closed u' = closed u /\ closeCh u' = closeCh u /\ doneCh u' = doneCh u
  /\ eventLog u' = eventLog u /\ buf u' = ""
  /\ (isOff (mode u) = false -> closeCh u = false ->
      eventsCh u' = eventsCh u ++ pendingLine u).
Proof.
  unfold flushLine, drainBufferedLine, pendingLine.
  destruct (String.eqb (TrimSuffixCR (buf u)) "").
  - intros [= <-]. simpl. rewrite app_nil_r. repeat split; auto.
  - unfold emitForced. simpl mode. simpl closeCh.
    destruct (isOff (mode u)) eqn:Eo;
      [intros [= <-]; simpl; repeat split; auto; intros; congruence|].
    destruct (closeCh u) eqn:Ecl;
      [intros [= <-]; simpl; repeat split; auto; intros; congruence|].
    unfold send. destruct (Nat.ltb _ _); [|discriminate]. intros [= <-].
    simpl. repeat split; auto.
Qed.

Lemma processPlainEvent_buf (e : Event) (u : UI) : buf (processPlainEvent e u) = buf u.
Proof.
  unfold processPlainEvent, eventLogWrite, fulfillSync.
  destruct (isSync e); simpl.
  - destruct (SyncID e =? 0); [reflexivity|]. destruct (bool_decide _); reflexivity.
  - destruct (eventLog u); reflexivity.
Qed.

Lemma Closing_New (opts : Options) :
  actualMode opts = ModePlain -> Closing (withEventLog opts) (New opts).
Proof.
  intros Hm. unfold New. rewrite Hm. constructor; simpl; auto; try discriminate.
  - destruct (withEventLog opts); split; congruence.
  - split; [discriminate | intros H; destruct H; reflexivity].
  - split; discriminate.
  - split; discriminate.
Qed.

Lemma Closing_step (log : bool) (a : Action) (s s' : Sys) :
  Closing log s -> step a s = Some s' -> Closing log s'.
Proof.
  intros HC Hs. unfold step in Hs. destruct a.
  - (* AEmit *)
    destruct (isSync e); [discriminate|].
    destruct (emit e (ui s)) as [u'|] eqn:E; simpl in Hs; [|discriminate].
    injection Hs as <-. apply (Closing_handle log s); auto.
    apply (emit_handleStep _ _ _ E).
  - (* AGroup *)
    destruct (Group (ui s)) as [u'|] eqn:E; simpl in Hs; [|discriminate].
    injection Hs as <-. apply (Closing_handle log s); auto.
    apply (Group_handleStep _ _ E).
  - (* AWrite *)
    destruct (Write p (ui s)) as [u'|] eqn:E; simpl in Hs; [|discriminate].
    injection Hs as <-. apply (Closing_handle log s); auto.
    apply (Write_handleStep _ _ _ E).
  - (* ASync *)
    destruct (SyncEnter (ui s)) as [u'|id u'|] eqn:E; [| |discriminate];
      injection Hs as <-; apply (Closing_handle log s); auto.
    + apply (SyncEnter_return_handleStep _ _ E).
    + apply (SyncEnter_wait_handleStep _ _ _ E).
  - (* ASyncReturn *)
    destruct (SyncLeave id (ui s)) as [u'|] eqn:E; simpl in Hs; [|discriminate].
    injection Hs as <-. apply (Closing_handle log s); auto.
    apply (SyncLeave_handleStep _ _ _ E).
  - (* ACloseFlag *)
    destruct (closed (ui s)) eqn:Ec; [injection Hs as <-; exact HC|].
    injection Hs as <-. destruct HC as [C1 [C2' C2] C3 C4 C5 C6 C7].
    assert (Hn : closer s = CloseNone).
    { destruct (closer s); auto; rewrite C2 in Ec; discriminate. }
    constructor; simpl; auto.
    + split; [discriminate | reflexivity].
    + rewrite C3, Hn. split; discriminate.
    + intros [H | H]; discriminate.
  - (* ACloseFlush *)
    destruct (closer s) eqn:Ecl; try discriminate.
    destruct (flushLine emitForced (ui s)) as [u'|] eqn:E; simpl in Hs; [|discriminate].
    injection Hs as <-.
    destruct (flushLine_emitForced_closing _ _ E) as (H1 & H2 & H3 & H4 & H5 & _).
    destruct HC as [C1 [C2' C2] C3 C4 C5 C6 C7].
    assert (Hcl : closeCh (ui s) = false).
    { destruct (closeCh (ui s)); [|reflexivity].
      destruct C3 as [C3 _]. rewrite Ecl in C3. discriminate (C3 eq_refl). }
    constructor; simpl; rewrite ?H1, ?H2, ?H3, ?H4; auto.
    + split; [discriminate | intros _; apply C2; rewrite Ecl; discriminate].
    + rewrite Hcl. split; discriminate.
    + intros H. destruct C5 as [C5 | [C5 _]]; congruence.
  - (* ACloseSignal *)
    destruct (closer s) eqn:Ecl; try discriminate.
    injection Hs as <-. destruct HC as [C1 [C2' C2] C3 C4 C5 C6 C7].
    constructor; simpl; auto.
    + split; [discriminate | intros _; apply C2; rewrite Ecl; discriminate].
    + split; auto.
    + destruct C5 as [C5 | [_ C5]]; auto.
  - (* AEngineRecv *)
    assert (Hgo : forall e q, eventsCh (ui s) = e :: q ->
              engine s = EngineRunning \/ engine s = EngineDraining ->
              Closing log (setEngine (processPlainEvent e (setEventsCh q (ui s)))
                             (engine s) (handled s ++ [e]) s)).
    { intros e q Eq Eg.
      destruct (processPlainEvent_spec e (setEventsCh q (ui s)))
        as (_ & P2 & P3 & P4 & _ & _ & P7 & _).
      destruct HC as [C1 [C2' C2] C3 C4 C5 C6 C7].
      constructor; simpl; rewrite ?P2, ?P3, ?P4, ?processPlainEvent_buf; simpl; auto.
      - rewrite P7. simpl. rewrite <- C1.
        destruct (isSync e); [tauto|]. destruct (eventLog (ui s)); simpl; split; congruence.
      - split; assumption.
      - intros H. destruct Eg; congruence. }
    destruct (engine s) eqn:Eg; try discriminate;
      destruct (eventsCh (ui s)) as [|e q] eqn:Eq; try discriminate;
      injection Hs as <-; apply Hgo; auto.
  - (* AEngineClose *)
    destruct (engine s) eqn:Eg; try discriminate.
    destruct (closeCh (ui s)) eqn:Ec; [|discriminate].
    injection Hs as <-. destruct HC as [C1 [C2' C2] C3 C4 C5 C6 C7].
    constructor; simpl; auto.
    + split; assumption.
    + rewrite C6, Eg. split; discriminate.
    + discriminate.
  - (* AEngineExit *)
    destruct (engine s) eqn:Eg; try discriminate.
    destruct (eventsCh (ui s)) as [|e q] eqn:Eq; [|discriminate].
    injection Hs as <-. destruct HC as [C1 [C2' C2] C3 C4 C5 C6 C7].
    constructor; simpl; auto.
    + split; assumption.
    + destruct C5 as [C5 | [C5 _]]; [congruence | auto].
    + split; auto.
  - (* ACtlSync *)
    destruct (ctl s); try discriminate.
    destruct (SyncEnter (ui s)) as [u'|id u'|] eqn:E; [| |discriminate];
      injection Hs as <-; apply (Closing_handle log s); auto.
    + apply (SyncEnter_return_handleStep _ _ E).
    + apply (SyncEnter_wait_handleStep _ _ _ E).
  - (* ACtlSyncReturn *)
    destruct (ctl s); try discriminate.
    destruct (SyncLeave id (ui s)) as [u'|] eqn:E; simpl in Hs; [|discriminate].
    injection Hs as <-. apply (Closing_handle log s); auto.
    apply (SyncLeave_handleStep _ _ _ E).
  - (* ACtlDumpPort *)
    destruct (ctl s); try discriminate.
    injection Hs as <-. apply (Closing_handle log s); auto. apply handleStep_refl.
Qed.

Lemma Closing_run (log : bool) (tr : list Action) :
  forall (s s' : Sys), Closing log s -> run tr s = Some s' -> Closing log s'.
Proof.
  induction tr as [|a tr IH]; intros s s' HC Hr.
  - injection Hr as <-. exact HC.
  - simpl in Hr. destruct (step a s) as [s1|] eqn:Es; simpl in Hr; [|discriminate].
    apply (IH s1); [exact (Closing_step _ _ _ _ HC Es) | exact Hr].
Qed.

(** X17. The event log of a plain UI is what its renderer was given: at
    every moment both hold the events the engine has taken, in the order it
    took them, without the sync events. A UI made without an event log keeps
    none. *)
Theorem eventLog_is_rendered (opts : Options) (tr : list Action) (s : Sys) :
  actualMode opts = ModePlain -> Z.of_nat (length tr) < 2 ^ 64 ->
  run tr (New opts) = Some s ->
  rendered (ui s) = List.filter notSync (handled s)
  /\ eventLog (ui s) = (if withEventLog opts then Some (rendered (ui s)) else None)
  /\ Forall (fun e => isSync e = false) (rendered (ui s)).
Proof.
  intros Hm Hn Hr.
  destruct (Inv_run tr 0 _ _ (Inv_New _ Hm) ltac:(simpl; lia) Hr) as [HI _].
  pose proof (Closing_run _ tr _ _ (Closing_New _ Hm) Hr) as HC.
  split; [exact (inv_rendered _ _ HI)|]. split.
  - destruct (eventLog (ui s)) as [log|] eqn:E.
    + rewrite (inv_rendered _ _ HI), <- (inv_log _ _ HI _ E).
      destruct (withEventLog opts) eqn:El; [reflexivity|].
      destruct (cl_log _ _ HC) as [_ H]. rewrite E in H. discriminate (H eq_refl).
    + destruct (cl_log _ _ HC) as [H _]. rewrite E in H. rewrite (H eq_refl). reflexivity.
  - rewrite (inv_rendered _ _ HI). apply Forall_forall. intros e He.
    apply list_elem_of_In, List.filter_In in He as [_ He].
    unfold notSync in He. apply negb_true_iff in He. exact He.
Qed.


(** X19. The flush of [Close] never drops the partial line: when that step
    is taken, the line in the buffer, if there is one, is sent as an event
    of its own behind every event sent before, and the buffer is empty. *)
Theorem Close_flush_sends (opts : Options) (tr : list Action) (s s' : Sys) :
  actualMode opts = ModePlain -> Z.of_nat (length tr) < 2 ^ 64 ->
  run tr (New opts) = Some s ->
  step ACloseFlush s = Some s' ->
  sentOf s' = sentOf s ++ pendingLine (ui s) /\ buf (ui s') = ""
  /\ closer s' = CloseFlushed.
Proof.
  intros Hm Hn Hr Hs.
  destruct (Inv_run tr 0 _ _ (Inv_New _ Hm) ltac:(simpl; lia) Hr) as [HI _].
  pose proof (Closing_run _ tr _ _ (Closing_New _ Hm) Hr) as HC.
  unfold step in Hs. destruct (closer s) eqn:Ecl; try discriminate.
  destruct (flushLine emitForced (ui s)) as [u'|] eqn:E; simpl in Hs; [|discriminate].
  injection Hs as <-.
  destruct (flushLine_emitForced_closing _ _ E) as (_ & _ & _ & _ & Hb & Hq).
  split; [|split; [exact Hb | reflexivity]].
  unfold sentOf. simpl. rewrite Hq, app_assoc; [reflexivity| |].
  - rewrite (inv_mode _ _ HI). reflexivity.
  - destruct (closeCh (ui s)) eqn:Ec; [|reflexivity].
    apply (cl_signal _ _ HC) in Ec. congruence.
Qed.

(* --------------------------------------------------------------------- *)
(** ** The progress UI: the engine drains the channel *)
(* --------------------------------------------------------------------- *)

(** The engine, running or draining, can take every event of the channel,
    one after another; a waiter whose sync event is among them is released
    by then. *)
Lemma engine_drains (q : list Event) :
  forall (s : Sys),
    eventsCh (ui s) = q ->
    engine s = EngineRunning \/ engine s = EngineDraining ->
    exists s',
      run (replicate (length q) AEngineRecv) s = Some s'
      /\ eventsCh (ui s') = [] /\ handled s' = handled s ++ q
      /\ engine s' = engine s /\ closer s' = closer s
      /\ closed (ui s') = closed (ui s) /\ closeCh (ui s') = closeCh (ui s)
      /\ doneCh (ui s') = doneCh (ui s) /\ buf (ui s') = buf (ui s)
      /\ mode (ui s') = mode (ui s)
      /\ forall id, id <> 0 ->
           id ∈ released (ui s)
           \/ (id ∈ syncWaiters (ui s) /\ syncEvent id ∈ q) ->
           id ∈ released (ui s').
Proof.
  induction q as [|e q IH]; intros s Hq Hg.
  - exists s. simpl. rewrite app_nil_r. repeat split; auto.
    intros id _ [H | [_ H]]; [exact H | apply elem_of_nil in H; destruct H].
  - set (s1 := setEngine (processPlainEvent e (setEventsCh q (ui s))) (engine s)
                 (handled s ++ [e]) s).
    assert (Hstep : step AEngineRecv s = Some s1).
    { unfold step, s1. rewrite Hq. destruct Hg as [-> | ->]; reflexivity. }
    destruct (processPlainEvent_spec e (setEventsCh q (ui s)))
      as (P1 & P2 & P3 & P4 & _ & P6 & _).
    destruct (IH s1) as (s' & Hr & H1 & H2 & H3 & H4 & H5 & H6 & H7 & H8 & H9 & H10).
    { simpl. rewrite P6. reflexivity. }
    { exact Hg. }
    exists s'.
    split; [cbn [length replicate run]; rewrite Hstep; exact Hr|]. split; [exact H1|].
    split; [rewrite H2; simpl; rewrite <- app_assoc; reflexivity|].
    split; [exact H3|]. split; [exact H4|].
    split; [rewrite H5; simpl; rewrite P2; reflexivity|].
    split; [rewrite H6; simpl; rewrite P3; reflexivity|].
    split; [rewrite H7; simpl; rewrite P4; reflexivity|].
    split; [rewrite H8; simpl; rewrite processPlainEvent_buf; reflexivity|].
    split; [rewrite H9; simpl; rewrite P1; reflexivity|].
    intros id Hid Hwho. apply (H10 id Hid). simpl.
    unfold processPlainEvent, eventLogWrite, fulfillSync.
    destruct (isSync e) eqn:Es; simpl.
    + destruct (Z.eqb_spec (SyncID e) 0) as [E0|E0].
      * destruct Hwho as [H | [Hw Hin]]; [left; exact H|]. right. split; [exact Hw|].
        apply elem_of_cons in Hin as [<- | Hin]; [simpl in E0; congruence | exact Hin].
      * case_bool_decide as Hmem; simpl.
        -- destruct (decide (id = SyncID e)) as [->|Hne];
             [left; apply elem_of_union_l, elem_of_singleton_2; reflexivity|].
           destruct Hwho as [H | [Hw Hin]]; [left; apply elem_of_union_r; exact H|]. right.
           split; [apply elem_of_difference; split;
                   [exact Hw | rewrite elem_of_singleton; exact Hne]|].
           apply elem_of_cons in Hin as [<- | Hin]; [simpl in Hne; congruence | exact Hin].
        -- destruct Hwho as [H | [Hw Hin]]; [left; exact H|]. right. split; [exact Hw|].
           apply elem_of_cons in Hin as [<- | Hin]; [simpl in Hmem; contradiction | exact Hin].
    + assert (Hsame : forall u0 : UI,
                released (setOutput (eventLog u0) (rendered u0 ++ [e]) u0) = released u0
                /\ syncWaiters (setOutput (eventLog u0) (rendered u0 ++ [e]) u0)
                   = syncWaiters u0) by (intros u0; split; reflexivity).
      destruct (eventLog (ui s)); simpl;
        (destruct Hwho as [H | [Hw Hin]]; [left; exact H|]; right; split; [exact Hw|];
         apply elem_of_cons in Hin as [<- | Hin]; [discriminate | exact Hin]).
Qed.

(** X20. A Sync that waits does return once the engine has taken what is
    on the channel: with the engine running or draining, the engine can
    take every event queued, one by one, and after that the caller's wait
    is over. *)
Theorem Sync_returns_when_drained (s0 s1 : Sys) (id : Z) (u1 : UI) :
  0 <= nextID (ui s0) < 2 ^ 64 - 1 ->
  engine s0 = EngineRunning \/ engine s0 = EngineDraining ->
  SyncEnter (ui s0) = EnterWait id u1 ->
  step ASync s0 = Some s1 ->
  exists s2 u',
    run (replicate (length (eventsCh (ui s1))) AEngineRecv) s1 = Some s2
    /\ eventsCh (ui s2) = [] /\ handled s2 = sentOf s1
    /\ SyncLeave id (ui s2) = Some u'.
Proof.
  intros Hid Hg E Hs. unfold step in Hs. rewrite E in Hs. injection Hs as <-.
  destruct (SyncEnter_wait _ _ _ E) as (_ & Hid' & _ & _ & l & Hl & _).
  assert (Hne : id <> 0).
  { rewrite Hid'. unfold addID. rewrite Z.mod_small; lia. }
  assert (Hw : id ∈ syncWaiters u1 /\ syncEvent id ∈ eventsCh u1).
  { clear Hl. unfold SyncEnter in E.
    destruct (closed (ui s0) || isOff (mode (ui s0))); [discriminate|].
    destruct (flushLine emit (ui s0)) as [u|]; [|discriminate].
    cbn [closeCh setWaiters setNextID] in E. destruct (closeCh u); [discriminate|].
    unfold send in E. destruct (Nat.ltb _ _); [|discriminate].
    injection E as E1 <-. simpl. rewrite E1.
    split; [apply elem_of_union_l, elem_of_singleton_2; reflexivity|].
    apply elem_of_app. right. apply list_elem_of_singleton. reflexivity. }
  destruct (engine_drains (eventsCh u1)
              (setCtl u1 (ctl s0) (portFile s0)
                 (<[id := lastSent (handled s0) u1]> (syncAt s0)) s0) eq_refl Hg)
    as (s2 & Hr & H1 & H2 & _ & _ & _ & _ & _ & _ & _ & Hrel).
  exists s2, (removeSyncWaiter id (ui s2)). simpl ui.
  split; [exact Hr|]. split; [exact H1|]. split; [exact H2|].
  unfold SyncLeave. rewrite bool_decide_eq_true_2; [reflexivity|].
  apply (Hrel id Hne). right. exact Hw.
Qed.

Lemma run_app (tr1 tr2 : list Action) :
  forall (s : Sys), run (tr1 ++ tr2) s = s1 ← run tr1 s; run tr2 s1.
Proof.
  induction tr1 as [|a tr1 IH]; intros s; simpl; [reflexivity|].
  destruct (step a s) as [s1|]; simpl; [apply IH | reflexivity].
Qed.

Lemma run_step (a : Action) (tr : list Action) (s s1 : Sys) :
  step a s = Some s1 -> run (a :: tr) s = run tr s1.
Proof. intros H. cbn [run]. rewrite H. reflexivity. Qed.

Lemma run_app_Some (tr1 tr2 : list Action) (s s1 : Sys) :
  run tr1 s = Some s1 -> run (tr1 ++ tr2) s = run tr2 s1.
Proof. intros H. rewrite run_app, H. reflexivity. Qed.

(** X21. [Close] can always finish. From any state of a plain UI that is
    not closed: the caller sets the flag, the engine takes what is on the
    channel, the caller flushes the partial line and closes [closeCh], the
    engine notices, takes the flushed line and returns; then the UI is
    done, and the engine has taken every event sent and the partial
    line. *)
Theorem Close_completes (opts : Options) (tr : list Action) (s : Sys) :
  actualMode opts = ModePlain -> Z.of_nat (length tr) < 2 ^ 64 ->
  run tr (New opts) = Some s ->
  closed (ui s) = false ->
  exists s',
    run (ACloseFlag :: replicate (length (eventsCh (ui s))) AEngineRecv
         ++ [ACloseFlush; ACloseSignal; AEngineClose]
         ++ replicate (length (pendingLine (ui s))) AEngineRecv ++ [AEngineExit]) s
    = Some s'
    /\ doneCh (ui s') = true
    /\ handled s' = sentOf s ++ pendingLine (ui s).
Proof.
  intros Hm Hn Hr Hopen.
  destruct (Inv_run tr 0 _ _ (Inv_New _ Hm) ltac:(simpl; lia) Hr) as [HI _].
  pose proof (Closing_run _ tr _ _ (Closing_New _ Hm) Hr) as HC.
  assert (Hcl : closeCh (ui s) = false).
  { destruct (closeCh (ui s)) eqn:E; [|reflexivity].
    rewrite (inv_closeCh _ _ HI E) in Hopen. discriminate. }
  assert (Hg : engine s = EngineRunning).
  { destruct (cl_engine _ _ HC) as [H | [H _]]; [exact H | congruence]. }
  (* the flag *)
  set (s1 := setCloser (setClosed true (ui s)) CloseFlagged s).
  assert (H1 : step ACloseFlag s = Some s1) by (unfold step; rewrite Hopen; reflexivity).
  (* the engine takes what is queued *)
  destruct (engine_drains (eventsCh (ui s)) s1 eq_refl (or_introl Hg))
    as (s2 & Hr2 & Q2 & Hh2 & Eg2 & Ec2 & _ & Ecl2 & _ & Eb2 & Em2 & _).
  simpl in Hh2, Eg2, Ec2, Ecl2, Eb2, Em2.
  (* the flush *)
  assert (H3 : exists s3, step ACloseFlush s2 = Some s3
                          /\ eventsCh (ui s3) = pendingLine (ui s)
                          /\ handled s3 = handled s2 /\ engine s3 = engine s2
                          /\ closer s3 = CloseFlushed /\ closeCh (ui s3) = false).
  { unfold step. rewrite Ec2.
    unfold flushLine, drainBufferedLine, pendingLine. rewrite Eb2.
    destruct (String.eqb (TrimSuffixCR (buf (ui s))) "").
    - eexists. split; [reflexivity|]. simpl. repeat split; auto. congruence.
    - unfold emitForced. simpl mode. simpl closeCh.
      rewrite Em2, (inv_mode _ _ HI), Ecl2, Hcl. simpl isOff. cbv iota.
      unfold send. simpl eventsCh. rewrite Q2. simpl.
      eexists. split; [reflexivity|]. simpl. repeat split; auto. congruence. }
  destruct H3 as (s3 & H3 & Q3 & Hh3 & Eg3 & Ec3 & Ecl3).
  (* the signal, and the engine notices *)
  set (s4 := setCloser (setCloseCh (ui s3)) CloseSignalled s3).
  assert (H4 : step ACloseSignal s3 = Some s4) by (unfold step; rewrite Ec3; reflexivity).
  set (s5 := setEngine (ui s4) EngineDraining (handled s4) s4).
  assert (H5 : step AEngineClose s4 = Some s5).
  { unfold step. simpl. rewrite Eg3, Eg2, Hg. reflexivity. }
  (* the engine takes the flushed line *)
  destruct (engine_drains (pendingLine (ui s)) s5 Q3 (or_intror eq_refl))
    as (s6 & Hr6 & Q6 & Hh6 & Eg6 & _).
  simpl in Hh6, Eg6.
  (* and returns *)
  set (s7 := setEngine (setDone (ui s6)) EngineDone (handled s6) s6).
  assert (H7 : step AEngineExit s6 = Some s7).
  { unfold step. rewrite Eg6, Q6. reflexivity. }
  exists s7. split; [|split].
  - rewrite (run_step _ _ _ _ H1), (run_app_Some _ _ _ _ Hr2).
    cbn [app]. rewrite (run_step _ _ _ _ H3), (run_step _ _ _ _ H4), (run_step _ _ _ _ H5).
    rewrite (run_app_Some _ _ _ _ Hr6), (run_step _ _ _ _ H7). reflexivity.
  - reflexivity.
  - simpl. rewrite Hh6, Hh3, Hh2. reflexivity.
Qed.



Lemma setBuf_same (u : UI) : setBuf (buf u) u = u.
Proof. destruct u; reflexivity. Qed.

Lemma writeBytes_joinLines (ls : list string) :
  forall (acc : list string),
    Forall (fun l => noNewline l = true /\ TrimSuffixCR l = l) ls ->
    writeBytes (joinLines ls) "" acc = (acc ++ ls, "").
Proof.
  induction ls as [|l ls IH]; intros acc H.
  - simpl. rewrite app_nil_r. reflexivity.
  - apply Forall_cons in H as [[Hn Ht] H].
    cbn [joinLines]. rewrite writeBytes_app, (writeBytes_noNewline _ _ _ Hn).
    cbn [fst snd]. change ("" +:+ l) with l.
    change (newline +:+ joinLines ls) with (String (byte 10) (joinLines ls)).
    cbn [writeBytes]. change (isB (byte 10) 10) with true. cbv iota.
    rewrite Ht, (IH _ H), <- app_assoc. reflexivity.
Qed.

(** X23. With nothing in the line buffer, [PrintLines] of lines that hold
    no newline and end in no carriage return does what one write of the
    same lines to the writer does, each followed by a newline: the same
    event, or none if the UI is closed or off. *)
Theorem PrintLines_as_Write (ls : list string) (u : UI) :
  buf u = "" ->
  Forall (fun l => noNewline l = true /\ TrimSuffixCR l = l) ls ->
  PrintLines ls u = Write (joinLines ls) u.
Proof.
  intros Hb Hls. unfold PrintLines, Write, drainBufferedLine.
  rewrite Hb, (writeBytes_joinLines _ [] Hls). simpl app.
  change (String.eqb (TrimSuffixCR "") "") with true. cbv iota. simpl app.
  assert (Hu : setBuf "" u = u) by (rewrite <- Hb; apply setBuf_same).
  destruct (closed u) eqn:Ec; simpl orb; cbv iota; [reflexivity|].
  destruct (isOff (mode u)) eqn:Eo; [|reflexivity].
  destruct ls; [rewrite Hu; reflexivity|].
  unfold emit. simpl. rewrite Ec, Eo, Hu. reflexivity.
Qed.

(* --------------------------------------------------------------------- *)
(** ** The engine state: what an event changes *)
(* --------------------------------------------------------------------- *)

Lemma liveTask_Some (id : Z) (s : engineState) (t : taskState) (g : groupState) :
  liveTask id s = Some (t, g) ->
  taskByID s !! id = Some t /\ groupByID s !! tG t = Some g /\ gSealed g = false.
Proof.
  unfold liveTask. destruct (taskByID s !! id) as [t0|]; [|discriminate].
  destruct (groupByID s !! tG t0) as [g0|] eqn:Eg; [|discriminate].
  destruct (gSealed g0) eqn:Es; [discriminate|]. intros [= <- <-]. auto.
Qed.

Lemma insert_same_group (s : engineState) (id : Z) (g : groupState) :
  groupByID s !! id = Some g -> <[id := g]> (groupByID s) = groupByID s.
Proof. apply insert_id. Qed.

Lemma applyEvent_Change (wall now : Z) (e : Event) (p : Payload) (s : engineState) :
  Change s (applyEvent wall now e p s).
Proof.
  unfold applyEvent. destruct (EType e); try (apply ChangeNone; reflexivity).
  - unfold applyGroupAdd.
    destruct (Z.eqb_spec (GroupID e) 0) as [|Hne]; [apply ChangeNone; reflexivity|].
    destruct (groupByID s !! GroupID e) eqn:E; [apply ChangeNone; reflexivity|].
    eapply ChangeGroupAdd; [exact E | exact Hne | | | reflexivity]; reflexivity.
  - unfold applyGroupUpdate.
    destruct (groupByID s !! GroupID e) as [g|] eqn:E; [|apply ChangeNone; reflexivity].
    destruct (gSealed g) eqn:Es; [apply ChangeNone; reflexivity|].
    eapply ChangeGroup; [exact E | exact Es | | | reflexivity]; reflexivity.
  - unfold applyGroupClose.
    destruct (groupByID s !! GroupID e) as [g|] eqn:E; [|apply ChangeNone; reflexivity].
    destruct (gSealed g) eqn:Es; [apply ChangeNone; reflexivity|].
    destruct (negb _);
      [eapply ChangeGroup; [exact E | exact Es | | | reflexivity]; reflexivity|].
    destruct (gClosed g); [apply ChangeNone; reflexivity|].
    eapply ChangeGroup; [exact E | exact Es | | | reflexivity]; reflexivity.
  - unfold applyTaskAdd.
    destruct (groupByID s !! GroupID e) as [g|] eqn:E; [|apply ChangeNone; reflexivity].
    destruct (gSealed g) eqn:Es; [apply ChangeNone; reflexivity|].
    destruct (Z.eqb_spec (TaskID e) 0) as [|Hne]; [apply ChangeNone; reflexivity|].
    destruct (taskByID s !! TaskID e) eqn:Et; [apply ChangeNone; reflexivity|].
    eapply ChangeTaskAdd; [exact E | exact Es | exact Et | exact Hne | | | | | reflexivity];
      reflexivity.
  - unfold applyTaskUpdate.
    destruct (liveTask (TaskID e) s) as [[t g]|] eqn:E; [|apply ChangeNone; reflexivity].
    destruct (liveTask_Some _ _ _ _ E) as (Ht & Hg & Hs).
    match goal with
    | |- Change _ (setTasks _ (<[_ := ?t']> _) _) =>
        apply (ChangeTask _ _ (TaskID e) t t' g g);
          [exact Ht | exact Hg | exact Hs | reflexivity | reflexivity | reflexivity
           | reflexivity |]
    end.
    rewrite (insert_same_group _ _ _ Hg). reflexivity.
  - unfold applyTaskProgress.
    destruct (liveTask (TaskID e) s) as [[t g]|] eqn:E; [|apply ChangeNone; reflexivity].
    destruct (liveTask_Some _ _ _ _ E) as (Ht & Hg & Hs).
    match goal with
    | |- Change _ (setTasks _ (<[_ := ?t']> _) _) =>
        assert (Hid : tID t' = tID t /\ tG t' = tG t)
    end.
    { repeat match goal with
             | |- context [if ?b then _ else _] => destruct b
             | |- context [match ?x with taskStatusPending => _ | _ => _ end] => destruct x
             | |- context [match ?x with taskKindGeneric => _ | _ => _ end] => destruct x
             end; split; reflexivity. }
    match goal with
    | |- Change _ (setTasks _ (<[_ := ?t']> _) _) =>
        apply (ChangeTask _ _ (TaskID e) t t' g g);
          [exact Ht | exact Hg | exact Hs | exact (proj1 Hid) | exact (proj2 Hid)
           | reflexivity | reflexivity |]
    end.
    rewrite (insert_same_group _ _ _ Hg). reflexivity.
  - unfold applyTaskState.
    destruct (liveTask (TaskID e) s) as [[t g]|] eqn:E; [|apply ChangeNone; reflexivity].
    destruct (liveTask_Some _ _ _ _ E) as (Ht & Hg & Hs).
    destruct (EStatus p) as [status|]; [|apply ChangeNone; reflexivity].
    destruct (taskTransition (tStatus t) status) as [[[st ends] starts]|];
      [|apply ChangeNone; reflexivity].
    match goal with
    | |- Change _ (setTasks (<[tG ?t' := ?g']> _) _ _) =>
        assert (Hid : tID t' = tID t /\ tG t' = tG t);
        [|assert (Hg' : gID g' = gID g /\ gTasks g' = gTasks g)]
    end.
    { repeat match goal with
             | |- context [if ?b then _ else _] => destruct b
             end; split; reflexivity. }
    { destruct (starts && (gStartedAt g =? 0)); split; reflexivity. }
    match goal with
    | |- Change _ (setTasks (<[_ := ?g']> _) (<[_ := ?t']> _) _) =>
        apply (ChangeTask _ _ (TaskID e) t t' g g');
          [exact Ht | exact Hg | exact Hs | exact (proj1 Hid) | exact (proj2 Hid)
           | exact (proj1 Hg') | exact (proj2 Hg') |]
    end.
    rewrite (proj2 Hid). reflexivity.
Qed.

Lemma Change_sealed (s s' : engineState) (gid : Z) (g : groupState) :
  Change s s' -> groupByID s !! gid = Some g -> gSealed g = true ->
  groupByID s' !! gid = Some g
  /\ forall tid t, taskByID s !! tid = Some t -> tG t = gid -> taskByID s' !! tid = Some t.
Proof.
  intros [-> | id g0 Hn _ _ _ -> | id g0 g' Hg Hs _ _ ->
          | gid0 id g0 g' t0 Hg Hs Ht _ _ _ _ _ ->
          | id t0 t' g0 g' Ht Hg Hs _ _ _ _ ->] Hgid Hsealed; simpl.
  - auto.
  - rewrite lookup_insert_ne by congruence. auto.
  - rewrite lookup_insert_ne by congruence. auto.
  - rewrite lookup_insert_ne by congruence. split; [exact Hgid|].
    intros tid t Htid _. rewrite lookup_insert_ne by congruence. exact Htid.
  - rewrite lookup_insert_ne by congruence. split; [exact Hgid|].
    intros tid t Htid HtG. rewrite lookup_insert_ne; [exact Htid|].
    intros ->. rewrite Ht in Htid. injection Htid as ->. congruence.
Qed.

Lemma applyEvents_cons (c : Clocks) (e : Event) (p : Payload)
    (es : list (Clocks * (Event * Payload))) (s : engineState) :
  applyEvents ((c, (e, p)) :: es) s
  = applyEvents es (applyEvent (timeNow c) (eventTime c p) e p s).
Proof. reflexivity. Qed.

(** X24. A sealed group is frozen: no event, of whatever kind and for
    whatever group or task, changes the group or any of its tasks. *)
Theorem sealed_group_frozen (es : list (Clocks * (Event * Payload))) (s : engineState)
    (gid : Z) (g : groupState) :
  groupByID s !! gid = Some g -> gSealed g = true ->
  groupByID (applyEvents es s) !! gid = Some g
  /\ forall tid t, taskByID s !! tid = Some t -> tG t = gid ->
                   taskByID (applyEvents es s) !! tid = Some t.
Proof.
  revert s. induction es as [|[c [e p]] es IH]; intros s Hg Hs; [auto|].
  rewrite applyEvents_cons.
  destruct (Change_sealed _ _ gid g
              (applyEvent_Change (timeNow c) (eventTime c p) e p s) Hg Hs)
    as [H1 H2].
  destruct (IH _ H1 Hs) as [H3 H4]. split; [exact H3|].
  intros tid t Ht HtG. apply H4; [apply H2; assumption | exact HtG].
Qed.

Lemma taskTransition_finished (cur : taskStatus) (status : string) :
  isFinished cur = true -> status <> TaskStatusPending ->
  taskTransition cur status = None.
Proof.
  intros Hf Hp. unfold taskTransition. rewrite Hf.
  assert (Ha : isActive cur = false) by (destruct cur; try discriminate; reflexivity).
  rewrite Ha.
  destruct (String.eqb_spec status TaskStatusPending) as [->|_]; [congruence|].
  destruct cur; try discriminate; simpl;
    repeat match goal with
           | |- context [String.eqb ?a ?b] => destruct (String.eqb a b)
           end; reflexivity.
Qed.

Lemma sameRun_refl (t : taskState) : sameRun t t.
Proof. repeat split. Qed.

Lemma sameRun_trans (t1 t2 t3 : taskState) : sameRun t1 t2 -> sameRun t2 t3 -> sameRun t1 t3.
Proof.
  unfold sameRun. intros (A1 & A2 & A3 & A4 & A5 & A6 & A7 & A8)
                         (B1 & B2 & B3 & B4 & B5 & B6 & B7 & B8).
  repeat split; congruence.
Qed.

Lemma applyEvent_finished (wall now : Z) (e : Event) (p : Payload) (s : engineState)
    (tid : Z) (t : taskState) :
  taskByID s !! tid = Some t -> isFinished (tStatus t) = true ->
  EStatus p <> Some TaskStatusPending ->
  exists t', taskByID (applyEvent wall now e p s) !! tid = Some t' /\ sameRun t t'.
Proof.
  intros Ht Hf Hp.
  assert (Hsame : exists t', taskByID s !! tid = Some t' /\ sameRun t t')
    by (exists t; split; [exact Ht | apply sameRun_refl]).
  unfold applyEvent. destruct (EType e); try exact Hsame.
  - unfold applyGroupAdd. destruct (GroupID e =? 0); [exact Hsame|].
    destruct (groupByID s !! GroupID e); exact Hsame.
  - unfold applyGroupUpdate. destruct (groupByID s !! GroupID e) as [g|]; [|exact Hsame].
    destruct (gSealed g); exact Hsame.
  - unfold applyGroupClose. destruct (groupByID s !! GroupID e) as [g|]; [|exact Hsame].
    destruct (gSealed g); [exact Hsame|]. destruct (negb _); [exact Hsame|].
    destruct (gClosed g); exact Hsame.
  - unfold applyTaskAdd. destruct (groupByID s !! GroupID e) as [g|]; [|exact Hsame].
    destruct (gSealed g); [exact Hsame|]. destruct (TaskID e =? 0); [exact Hsame|].
    destruct (taskByID s !! TaskID e) eqn:Et; [exact Hsame|].
    simpl. rewrite lookup_insert_ne by congruence. exact Hsame.
  - unfold applyTaskUpdate.
    destruct (liveTask (TaskID e) s) as [[t0 g]|] eqn:E; [|exact Hsame].
    destruct (liveTask_Some _ _ _ _ E) as (Ht0 & _). simpl.
    destruct (decide (TaskID e = tid)) as [Heq|Hne].
    + rewrite Heq in *. rewrite Ht in Ht0. injection Ht0 as <-.
      rewrite lookup_insert_eq. eexists. split; [reflexivity|]. repeat split.
    + rewrite lookup_insert_ne by exact Hne. exact Hsame.
  - unfold applyTaskProgress.
    destruct (liveTask (TaskID e) s) as [[t0 g]|] eqn:E; [|exact Hsame].
    destruct (liveTask_Some _ _ _ _ E) as (Ht0 & _). simpl.
    destruct (decide (TaskID e = tid)) as [Heq|Hne].
    + rewrite Heq in *. rewrite Ht in Ht0. injection Ht0 as <-.
      rewrite lookup_insert_eq. eexists. split; [reflexivity|].
      destruct (tStatus t) eqn:Est; try discriminate;
        destruct (ETotal p), (ECurrent p); unfold sameRun; simpl; rewrite ?Est;
        repeat split; auto.
    + rewrite lookup_insert_ne by exact Hne. exact Hsame.
  - unfold applyTaskState.
    destruct (liveTask (TaskID e) s) as [[t0 g]|] eqn:E; [|exact Hsame].
    destruct (liveTask_Some _ _ _ _ E) as (Ht0 & _).
    destruct (EStatus p) as [status|] eqn:Est; [|exact Hsame].
    destruct (decide (TaskID e = tid)) as [Heq|Hne].
    + rewrite Heq in *. rewrite Ht in Ht0. injection Ht0 as <-.
      rewrite (taskTransition_finished _ _ Hf) by congruence. exact Hsame.
    + destruct (taskTransition (tStatus t0) status) as [[[st ends] starts]|];
        [|exact Hsame].
      simpl. rewrite lookup_insert_ne by exact Hne. exact Hsame.
Qed.

Lemma callEmits_not_pending (now : Z) (c : Call) :
  EStatus (callEmits now c).2 <> Some TaskStatusPending.
Proof. destruct c as [gid title|gid m|tid m]; [|destruct m|destruct m]; discriminate. Qed.

(** X25. Whatever a program does through its handles, a task that is
    finished (done, failed, skipped or canceled) stays as it is: its status,
    its start and end time, its progress and its speed are kept. No method
    of a handle sends the status "pending", the one status that the engine
    lets a finished task move to. *)
Theorem finished_task_stays (calls : list (Clocks * (Z * Call))) (s : engineState)
    (tid : Z) (t : taskState) :
  taskByID s !! tid = Some t -> isFinished (tStatus t) = true ->
  exists t',
    taskByID (applyEvents (eventsOf calls) s) !! tid = Some t'
    /\ tStatus t' = tStatus t /\ tStartAt t' = tStartAt t /\ tEndAt t' = tEndAt t
    /\ tCurrent t' = tCurrent t /\ tTotal t' = tTotal t /\ tSpeedBps t' = tSpeedBps t.
Proof.
  revert s t. induction calls as [|[k [now c]] calls IH]; intros s t Ht Hf.
  - exists t. repeat split; auto.
  - unfold eventsOf. cbn [List.map fst snd]. fold (eventsOf calls).
    destruct (callEmits now c) as [e p] eqn:Ec.
    rewrite applyEvents_cons.
    pose proof (callEmits_not_pending now c) as Hnp. rewrite Ec in Hnp. simpl in Hnp.
    destruct (applyEvent_finished (timeNow k) (eventTime k p) e p s tid t
                Ht Hf Hnp) as (t1 & Ht1 & S1).
    assert (Hf1 : isFinished (tStatus t1) = true).
    { destruct S1 as (_ & _ & -> & _). exact Hf. }
    destruct (IH _ _ Ht1 Hf1) as (t' & Ht' & A1 & A2 & A3 & A4 & A5 & A6).
    destruct S1 as (_ & _ & B3 & B4 & B5 & B6 & B7 & B8).
    exists t'. split; [exact Ht'|]. repeat split; congruence.
Qed.

(* --------------------------------------------------------------------- *)
(** ** The engine state: its invariants *)
(* --------------------------------------------------------------------- *)

Lemma wfState_new : wfState newEngineState.
Proof.
  constructor; simpl; try (intros; rewrite lookup_empty in *; discriminate).
  - apply NoDup_nil_2.
  - intros id. rewrite lookup_empty. split.
    + intros H. apply elem_of_nil in H. destruct H.
    + intros [x H]. discriminate.
Qed.

Lemma wfState_Change (s s' : engineState) : Change s s' -> wfState s -> wfState s'.
Proof.
  intros [-> | id g Hn Hid0 Hgid Hgt -> | id g g' Hg Hs Hgid Hgt ->
          | gid id g g' t Hg Hs Ht Hid0 Htid HtG Hgid Hgt ->
          | id t t' g g' Ht Hg Hs Htid HtG Hgid Hgt ->] [W1 W2 W3 W4 W5 W6 W7];
    [constructor; assumption | | | |].
  - (* a new group *)
    constructor; simpl.
    + apply NoDup_app. split; [exact W1|]. split; [|apply NoDup_singleton].
      intros x Hx Hx'. apply list_elem_of_singleton in Hx'. subst x.
      apply W2 in Hx. rewrite Hn in Hx. destruct Hx as [? Hx]. discriminate.
    + intros x. rewrite elem_of_app, list_elem_of_singleton, W2.
      destruct (decide (x = id)) as [->|Hne].
      * rewrite lookup_insert_eq. split; eauto.
      * rewrite lookup_insert_ne by congruence. split; [intros [H | H]; [exact H | congruence] | auto].
    + intros x g0. destruct (decide (x = id)) as [->|Hne].
      * rewrite lookup_insert_eq. intros [= <-]. auto.
      * rewrite lookup_insert_ne by congruence. apply W3.
    + intros x g0. destruct (decide (x = id)) as [->|Hne].
      * rewrite lookup_insert_eq. intros [= <-]. rewrite Hgt. apply NoDup_nil_2.
      * rewrite lookup_insert_ne by congruence. apply W4.
    + exact W5.
    + intros x t Hx. destruct (W6 _ _ Hx) as (g0 & Hg0 & Hin). exists g0.
      split; [|exact Hin]. rewrite lookup_insert_ne by congruence. exact Hg0.
    + intros x g0 y. destruct (decide (x = id)) as [->|Hne].
      * rewrite lookup_insert_eq. intros [= <-]. rewrite Hgt. intros H.
        apply elem_of_nil in H. destruct H.
      * rewrite lookup_insert_ne by congruence. apply W7.
  - (* a group replaced *)
    destruct (W3 _ _ Hg) as [Hidg Hne0].
    constructor; simpl.
    + exact W1.
    + intros x. rewrite W2. destruct (decide (x = id)) as [->|Hne].
      * rewrite lookup_insert_eq, Hg. split; eauto.
      * rewrite lookup_insert_ne by congruence. tauto.
    + intros x g0. destruct (decide (x = id)) as [->|Hne].
      * rewrite lookup_insert_eq. intros [= <-]. rewrite Hgid. auto.
      * rewrite lookup_insert_ne by congruence. apply W3.
    + intros x g0. destruct (decide (x = id)) as [->|Hne].
      * rewrite lookup_insert_eq. intros [= <-]. rewrite Hgt. exact (W4 _ _ Hg).
      * rewrite lookup_insert_ne by congruence. apply W4.
    + exact W5.
    + intros x t Hx. destruct (W6 _ _ Hx) as (g0 & Hg0 & Hin).
      destruct (decide (tG t = id)) as [E|Hne].
      * exists g'. rewrite E, lookup_insert_eq. split; [reflexivity|].
        rewrite Hgt. rewrite E, Hg in Hg0. injection Hg0 as <-. exact Hin.
      * exists g0. rewrite lookup_insert_ne by congruence. auto.
    + intros x g0 y. destruct (decide (x = id)) as [->|Hne].
      * rewrite lookup_insert_eq. intros [= <-]. rewrite Hgt. apply (W7 _ _ _ Hg).
      * rewrite lookup_insert_ne by congruence. apply W7.
  - (* a new task *)
    destruct (W3 _ _ Hg) as [Hidg Hne0].
    assert (Hfresh : id ∉ gTasks g).
    { intros Hin. destruct (W7 _ _ _ Hg Hin) as (t0 & Ht0 & _). congruence. }
    constructor; simpl.
    + exact W1.
    + intros x. rewrite W2. destruct (decide (x = gid)) as [->|Hne].
      * rewrite lookup_insert_eq, Hg. split; eauto.
      * rewrite lookup_insert_ne by congruence. tauto.
    + intros x g0. destruct (decide (x = gid)) as [->|Hne].
      * rewrite lookup_insert_eq. intros [= <-]. rewrite Hgid. auto.
      * rewrite lookup_insert_ne by congruence. apply W3.
    + intros x g0. destruct (decide (x = gid)) as [->|Hne].
      * rewrite lookup_insert_eq. intros [= <-]. rewrite Hgt.
        apply NoDup_app. split; [exact (W4 _ _ Hg)|]. split; [|apply NoDup_singleton].
        intros y Hy Hy'. apply list_elem_of_singleton in Hy'. subst y. exact (Hfresh Hy).
      * rewrite lookup_insert_ne by congruence. apply W4.
    + intros x t0. destruct (decide (x = id)) as [->|Hne].
      * rewrite lookup_insert_eq. intros [= <-]. auto.
      * rewrite lookup_insert_ne by congruence. apply W5.
    + intros x t0. destruct (decide (x = id)) as [->|Hne].
      * rewrite lookup_insert_eq. intros [= <-]. exists g'.
        rewrite HtG, lookup_insert_eq. split; [reflexivity|].
        rewrite Hgt, elem_of_app, list_elem_of_singleton. auto.
      * rewrite lookup_insert_ne by congruence. intros Hx.
        destruct (W6 _ _ Hx) as (g0 & Hg0 & Hin).
        destruct (decide (tG t0 = gid)) as [E|Hne'].
        -- exists g'. rewrite E, lookup_insert_eq. split; [reflexivity|].
           rewrite Hgt, elem_of_app. left.
           rewrite E, Hg in Hg0. injection Hg0 as <-. exact Hin.
        -- exists g0. rewrite lookup_insert_ne by congruence. auto.
    + intros x g0 y. destruct (decide (x = gid)) as [->|Hne].
      * rewrite lookup_insert_eq. intros [= <-]. rewrite Hgt, elem_of_app.
        intros [Hin | Hin].
        -- destruct (W7 _ _ _ Hg Hin) as (t0 & Ht0 & HtG0). exists t0.
           rewrite lookup_insert_ne by congruence. auto.
        -- apply list_elem_of_singleton in Hin. subst y. exists t.
           rewrite lookup_insert_eq. auto.
      * rewrite lookup_insert_ne by congruence. intros Hx Hin.
        destruct (W7 _ _ _ Hx Hin) as (t0 & Ht0 & HtG0). exists t0.
        rewrite lookup_insert_ne by congruence. auto.
  - (* a task replaced, and perhaps its group *)
    destruct (W3 _ _ Hg) as [Hidg Hne0]. destruct (W5 _ _ Ht) as [Hidt Hne0'].
    constructor; simpl.
    + exact W1.
    + intros x. rewrite W2. destruct (decide (x = tG t)) as [->|Hne].
      * rewrite lookup_insert_eq, Hg. split; eauto.
      * rewrite lookup_insert_ne by congruence. tauto.
    + intros x g0. destruct (decide (x = tG t)) as [->|Hne].
      * rewrite lookup_insert_eq. intros [= <-]. rewrite Hgid. auto.
      * rewrite lookup_insert_ne by congruence. apply W3.
    + intros x g0. destruct (decide (x = tG t)) as [->|Hne].
      * rewrite lookup_insert_eq. intros [= <-]. rewrite Hgt. exact (W4 _ _ Hg).
      * rewrite lookup_insert_ne by congruence. apply W4.
    + intros x t0. destruct (decide (x = id)) as [->|Hne].
      * rewrite lookup_insert_eq. intros [= <-]. rewrite Htid. auto.
      * rewrite lookup_insert_ne by congruence. apply W5.
    + assert (Hold : forall x t0, taskByID s !! x = Some t0 ->
                exists g0, <[tG t := g']> (groupByID s) !! tG t0 = Some g0
                           /\ x ∈ gTasks g0).
      { intros x t0 Hx. destruct (W6 _ _ Hx) as (g0 & Hg0 & Hin).
        destruct (decide (tG t0 = tG t)) as [E|Hne'].
        - exists g'. rewrite E, lookup_insert_eq. split; [reflexivity|].
          rewrite Hgt. rewrite E, Hg in Hg0. injection Hg0 as <-. exact Hin.
        - exists g0. rewrite lookup_insert_ne by congruence. auto. }
      intros x t0. destruct (decide (x = id)) as [->|Hne].
      * rewrite lookup_insert_eq. intros [= <-]. rewrite HtG. apply (Hold _ _ Ht).
      * rewrite lookup_insert_ne by congruence. apply Hold.
    + assert (Hold : forall x g0 y, groupByID s !! x = Some g0 -> y ∈ gTasks g0 ->
                exists t0, <[id := t']> (taskByID s) !! y = Some t0 /\ tG t0 = x).
      { intros x g0 y Hx Hin. destruct (W7 _ _ _ Hx Hin) as (t0 & Ht0 & HtG0).
        destruct (decide (y = id)) as [->|Hne'].
        - exists t'. rewrite lookup_insert_eq. split; [reflexivity|]. congruence.
        - exists t0. rewrite lookup_insert_ne by congruence. auto. }
      intros x g0 y. destruct (decide (x = tG t)) as [->|Hne].
      * rewrite lookup_insert_eq. intros [= <-]. rewrite Hgt. apply (Hold _ _ _ Hg).
      * rewrite lookup_insert_ne by congruence. apply Hold.
Qed.

Lemma applyEvents_invariant (P : engineState -> Prop) (Q : Clocks -> Prop) :
  (forall c now e p s, Q c -> P s -> P (applyEvent (timeNow c) now e p s)) ->
  forall es s, Forall (fun k => Q k.1) es -> P s -> P (applyEvents es s).
Proof.
  intros Hstep es. induction es as [|[c [e p]] es IH]; intros s Hq Hs; [exact Hs|].
  rewrite applyEvents_cons. inversion Hq as [|? ? Hc Hq']; subst.
  apply IH; [exact Hq'|]. apply Hstep; [exact Hc | exact Hs].
Qed.

Lemma Forall_trivial (es : list (Clocks * (Event * Payload))) :
  Forall (fun k => (fun _ : Clocks => True) k.1) es.
Proof. induction es; constructor; auto. Qed.

(** X26. The engine state stays well formed under every event, from the
    empty state on: the list of groups and the map hold the same groups,
    each once; every group and task sits under its own id, never 0; every
    task is listed by exactly the group it points to, once; and every task
    that a group lists exists. So an event that adds a group or a task
    under an id in use adds nothing. *)
Theorem engineState_well_formed (es : list (Clocks * (Event * Payload))) :
  wfState (applyEvents es newEngineState)
  /\ forall s, wfState s -> wfState (applyEvents es s).
Proof.
  assert (H : forall s, wfState s -> wfState (applyEvents es s)).
  { intros s. apply (applyEvents_invariant wfState (fun _ => True)).
    - intros c now e p s' _. apply wfState_Change, applyEvent_Change.
    - apply Forall_trivial. }
  split; [apply H, wfState_new | exact H].
Qed.

Lemma wrap64_range (z : Z) : - 2 ^ 63 <= wrap64 z <= maxDuration.
Proof.
  unfold wrap64, maxDuration.
  pose proof (Z.mod_pos_bound (z + 2 ^ 63) (2 ^ 64) ltac:(lia)). lia.
Qed.

Lemma wrap64_small (z : Z) : - 2 ^ 63 <= z < 2 ^ 63 -> wrap64 z = z.
Proof. intros H. unfold wrap64. rewrite Z.mod_small; lia. Qed.

Lemma ranges_step (wall now : Z) (e : Event) (p : Payload) (s : engineState) :
  ranges s -> ranges (applyEvent wall now e p s).
Proof.
  intros HR.
  assert (Hins : forall gm id t',
            (0 <= tCurrent t' /\ 0 <= tTotal t' /\ 0 <= tRevealAfter t' <= maxDuration) ->
            ranges (setTasks gm (<[id := t']> (taskByID s)) s)).
  { intros gm id t' Hok x t0. simpl. destruct (decide (x = id)) as [->|Hne].
    - rewrite lookup_insert_eq. intros [= <-]. exact Hok.
    - rewrite lookup_insert_ne by congruence. apply HR. }
  unfold applyEvent. destruct (EType e); try exact HR.
  - unfold applyGroupAdd. destruct (GroupID e =? 0); [exact HR|].
    destruct (groupByID s !! GroupID e); exact HR.
  - unfold applyGroupUpdate. destruct (groupByID s !! GroupID e) as [g|]; [|exact HR].
    destruct (gSealed g); exact HR.
  - unfold applyGroupClose. destruct (groupByID s !! GroupID e) as [g|]; [|exact HR].
    destruct (gSealed g); [exact HR|]. destruct (negb _); [exact HR|].
    destruct (gClosed g); exact HR.
  - unfold applyTaskAdd. destruct (groupByID s !! GroupID e) as [g|]; [|exact HR].
    destruct (gSealed g); [exact HR|]. destruct (TaskID e =? 0); [exact HR|].
    destruct (taskByID s !! TaskID e); [exact HR|].
    apply Hins. simpl. unfold maxDuration. lia.
  - unfold applyTaskUpdate.
    destruct (liveTask (TaskID e) s) as [[t g]|] eqn:E; [|exact HR].
    destruct (liveTask_Some _ _ _ _ E) as (Ht & _).
    destruct (HR _ _ Ht) as (H1 & H2 & H3).
    apply Hins. simpl. split; [exact H1|]. split; [exact H2|].
    destruct (ERevealAfterMs p) as [ms|]; [|exact H3].
    pose proof (wrap64_range (ms * Millisecond)).
    destruct (Z.ltb_spec (wrap64 (ms * Millisecond)) 0); unfold maxDuration in *; lia.
  - unfold applyTaskProgress.
    destruct (liveTask (TaskID e) s) as [[t g]|] eqn:E; [|exact HR].
    destruct (liveTask_Some _ _ _ _ E) as (Ht & _).
    destruct (HR _ _ Ht) as (H1 & H2 & H3).
    apply Hins.
    assert (Hc : 0 <= match ECurrent p with
                      | Some cur =>
                          if match tStatus t with
                             | taskStatusPending | taskStatusRunning
                             | taskStatusRetrying => true
                             | _ => false
                             end
                          then if cur <? 0 then 0 else cur else tCurrent t
                      | None => tCurrent t
                      end).
    { destruct (ECurrent p) as [cur|]; [|exact H1].
      destruct (match tStatus t with taskStatusPending => _ | _ => _ end); [|exact H1].
      destruct (Z.ltb_spec cur 0); lia. }
    assert (Htot : 0 <= match ETotal p with
                        | Some total =>
                            if match tStatus t with
                               | taskStatusPending | taskStatusRunning
                               | taskStatusRetrying => true
                               | _ => false
                               end
                            then if total <? 0 then 0 else total else tTotal t
                        | None => tTotal t
                        end).
    { destruct (ETotal p) as [total|]; [|exact H2].
      destruct (match tStatus t with taskStatusPending => _ | _ => _ end); [|exact H2].
      destruct (Z.ltb_spec total 0); lia. }
    repeat match goal with
           | |- context [match tStatus ?x with taskStatusPending => _ | _ => _ end] =>
               destruct (tStatus x)
           | |- context [match tKind ?x with taskKindGeneric => _ | _ => _ end] =>
               destruct (tKind x)
           | |- context [if ?b then _ else _] => destruct b
           end; simpl; auto.
  - unfold applyTaskState.
    destruct (liveTask (TaskID e) s) as [[t g]|] eqn:E; [|exact HR].
    destruct (liveTask_Some _ _ _ _ E) as (Ht & _).
    destruct (HR _ _ Ht) as (H1 & H2 & H3).
    destruct (EStatus p) as [status|]; [|exact HR].
    destruct (taskTransition (tStatus t) status) as [[[st ends] starts]|]; [|exact HR].
    apply Hins.
    repeat match goal with
           | |- context [if ?b then _ else _] => destruct b
           end; simpl; auto.
Qed.

(** X27. The numbers of the tasks stay in range under every event, from
    the empty state on: a negative progress or total of an event is taken
    as 0, and a reveal delay, negative or too large for a duration, ends as
    a duration that is not negative. *)
Theorem engineState_ranges (es : list (Clocks * (Event * Payload))) :
  ranges (applyEvents es newEngineState)
  /\ forall s, ranges s -> ranges (applyEvents es s).
Proof.
  assert (H : forall s, ranges s -> ranges (applyEvents es s)).
  { intros s. apply (applyEvents_invariant ranges (fun _ => True)).
    - intros c now e p s' _. apply ranges_step.
    - apply Forall_trivial. }
  split; [apply H | exact H].
  intros id t. simpl. rewrite lookup_empty. discriminate.
Qed.

(** Where a state event leads: to pending; to running or retrying, with
    the start ensured; from running or retrying to done, with the end set;
    or to error, skipped or canceled, with the end set and the start
    ensured. *)
Lemma taskTransition_cases (cur : taskStatus) (status : string)
    (st : taskStatus) (ends starts : bool) :
  taskTransition cur status = Some (st, ends, starts) ->
  (st = taskStatusPending /\ ends = false /\ starts = false)
  \/ (isActive st = true /\ ends = false /\ starts = true)
  \/ (st = taskStatusDone /\ isActive cur = true /\ ends = true /\ starts = false)
  \/ (isFinished st = true /\ ends = true /\ starts = true).
Proof.
  unfold taskTransition.
  destruct (match cur with taskStatusError => _ | _ => false end); [discriminate|].
  destruct (String.eqb status TaskStatusPending); [intros [= <- <- <-]; auto|].
  destruct (String.eqb status TaskStatusRunning).
  { destruct (isFinished cur); [discriminate|]. intros [= <- <- <-]. auto. }
  destruct (String.eqb status TaskStatusRetrying).
  { destruct (isFinished cur); [discriminate|]. intros [= <- <- <-]. auto. }
  destruct (String.eqb status TaskStatusDone).
  { destruct (isActive cur) eqn:E; [|discriminate]. intros [= <- <- <-].
    right. right. left. auto. }
  destruct (String.eqb status TaskStatusError).
  { destruct cur; try discriminate; intros [= <- <- <-]; right; right; right; auto. }
  destruct (String.eqb status TaskStatusSkipped).
  { destruct (isFinished cur); [discriminate|]. intros [= <- <- <-].
    right. right. right. auto. }
  destruct (String.eqb status TaskStatusCanceled).
  { destruct (isFinished cur); [discriminate|]. intros [= <- <- <-].
    right. right. right. auto. }
  discriminate.
Qed.

Lemma timed_step (wall now : Z) (e : Event) (p : Payload) (s : engineState) :
  wall <> 0 -> timed s -> timed (applyEvent wall now e p s).
Proof.
  intros Hwall [HG HT].
  assert (Hnow : (if now =? 0 then wall else now) <> 0).
  { destruct (Z.eqb_spec now 0); assumption. }
  set (now' := if now =? 0 then wall else now) in *.
  assert (HinsG : forall gs id g' tm,
            (forall x t, tm !! x = Some t ->
               (tStatus t <> taskStatusPending -> tStartAt t <> 0)
               /\ (isFinished (tStatus t) = true -> tEndAt t <> 0)) ->
            (gStartedAt g' <> 0 /\ (gClosed g' = true -> gClosedAt g' <> 0)) ->
            timed {| groups := gs; groupByID := <[id := g']> (groupByID s);
                     taskByID := tm |}).
  { intros gs id g' tm Htm Hok. split; simpl; [|exact Htm].
    intros x g0. destruct (decide (x = id)) as [->|Hne].
    - rewrite lookup_insert_eq. intros [= <-]. exact Hok.
    - rewrite lookup_insert_ne by congruence. apply HG. }
  assert (HinsT : forall id t',
            ((tStatus t' <> taskStatusPending -> tStartAt t' <> 0)
             /\ (isFinished (tStatus t') = true -> tEndAt t' <> 0)) ->
            forall x t, <[id := t']> (taskByID s) !! x = Some t ->
              (tStatus t <> taskStatusPending -> tStartAt t <> 0)
              /\ (isFinished (tStatus t) = true -> tEndAt t <> 0)).
  { intros id t' Hok x t0. destruct (decide (x = id)) as [->|Hne].
    - rewrite lookup_insert_eq. intros [= <-]. exact Hok.
    - rewrite lookup_insert_ne by congruence. apply HT. }
  assert (Hsame : timed s) by (split; assumption).
  unfold applyEvent. fold now'. destruct (EType e); try exact Hsame.
  - unfold applyGroupAdd. destruct (GroupID e =? 0); [exact Hsame|].
    destruct (groupByID s !! GroupID e); [exact Hsame|].
    apply HinsG; [exact HT|]. simpl. split; [exact Hnow | discriminate].
  - unfold applyGroupUpdate.
    destruct (groupByID s !! GroupID e) as [g|] eqn:E; [|exact Hsame].
    destruct (gSealed g); [exact Hsame|]. apply HinsG; [exact HT|]. exact (HG _ _ E).
  - unfold applyGroupClose.
    destruct (groupByID s !! GroupID e) as [g|] eqn:E; [|exact Hsame].
    destruct (gSealed g); [exact Hsame|].
    destruct (negb _); [apply HinsG; [exact HT | exact (HG _ _ E)]|].
    destruct (gClosed g); [exact Hsame|]. apply HinsG; [exact HT|]. simpl.
    split; [exact (proj1 (HG _ _ E)) | intros _; exact Hnow].
  - unfold applyTaskAdd.
    destruct (groupByID s !! GroupID e) as [g|] eqn:E; [|exact Hsame].
    destruct (gSealed g); [exact Hsame|]. destruct (TaskID e =? 0); [exact Hsame|].
    destruct (taskByID s !! TaskID e); [exact Hsame|].
    apply HinsG.
    + apply HinsT. simpl. destruct (EPending p); split; try congruence; discriminate.
    + simpl. split; [|exact (proj2 (HG _ _ E))].
      destruct (Z.eqb_spec (gStartedAt g) 0); assumption.
  - unfold applyTaskUpdate.
    destruct (liveTask (TaskID e) s) as [[t g]|] eqn:E; [|exact Hsame].
    destruct (liveTask_Some _ _ _ _ E) as (Ht & _).
    split; [exact HG|]. simpl. apply HinsT. simpl. exact (HT _ _ Ht).
  - unfold applyTaskProgress.
    destruct (liveTask (TaskID e) s) as [[t g]|] eqn:E; [|exact Hsame].
    destruct (liveTask_Some _ _ _ _ E) as (Ht & _).
    split; [exact HG|]. simpl. apply HinsT.
    pose proof (HT _ _ Ht) as Hok.
    match goal with
    | |- (tStatus ?t' <> _ -> _) /\ _ =>
        assert (Hk : tStatus t' = tStatus t /\ tStartAt t' = tStartAt t
                     /\ tEndAt t' = tEndAt t)
    end.
    { clear. destruct t as [? ? ? k st ? ? ? ? ? ? ? ? ? ? ? ? ?]. simpl.
      destruct st, k; simpl;
        repeat match goal with
               | |- context [if ?b then _ else _] => destruct b
               end; repeat split; reflexivity. }
    destruct Hk as (-> & -> & ->). exact Hok.
  - unfold applyTaskState.
    destruct (liveTask (TaskID e) s) as [[t g]|] eqn:E; [|exact Hsame].
    destruct (liveTask_Some _ _ _ _ E) as (Ht & Hg & _).
    destruct (EStatus p) as [status|]; [|exact Hsame].
    destruct (taskTransition (tStatus t) status) as [[[st ends] starts]|] eqn:Etr;
      [|exact Hsame].
    destruct (HT _ _ Ht) as [Hs He]. destruct (HG _ _ Hg) as [Hgs Hgc].
    assert (Hstart : st <> taskStatusPending ->
              (if starts && (tStartAt t =? 0) then now' else tStartAt t) <> 0).
    { intros Hnp.
      destruct (taskTransition_cases _ _ _ _ _ Etr)
        as [(-> & _) | [(_ & _ & ->) | [(_ & Hact & _ & ->) | (_ & _ & ->)]]].
      - congruence.
      - simpl. destruct (Z.eqb_spec (tStartAt t) 0); assumption.
      - simpl. apply Hs. destruct (tStatus t); try discriminate; congruence.
      - simpl. destruct (Z.eqb_spec (tStartAt t) 0); assumption. }
    assert (Hend : isFinished st = true -> (if ends then now' else tEndAt t) <> 0).
    { intros Hf.
      destruct (taskTransition_cases _ _ _ _ _ Etr)
        as [(-> & _) | [(Hact & _) | [(_ & _ & -> & _) | (_ & -> & _)]]];
        [discriminate | destruct st; discriminate | exact Hnow | exact Hnow]. }
    match goal with
    | |- timed (setTasks (<[tG ?t' := ?g']> _) (<[_ := ?t']> _) _) =>
        assert (Ht' : (tStatus t' <> taskStatusPending -> tStartAt t' <> 0)
                      /\ (isFinished (tStatus t') = true -> tEndAt t' <> 0));
        [|assert (Hg' : gStartedAt g' <> 0 /\ (gClosed g' = true -> gClosedAt g' <> 0));
          [|assert (HtG : tG t' = tG t)]]
    end.
    { repeat match goal with
             | |- context [if ?b then _ else _] => destruct b
             end; simpl; auto. }
    { destruct (starts && (gStartedAt g =? 0)); simpl; auto. }
    { repeat match goal with
             | |- context [if ?b then _ else _] => destruct b
             end; reflexivity. }
    rewrite HtG. apply HinsG; [apply HinsT; exact Ht' | exact Hg'].
Qed.

(** X28. With a [time.Now()] that never reads the zero time, the times of
    the engine state are set when they are due, under every event and from
    the empty state on: every group has its start time, and its closing
    time once it is closed; every task that has left "pending" has its
    start time; and every finished task has its end time. *)
Theorem engineState_timed (es : list (Clocks * (Event * Payload))) :
  Forall (fun k => timeNow k.1 <> 0) es ->
  timed (applyEvents es newEngineState)
  /\ forall s, timed s -> timed (applyEvents es s).
Proof.
  intros Hwall.
  assert (H : forall s, timed s -> timed (applyEvents es s)).
  { intros s. apply (applyEvents_invariant timed (fun c => timeNow c <> 0)).
    - intros c now e p s' Hc. apply timed_step. exact Hc.
    - exact Hwall. }
  split; [apply H | exact H].
  split; intros id x; simpl; rewrite lookup_empty; discriminate.
Qed.

(* --------------------------------------------------------------------- *)
(** ** The engine state: doing it twice, and the reveal delay *)
(* --------------------------------------------------------------------- *)

(** X29. Adding and closing are idempotent: an event that adds a group,
    adds a task, closes a group or seals it, applied a second time, at
    whatever time, changes nothing. So [Close] and [Seal] of a group handle
    are safe to call again. *)
Theorem add_close_idempotent (wall wall2 now now2 : Z) (e : Event) (p : Payload)
    (s : engineState) :
  EType e = EventGroupAdd \/ EType e = EventGroupClose \/ EType e = EventTaskAdd ->
  applyEvent wall2 now2 e p (applyEvent wall now e p s) = applyEvent wall now e p s.
Proof.
  intros Hty. unfold applyEvent.
  destruct Hty as [-> | [-> | ->]].
  - unfold applyGroupAdd. destruct (GroupID e =? 0) eqn:E0; [reflexivity|].
    destruct (groupByID s !! GroupID e) eqn:E; [rewrite E; reflexivity|].
    simpl. rewrite lookup_insert_eq. reflexivity.
  - unfold applyGroupClose.
    destruct (groupByID s !! GroupID e) as [g|] eqn:E; [|rewrite E; reflexivity].
    destruct (gSealed g) eqn:Es; [rewrite E, Es; reflexivity|].
    destruct (negb (default true (EFinished p))) eqn:Ef.
    + simpl. rewrite lookup_insert_eq. reflexivity.
    + destruct (gClosed g) eqn:Ec; [rewrite E, Es, Ec; reflexivity|].
      simpl. rewrite lookup_insert_eq. simpl. rewrite Es. reflexivity.
  - unfold applyTaskAdd.
    destruct (groupByID s !! GroupID e) as [g|] eqn:E; [|rewrite E; reflexivity].
    destruct (gSealed g) eqn:Es; [rewrite E, Es; reflexivity|].
    destruct (TaskID e =? 0) eqn:E0; [rewrite E, Es; reflexivity|].
    destruct (taskByID s !! TaskID e) eqn:Et; [rewrite E, Es, Et; reflexivity|].
    simpl. rewrite lookup_insert_eq. simpl. rewrite Es, lookup_insert_eq.
    reflexivity.
Qed.

(** X30. The reveal delay that [SetHideIfFast] asks for reaches a live
    task in whole milliseconds, rounded down, and a negative delay as 0;
    the task is marked to be hidden if fast, and nothing else of it
    changes. *)
Theorem SetHideIfFast_reveal (wall now : Z) (tid d : Z) (s : engineState)
    (t : taskState) (g : groupState) :
  liveTask tid s = Some (t, g) -> minDuration <= d <= maxDuration ->
  let ep := TaskHandle.emits tid now (TaskHandle.SetHideIfFast d) in
  exists t',
    taskByID (applyEvent wall now ep.1 ep.2 s) !! tid = Some t'
    /\ tHideIfFast t' = true
    /\ tRevealAfter t' = (if d <? 0 then 0 else d - d mod Millisecond)
    /\ tKind t' = tKind t /\ tMeta t' = tMeta t /\ tMessage t' = tMessage t
    /\ sameRun t t'.
Proof.
  intros Hlive Hd ep. unfold ep, applyEvent. simpl.
  unfold applyTaskUpdate. simpl. rewrite Hlive. simpl. rewrite lookup_insert_eq.
  eexists. split; [reflexivity|]. simpl. split; [reflexivity|].
  split; [|repeat split].
  remember (if d <? 0 then 0 else d) as d' eqn:Hdef.
  assert (Hr : 0 <= d' <= 2 ^ 63 - 1).
  { unfold minDuration, maxDuration in Hd. rewrite Hdef. destruct (Z.ltb_spec d 0); lia. }
  assert (Hms : 0 < Millisecond) by (unfold Millisecond; lia).
  assert (Hq : Z.quot d' Millisecond * Millisecond = d' - d' mod Millisecond).
  { rewrite Z.quot_div_nonneg by lia.
    pose proof (Z.div_mod d' Millisecond ltac:(lia)). lia. }
  pose proof (Z.mod_pos_bound d' Millisecond Hms) as Hmod.
  assert (Hle : 0 <= d' - d' mod Millisecond < 2 ^ 63).
  { pose proof (Z.mod_le d' Millisecond ltac:(lia) Hms) as Hmle.
    clear Hq. remember (d' mod Millisecond) as r. lia. }
  rewrite Hq, wrap64_small by (remember (d' - d' mod Millisecond) as x; lia).
  destruct (Z.ltb_spec (d' - d' mod Millisecond) 0) as [Hlt|_];
    [remember (d' - d' mod Millisecond) as x; lia|].
  rewrite Hdef. destruct (Z.ltb_spec d 0); [|reflexivity].
  rewrite Z.mod_0_l by lia. reflexivity.
Qed.

(* --------------------------------------------------------------------- *)
(** ** The further theorems at the sample worlds and states *)
(* --------------------------------------------------------------------- *)

Lemma cleanupStale_error_keeps_world_witness :
  fst (cleanupStaleRuntimeFiles rfc3339Parse sampleDir runningWorld) = runningWorld.
Proof.
  apply (cleanupStale_error_keeps_world rfc3339Parse sampleDir runningWorld _
           (Errorf "playground already running (pid=4242)")).
  vm_compute. reflexivity.
Defined.


Lemma cleanupStale_unparsable_stale_witness :
  cleanupStaleRuntimeFiles rfc3339Parse sampleDir staleInvalidWorld
  = (staleInvalidWorld, Some (Errorf ("playground already running (port="
                                      +:+ Itoa 8080 +:+ ")"))).
Proof.
  refine (proj1 (proj1 (cleanupStale_unparsable_stale rfc3339Parse sampleDir
                          staleInvalidWorld (file "" (sampleNow - 60 * Second)) pidFile0
                          (Errorf "missing pid field") sampleDir_nonblank _ _ _)
                   8080 _ _) _).
  - vm_compute. reflexivity.
  - vm_compute. reflexivity.
  - right. vm_compute. discriminate.
  - vm_compute. reflexivity.
  - lia.
  - vm_compute. reflexivity.
Defined.

Lemma claim_then_read_witness :
  readPIDFile rfc3339Parse (Join sampleDir playgroundPIDFileName) claimedWorld
  = ({| pid := Getpid emptyWorld; startedAt := sampleNow; tag := "demo" |}, None).
Proof.
  refine (claim_then_read rfc3339Parse rfc3339Format 1 sampleDir "demo" emptyWorld
            claimedWorld (release (Join sampleDir playgroundPIDFileName)) sampleNow
            _ _ _ _ _).
  - vm_compute. reflexivity.
  - unfold maxInt. simpl. lia.
  - reflexivity.
  - vm_compute. reflexivity.
  - vm_compute. reflexivity.
Defined.


Lemma waitStopped_error_after_deadline_witness :
  Errorf "timeout waiting for playground to stop"
  = Errorf "timeout waiting for playground to stop"
  /\ clock runningWorld + (if 400 * Millisecond <=? 0 then 60 * Second
                           else 400 * Millisecond)
     < clock (afterSleeps 3 runningWorld).
Proof.
  refine (waitStopped_error_after_deadline rfc3339Parse 4 sampleDir (400 * Millisecond)
            runningWorld (afterSleeps 3 runningWorld)
            (Errorf "timeout waiting for playground to stop") sampleDir_nonblank _).
  vm_compute. reflexivity.
Defined.



Lemma killProcessOrGroup_calls_witness :
  0 < 4242 /\ 9 <> 0 /\ 9 = 9
  /\ (- 4242 = 4242 \/ (- 4242 = - 4242 /\ Getpgid emptyWorld 4242 = inl 4242))
  /\ killProcessOrGroup 4242 9 emptyWorld
     = ([(- 4242, 9)], SysErr <$> Kill emptyWorld (- 4242) 9).
Proof.
  refine (killProcessOrGroup_calls 4242 9 emptyWorld (- 4242) 9 _).
  vm_compute. apply list_elem_of_here.
Defined.

Lemma probe_ping_decides_witness :
  probePlaygroundCommandServer probeCtx 8082 portOnlyWorld
  = probePlaygroundCommandServer probeCtx 8082 emptyWorld.
Proof.
  refine (probe_ping_decides probeCtx 8082 emptyWorld portOnlyWorld _ _).
  - reflexivity.
  - reflexivity.
Defined.

Lemma Write_buffers_witness :
  Write "par" (ui (New daemonOptions))
  = Some (if closed (ui (New daemonOptions)) || isOff (mode (ui (New daemonOptions)))
          then ui (New daemonOptions)
          else setBuf (buf (ui (New daemonOptions)) +:+ "par") (ui (New daemonOptions))).
Proof. refine (Write_buffers "par" (ui (New daemonOptions)) _). reflexivity. Defined.

Lemma Write_chunks_witness :
  buf (ui (after [AWrite "he"; AWrite ("llo" +:+ newline +:+ "par")] (New daemonOptions)))
  = buf (ui (after banner (New daemonOptions)))
  /\ List.flat_map Lines
       (eventsCh (ui (after [AWrite "he"; AWrite ("llo" +:+ newline +:+ "par")]
                        (New daemonOptions))))
     = List.flat_map Lines (eventsCh (ui (after banner (New daemonOptions)))).
Proof.
  refine (Write_chunks "he" ("llo" +:+ newline +:+ "par") (ui (New daemonOptions))
            (ui (after [AWrite "he"] (New daemonOptions))) _ _ _ _ _).
  - vm_compute. reflexivity.
  - vm_compute. reflexivity.
  - vm_compute. reflexivity.
Defined.

Lemma eventLog_is_rendered_witness :
  rendered (ui (after (banner ++ ASync :: drained) (New daemonOptions)))
  = List.filter notSync (handled (after (banner ++ ASync :: drained) (New daemonOptions)))
  /\ eventLog (ui (after (banner ++ ASync :: drained) (New daemonOptions)))
     = (if withEventLog daemonOptions
        then Some (rendered (ui (after (banner ++ ASync :: drained) (New daemonOptions))))
        else None)
  /\ Forall (fun e => isSync e = false)
       (rendered (ui (after (banner ++ ASync :: drained) (New daemonOptions)))).
Proof.
  refine (eventLog_is_rendered daemonOptions (banner ++ ASync :: drained) _ _ _ _).
  - reflexivity.
  - vm_compute. reflexivity.
  - vm_compute. reflexivity.
Defined.

Lemma Sync_returns_when_drained_witness :
  exists s2 u',
    run (replicate (length (eventsCh (ui (after [ASync] (after banner (New daemonOptions))))))
           AEngineRecv)
      (after [ASync] (after banner (New daemonOptions))) = Some s2
    /\ eventsCh (ui s2) = []
    /\ handled s2 = sentOf (after [ASync] (after banner (New daemonOptions)))
    /\ SyncLeave 1 (ui s2) = Some u'.
Proof.
  refine (Sync_returns_when_drained (after banner (New daemonOptions))
            (after [ASync] (after banner (New daemonOptions))) 1
            (ui (after [ASync] (after banner (New daemonOptions)))) _ _ _ _).
  - split; [vm_compute; discriminate | vm_compute; reflexivity].
  - left. reflexivity.
  - vm_compute. reflexivity.
  - vm_compute. reflexivity.
Defined.


Lemma Close_flush_sends_witness :
  sentOf (after (banner ++ [ACloseFlag; ACloseFlush]) (New daemonOptions))
  = sentOf (after (banner ++ [ACloseFlag]) (New daemonOptions))
    ++ pendingLine (ui (after (banner ++ [ACloseFlag]) (New daemonOptions)))
  /\ buf (ui (after (banner ++ [ACloseFlag; ACloseFlush]) (New daemonOptions))) = ""
  /\ closer (after (banner ++ [ACloseFlag; ACloseFlush]) (New daemonOptions)) = CloseFlushed.
Proof.
  refine (Close_flush_sends daemonOptions (banner ++ [ACloseFlag])
            (after (banner ++ [ACloseFlag]) (New daemonOptions)) _ _ _ _ _).
  - reflexivity.
  - vm_compute. reflexivity.
  - vm_compute. reflexivity.
  - vm_compute. reflexivity.
Defined.

Lemma Close_completes_witness :
  exists s',
    run (ACloseFlag
         :: replicate (length (eventsCh (ui (after banner (New daemonOptions))))) AEngineRecv
         ++ [ACloseFlush; ACloseSignal; AEngineClose]
         ++ replicate (length (pendingLine (ui (after banner (New daemonOptions)))))
              AEngineRecv
         ++ [AEngineExit]) (after banner (New daemonOptions)) = Some s'
    /\ doneCh (ui s') = true
    /\ handled s' = sentOf (after banner (New daemonOptions))
                    ++ pendingLine (ui (after banner (New daemonOptions))).
Proof.
  refine (Close_completes daemonOptions banner (after banner (New daemonOptions)) _ _ _ _).
  - reflexivity.
  - vm_compute. reflexivity.
  - vm_compute. reflexivity.
  - reflexivity.
Defined.


Lemma PrintLines_as_Write_witness :
  PrintLines ["hello"; "world"] (ui (New daemonOptions))
  = Write (joinLines ["hello"; "world"]) (ui (New daemonOptions)).
Proof.
  refine (PrintLines_as_Write ["hello"; "world"] (ui (New daemonOptions)) _ _).
  - reflexivity.
  - repeat constructor.
Defined.

Lemma sealed_group_frozen_witness :
  groupByID (applyEvents (eventsOf lateCalls) sealedState) !! 1
  = groupByID sealedState !! 1
  /\ forall tid t, taskByID sealedState !! tid = Some t -> tG t = 1 ->
                   taskByID (applyEvents (eventsOf lateCalls) sealedState) !! tid = Some t.
Proof.
  refine (sealed_group_frozen (eventsOf lateCalls) sealedState 1 _ _ _).
  - vm_compute. reflexivity.
  - reflexivity.
Defined.

Lemma finished_task_stays_witness :
  exists t',
    taskByID (applyEvents (eventsOf lateCalls) sampleState) !! 3 = Some t'
    /\ tStatus t' = taskStatusError /\ tStartAt t' = 50 /\ tEndAt t' = 50
    /\ tCurrent t' = 0 /\ tTotal t' = 0 /\ tSpeedBps t' = 0%float.
Proof.
  refine (finished_task_stays lateCalls sampleState 3
            {| tID := 3; tG := 1; tTitle := "tidb"; tKind := taskKindGeneric;
               tStatus := taskStatusError; tHideIfFast := false; tRevealAfter := 0;
               tMeta := ""; tMessage := "exit status 1"; tCurrent := 0; tTotal := 0;
               tStartAt := 50; tEndAt := 50; tSpeedBps := 0%float; tLastSpeedAt := 0;
               tLastSpeedBytes := 0; tPlainStartPrinted := false;
               tDownloadStartPrinted := false |} _ _).
  - vm_compute. reflexivity.
  - reflexivity.
Defined.

Lemma engineState_timed_witness : timed sampleState.
Proof.
  refine (proj1 (engineState_timed (eventsOf sampleCalls) _)).
  repeat constructor; discriminate.
Defined.

Lemma add_close_idempotent_witness :
  applyEvents (eventsOf [called 60 (CallOnGroup 1 GroupHandle.Seal);
                         called 65 (CallOnGroup 1 GroupHandle.Seal)]) sampleState
  = sealedState.
Proof.
  refine (add_close_idempotent 61 66 60 65 (event EventGroupClose 1 0)
            (groupPayload 65 None None None None (Some false)) sampleState _).
  right. left. reflexivity.
Defined.

Lemma SetHideIfFast_reveal_witness :
  exists t',
    taskByID (applyEvent 5 60 (event EventTaskUpdate 0 2)
                (taskPayload 60 None None None (Some true) (Some 1) None None None)
                sampleState) !! 2 = Some t'
    /\ tHideIfFast t' = true /\ tRevealAfter t' = Millisecond.
Proof.
  destruct (SetHideIfFast_reveal 5 60 2 (1500 * 1000) sampleState
              {| tID := 2; tG := 1; tTitle := "pd"; tKind := taskKindGeneric;
                 tStatus := taskStatusDone; tHideIfFast := false; tRevealAfter := 0;
                 tMeta := ""; tMessage := ""; tCurrent := 0; tTotal := 0;
                 tStartAt := 20; tEndAt := 40; tSpeedBps := 0%float; tLastSpeedAt := 0;
                 tLastSpeedBytes := 0; tPlainStartPrinted := false;
                 tDownloadStartPrinted := false |}
              {| gID := 1; gTitle := "Start instances"; gStartedAt := 10; gClosedAt := 0;
                 gClosed := false; gSealed := false; gTasks := [2; 3]; gShowMeta := true;
                 gHideDetailsOnSuccess := false; gSortTasksByTitle := false |})
    as (t' & H1 & H2 & H3 & _).
  - vm_compute. reflexivity.
  - split; vm_compute; discriminate.
  - exists t'. split; [exact H1|]. split; [exact H2|]. rewrite H3. reflexivity.
Defined.
